(** * DoMake: the versioned record store

    A shallow embedding of [internal/data] (tasks.go, the category model,
    due_date.go, models.go) and of the list handlers of [cmd/api], with the
    properties of the store stated and proved over it.

    Conventions.
    - A Go [int64], [int32] or [int] is a [Z]; where the database checks a
      range (the [integer] column [version], a [bigserial] sequence) the
      check is written out and fails the statement, as PostgreSQL does.
    - A [time.Time] is represented by its UTC civil reading plus the
      nanosecond within the second.
    - A method with a pointer argument returns the pointee's final value
      next to its result (explicit state passing).
    - The connection pool is a value of type [DB]; every statement sent to
      the backend is appended to its [journal], so that "no round trip" and
      "a single write" are statements about the journal.
    - Each call takes a [Link], the behaviour of the backend during that
      call, and ends in an [Outcome]; time is counted in nanoseconds. *)

From Stdlib Require Import ZArith Lia Ascii String.
From stdpp Require Import base option list strings gmap sorting.

Local Open Scope Z_scope.

(** ** Errors *)

(** The sentinel errors of models.go and due_date.go, [sql.ErrNoRows],
    [context.DeadlineExceeded], and whatever else the driver reports. *)
Inductive error : Type :=
  | ErrRecordNotFound
  | ErrEditConflict
  | ErrInvalidTimeFormat
  | ErrNoRows
  | DeadlineExceeded
  | DriverError (msg : string).

(** The spec's [Backend] class of failures: everything the store hands on
    verbatim from the driver. *)
Definition is_backend_error (e : error) : bool :=
  match e with
  | DeadlineExceeded | DriverError _ => true
  | _ => false
  end.

(** ** Temporal value (due_date.go) *)

Record CustomTime : Type := mkTime {
  t_year : Z; t_month : Z; t_day : Z;
  t_hour : Z; t_minute : Z; t_second : Z;
  t_nsec : Z
}.

(** [time.Time{}] : January 1, year 1, 00:00:00 UTC. *)
Definition zeroTime : CustomTime := mkTime 1 1 1 0 0 0 0.

Definition isLeap (year : Z) : bool :=
  (year mod 4 =? 0) && (negb (year mod 100 =? 0) || (year mod 400 =? 0)).

Definition daysIn (month year : Z) : Z :=
  if month =? 2 then (if isLeap year then 29 else 28)
  else if (month =? 4) || (month =? 6) || (month =? 9) || (month =? 11) then 30
  else 31.

(** A real calendar reading whose year fits the four digits of the layout. *)
Definition calendar (t : CustomTime) : Prop :=
  0 <= t_year t <= 9999 /\ 1 <= t_month t <= 12 /\
  1 <= t_day t <= daysIn (t_month t) (t_year t) /\
  0 <= t_hour t <= 23 /\ 0 <= t_minute t <= 59 /\ 0 <= t_second t <= 59.

(** A valid Temporal Value: a calendar reading with second precision. *)
Definition valid_instant (t : CustomTime) : Prop :=
  calendar t /\ t_nsec t = 0.

Global Instance calendar_dec t : Decision (calendar t).
Proof. unfold calendar. apply _. Defined.
Global Instance valid_instant_dec t : Decision (valid_instant t).
Proof. unfold valid_instant. apply _. Defined.

(** *** Characters *)

Definition byte_of (c : ascii) : Z := Z.of_N (N_of_ascii c).
Definition chr (n : Z) : ascii := ascii_of_N (Z.to_N n).

Definition isDigit (c : ascii) : bool := (48 <=? byte_of c) && (byte_of c <=? 57).
Definition digitVal (c : ascii) : Z := byte_of c - 48.
Definition digit (d : Z) : ascii := chr (48 + d).

Definition commaOrPeriod (c : ascii) : bool :=
  (byte_of c =? 46) || (byte_of c =? 44).

(** *** time.Time.Format with the layout "2006-01-02 15:04:05" *)

(** The decimal digits of [u], most significant first ([fuel] bounds their
    number: a 64-bit value has at most twenty). *)
Fixpoint decimal (fuel : nat) (u : Z) (acc : string) : string :=
  match fuel with
  | O => acc
  | S fuel' =>
      if u <? 10 then String (digit u) acc
      else decimal fuel' (u / 10) (String (digit (u mod 10)) acc)
  end.

Fixpoint zeros (n : nat) : string :=
  match n with O => EmptyString | S n' => String (digit 0) (zeros n') end.

(** [appendInt(b, x, width)]: the two fast paths for two- and four-digit
    fields, and the general zero-padded path. *)
Definition appendInt (x : Z) (width : nat) : string :=
  let u := Z.abs x in
  let sign := if x <? 0 then String (chr 45) EmptyString else EmptyString in
  String.append sign
    (if (Nat.eqb width 2) && (u <? 100) then
       String (digit (u / 10)) (String (digit (u mod 10)) EmptyString)
     else if (Nat.eqb width 4) && (u <? 10000) then
       String (digit (u / 100 / 10)) (String (digit (u / 100 mod 10))
         (String (digit (u mod 100 / 10)) (String (digit (u mod 100 mod 10))
           EmptyString)))
     else
       let ds := decimal 20 u EmptyString in
       String.append (zeros (width - String.length ds)) ds).

Definition sep_dash : ascii := chr 45.
Definition sep_colon : ascii := chr 58.
Definition sep_space : ascii := chr 32.

Definition Format (t : CustomTime) : string :=
  String.append (appendInt (t_year t) 4) (String sep_dash
  (String.append (appendInt (t_month t) 2) (String sep_dash
  (String.append (appendInt (t_day t) 2) (String sep_space
  (String.append (appendInt (t_hour t) 2) (String sep_colon
  (String.append (appendInt (t_minute t) 2) (String sep_colon
  (appendInt (t_second t) 2)))))))))).

(** *** time.Parse with the same layout *)

(** [getnum(s, fixed)]: one or two leading digits; with [fixed], exactly
    two are demanded. *)
Definition getnum (s : string) (fixed : bool) : option (Z * string) :=
  match s with
  | String c0 rest =>
      if isDigit c0 then
        match rest with
        | String c1 rest' =>
            if isDigit c1 then Some (digitVal c0 * 10 + digitVal c1, rest')
            else if fixed then None else Some (digitVal c0, rest)
        | EmptyString => if fixed then None else Some (digitVal c0, rest)
        end
      else None
  | EmptyString => None
  end.

(** [stdLongYear]: at least four bytes, the first a digit, and [atoi] of
    the first four succeeds, which after a leading digit means four digits. *)
Definition getyear (s : string) : option (Z * string) :=
  match s with
  | String c0 (String c1 (String c2 (String c3 rest))) =>
      if isDigit c0 && isDigit c1 && isDigit c2 && isDigit c3 then
        Some (((digitVal c0 * 10 + digitVal c1) * 10 + digitVal c2) * 10
              + digitVal c3, rest)
      else None
  | _ => None
  end.

Fixpoint cutspace (s : string) : string :=
  match s with
  | String c rest => if Ascii.eqb c sep_space then cutspace rest else s
  | EmptyString => s
  end.

(** [skip(value, prefix)] for a one-byte prefix.  A space in the layout
    matches any run of spaces in the value, also none at the very end. *)
Definition skip (s : string) (prefix : ascii) : option string :=
  if Ascii.eqb prefix sep_space then
    match s with
    | String c _ => if Ascii.eqb c sep_space then Some (cutspace s) else None
    | EmptyString => Some s
    end
  else
    match s with
    | String c rest => if Ascii.eqb c prefix then Some rest else None
    | EmptyString => None
    end.

(** The digits of a fractional second present in the value although the
    layout has none: [value[1:n]] and the rest. *)
Fixpoint span_digits (s : string) : string * string :=
  match s with
  | String c rest =>
      if isDigit c then
        let '(ds, r) := span_digits rest in (String c ds, r)
      else (EmptyString, s)
  | EmptyString => (EmptyString, EmptyString)
  end.

Fixpoint atoi_digits (s : string) (acc : Z) : Z :=
  match s with
  | String c rest => atoi_digits rest (acc * 10 + digitVal c)
  | EmptyString => acc
  end.

Fixpoint take_string (n : nat) (s : string) : string :=
  match n, s with
  | S n', String c rest => String c (take_string n' rest)
  | _, _ => EmptyString
  end.

(** [parseNanoseconds]: at most nine digits count, scaled to nanoseconds. *)
Definition parseNanoseconds (ds : string) : Z :=
  let kept := take_string 9 ds in
  atoi_digits kept 0 * 10 ^ (9 - Z.of_nat (String.length kept)).

Definition fraction (s : string) : Z * string :=
  match s with
  | String c0 (String c1 rest) =>
      if commaOrPeriod c0 && isDigit c1 then
        let '(ds, r) := span_digits (String c1 rest) in (parseNanoseconds ds, r)
      else (0, s)
  | _ => (0, s)
  end.

Definition Parse (value : string) : option CustomTime :=
  '(year, value) ← getyear value;
  value ← skip value sep_dash;
  '(month, value) ← getnum value true;
  guard (1 <= month <= 12);;
  value ← skip value sep_dash;
  '(day, value) ← getnum value true;
  value ← skip value sep_space;
  '(hour, value) ← getnum value false;
  guard (0 <= hour < 24);;
  value ← skip value sep_colon;
  '(min, value) ← getnum value true;
  guard (0 <= min < 60);;
  value ← skip value sep_colon;
  '(sec, value) ← getnum value true;
  guard (0 <= sec < 60);;
  let '(nsec, value) := fraction value in
  guard (value = EmptyString);;
  guard (1 <= day <= daysIn month year);;
  Some (mkTime year month day hour min sec nsec).

(** *** strconv.Quote and strconv.Unquote *)

Definition dquote : ascii := chr 34.
Definition bquote : ascii := chr 96.
Definition squote : ascii := chr 39.
Definition backslash : ascii := chr 92.
Definition newline : ascii := chr 10.
Definition creturn : ascii := chr 13.

Fixpoint string_forall (p : ascii -> bool) (s : string) : bool :=
  match s with
  | String c rest => p c && string_forall p rest
  | EmptyString => true
  end.

Fixpoint string_filter (p : ascii -> bool) (s : string) : string :=
  match s with
  | String c rest =>
      if p c then String c (string_filter p rest) else string_filter p rest
  | EmptyString => EmptyString
  end.

(** [index(in[1:], quote)]: the text before the first [quote] and the text
    after it. *)
Fixpoint cut_at (quote : ascii) (s : string) : option (string * string) :=
  match s with
  | String c rest =>
      if Ascii.eqb c quote then Some (EmptyString, rest)
      else '(inner, after) ← cut_at quote rest; Some (String c inner, after)
  | EmptyString => None
  end.

(** [strconv.Quote] on text made of digits, spaces, '-' and ':' (all that
    [Format] produces): printable ASCII without quote or backslash is copied
    between two double quotes. *)
Definition Quote (s : string) : string :=
  String dquote (String.append s (String dquote EmptyString)).

(** [strconv.Unquote] on the fragment without escape sequences: every byte
    below 0x80, no backslash, and not a single-quoted literal.  [None]
    marks an input outside that fragment (escape processing and UTF-8
    decoding are not modelled); inside it the result is Go's: the unquoted
    text, or [inl tt] for [ErrSyntax]. *)
Definition unescaped (c : ascii) : bool :=
  (byte_of c <? 128) && negb (Ascii.eqb c backslash).

Definition Unquote (s : string) : option (unit + string) :=
  if negb (string_forall unescaped s) then None
  else
    match s with
    | String quote ((String _ _) as rest) =>
        match cut_at quote rest with
        | None => Some (inl tt)
        | Some (inner, after) =>
            if Ascii.eqb quote squote then None
            else if Ascii.eqb quote bquote then
              if String.eqb after EmptyString
              then Some (inr (string_filter (fun c => negb (Ascii.eqb c creturn)) inner))
              else Some (inl tt)
            else if Ascii.eqb quote dquote then
              if string_forall (fun c => negb (Ascii.eqb c newline)) inner
                 && String.eqb after EmptyString
              then Some (inr inner)
              else Some (inl tt)
            else Some (inl tt)
        end
    | _ => Some (inl tt)
    end.

(** *** CustomTime.MarshalJSON and CustomTime.UnmarshalJSON *)

Definition MarshalJSON (ct : CustomTime) : string := Quote (Format ct).

(** The receiver is written only on success; the result is the value the
    receiver then holds, or the error.  (The [fmt.Println] of the parsed
    value writes to standard output and changes nothing here.) *)
Definition UnmarshalJSON (jsonValue : string) : option (error + CustomTime) :=
  unq ← Unquote jsonValue;
  match unq with
  | inl _ => Some (inl ErrInvalidTimeFormat)
  | inr unquotedJSONValue =>
      match Parse unquotedJSONValue with
      | None => Some (inl ErrInvalidTimeFormat)
      | Some parsedTime => Some (inr parsedTime)
      end
  end.

(** The texts [Parse] accepts for an instant: its canonical rendering, where
    the blank may be followed by more blanks, the hour may be written with
    one digit, and a fraction of a second may follow the seconds. *)
Fixpoint spaces (n : nat) : string :=
  match n with O => EmptyString | S n' => String sep_space (spaces n') end.

Definition hour_text (hour : Z) (s : string) : Prop :=
  s = appendInt hour 2 \/ (hour <= 9 /\ s = String (digit hour) EmptyString).

Definition fraction_text (nsec : Z) (s : string) : Prop :=
  (s = EmptyString /\ nsec = 0)
  \/ exists c ds, s = String c ds /\ commaOrPeriod c = true
       /\ ds <> EmptyString /\ string_forall isDigit ds = true
       /\ nsec = parseNanoseconds ds.

Definition accepted (text : string) (t : CustomTime) : Prop :=
  calendar t /\
  exists n h f,
    hour_text (t_hour t) h /\ fraction_text (t_nsec t) f /\
    text =
      String.append (appendInt (t_year t) 4) (String sep_dash
      (String.append (appendInt (t_month t) 2) (String sep_dash
      (String.append (appendInt (t_day t) 2) (String sep_space
      (String.append (spaces n) (String.append h (String sep_colon
      (String.append (appendInt (t_minute t) 2) (String sep_colon
      (String.append (appendInt (t_second t) 2) f))))))))))).

(** What [Format] writes: digits and the three separators. *)
Definition plain_char (c : ascii) : bool :=
  isDigit c || Ascii.eqb c sep_dash || Ascii.eqb c sep_colon
  || Ascii.eqb c sep_space.

(** [decode] of the spec: the text between the quotes, parsed. *)
Definition decode (text : string) : error + CustomTime :=
  match Parse text with
  | None => inl ErrInvalidTimeFormat
  | Some parsedTime => inr parsedTime
  end.

Definition encode (ct : CustomTime) : string := Format ct.

(** The canonical layout YYYY-MM-DD HH:MM:SS: nineteen bytes, digits
    everywhere but at the five separators. *)
Definition canonical_layout (s : string) : bool :=
  match list_ascii_of_string s with
  | [y0; y1; y2; y3; d0; m0; m1; d1; a0; a1; sp; h0; h1; c0; i0; i1; c1; s0; s1] =>
      forallb isDigit [y0; y1; y2; y3; m0; m1; a0; a1; h0; h1; i0; i1; s0; s1]
      && Ascii.eqb d0 sep_dash && Ascii.eqb d1 sep_dash
      && Ascii.eqb sp sep_space
      && Ascii.eqb c0 sep_colon && Ascii.eqb c1 sep_colon
  | _ => false
  end.

Global Instance CustomTime_eq_dec : EqDecision CustomTime.
Proof. solve_decision. Defined.

Definition IsZero (ct : CustomTime) : bool := bool_decide (ct = zeroTime).


(** Seconds since 1970-01-01 00:00:00 UTC of a civil reading (days counted
    in the proleptic Gregorian calendar), and the instant in nanoseconds:
    the order of instants is the order of these numbers. *)
Definition days_from_civil (y m d : Z) : Z :=
  let y' := if m <=? 2 then y - 1 else y in
  let era := y' / 400 in
  let yoe := y' - era * 400 in
  let mp := (m + 9) mod 12 in
  let doy := (153 * mp + 2) / 5 + d - 1 in
  let doe := yoe * 365 + yoe / 4 - yoe / 100 + doy in
  era * 146097 + doe - 719468.

Definition Unix (t : CustomTime) : Z :=
  days_from_civil (t_year t) (t_month t) (t_day t) * 86400
  + t_hour t * 3600 + t_minute t * 60 + t_second t.

Definition UnixNano (t : CustomTime) : Z := Unix t * 1000000000 + t_nsec t.

(** [Before] and [After] compare instants. *)
Definition Before (ct u : CustomTime) : bool := UnixNano ct <? UnixNano u.
Definition After (ct u : CustomTime) : bool := UnixNano u <? UnixNano ct.

(** ** Entities (tasks.go, the category model) *)

Record Task : Type := mkTask {
  task_ID : Z;
  task_CreatedAt : CustomTime;
  task_Title : string;
  task_Description : string;
  task_DueDate : CustomTime;
  task_Priority : string;
  task_Status : string;
  task_Category : string;
  task_UserID : Z;
  task_Version : Z
}.

Record Category : Type := mkCategory {
  cat_ID : Z;
  cat_CreatedAt : CustomTime;
  cat_Name : string;
  cat_Description : string
}.

Global Instance Task_eq_dec : EqDecision Task.
Proof. solve_decision. Defined.
Global Instance Category_eq_dec : EqDecision Category.
Proof. solve_decision. Defined.
Global Instance error_eq_dec : EqDecision error.
Proof. solve_decision. Defined.

(** [Scan(&task.Version)]: the one field [Update] writes. *)
Definition set_Version (t : Task) (v : Z) : Task :=
  mkTask (task_ID t) (task_CreatedAt t) (task_Title t) (task_Description t)
    (task_DueDate t) (task_Priority t) (task_Status t) (task_Category t)
    (task_UserID t) v.

(** [Scan(&task.ID, &task.CreatedAt, &task.UserID, &task.Version)]. *)
Definition set_generated (t : Task) (id : Z) (created : CustomTime)
    (user_id version : Z) : Task :=
  mkTask id created (task_Title t) (task_Description t) (task_DueDate t)
    (task_Priority t) (task_Status t) (task_Category t) user_id version.

(** [Scan(&category.ID, &category.CreatedAt)]. *)
Definition set_cat_generated (c : Category) (id : Z) (created : CustomTime)
    : Category :=
  mkCategory id created (cat_Name c) (cat_Description c).

(** [var task Task] and [var category Category]: the zero values. *)
Definition zeroTask : Task :=
  mkTask 0 zeroTime EmptyString EmptyString zeroTime EmptyString EmptyString
    EmptyString 0 0.

Definition zeroCategory : Category :=
  mkCategory 0 zeroTime EmptyString EmptyString.

(** ** The relational backend *)

(** What the store consumes from PostgreSQL without this repository fixing
    it: the text-search predicate
    [to_tsvector('simple', doc) @@ plainto_tsquery('simple', query)], the
    collation that orders [text] columns, and the coercion of a timestamp
    to a [timestamp(0)] column, which leaves a second-precision value as it
    is. *)
Class Engine : Type := {
  ts_match : string -> string -> bool;
  collate_le : relation string;
  collate_dec :: RelDecision collate_le;
  collate_trans :: Transitive collate_le;
  collate_total :: Total collate_le;
  timestamp0 : CustomTime -> CustomTime;
  timestamp0_instant : forall t, valid_instant t -> timestamp0 t = t
}.

(** The statements the store sends, with their parameters; the two list
    statements carry the two tokens that [fmt.Sprintf] writes into the
    query text. *)
Inductive Statement : Type :=
  | InsertTask (title description priority status category : string)
      (due_date : CustomTime)
  | SelectTask (id : Z)
  | UpdateTask (title description priority status category : string)
      (due_date : CustomTime) (user_id id version : Z)
  | DeleteTask (id : Z)
  | SelectTasks (order_column order_direction : string) (title : string)
      (limit offset : Z)
  | InsertCategory (name description : string)
  | SelectCategory (id : Z)
  | UpdateCategory (name description : string) (id : Z)
  | DeleteCategory (id : Z)
  | SelectCategories (order_column order_direction : string)
      (limit offset : Z).

Record DB : Type := mkDB {
  tasks : list Task;
  tasks_id_seq : Z;
  tasks_user_id_seq : Z;
  categories : list Category;
  categories_id_seq : Z;
  clock : CustomTime;
  journal : list Statement
}.

Definition with_tasks (db : DB) (rows : list Task) : DB :=
  mkDB rows (tasks_id_seq db) (tasks_user_id_seq db) (categories db)
    (categories_id_seq db) (clock db) (journal db).

Definition with_categories (db : DB) (rows : list Category) : DB :=
  mkDB (tasks db) (tasks_id_seq db) (tasks_user_id_seq db) rows
    (categories_id_seq db) (clock db) (journal db).

Definition next_task_seqs (db : DB) : DB :=
  mkDB (tasks db) (tasks_id_seq db + 1) (tasks_user_id_seq db + 1)
    (categories db) (categories_id_seq db) (clock db) (journal db).

Definition next_category_seq (db : DB) : DB :=
  mkDB (tasks db) (tasks_id_seq db) (tasks_user_id_seq db) (categories db)
    (categories_id_seq db + 1) (clock db) (journal db).

Definition record_statement (stmt : Statement) (db : DB) : DB :=
  mkDB (tasks db) (tasks_id_seq db) (tasks_user_id_seq db) (categories db)
    (categories_id_seq db) (clock db) (journal db ++ [stmt]).

Definition max_int32 : Z := 2147483647.
Definition max_int64 : Z := 9223372036854775807.

(** How the backend behaves during one call: it answers after some time,
    never answers, reports a failure of its own before it carries the
    statement out (connectivity, a constraint this model does not track),
    or carries the statement out, delivers its rows after some time and
    then fails, so that the failure reaches the caller where the result is
    read to its end or closed; [committed] tells whether the effect of the
    statement stays in place nevertheless (the connection was lost after
    the commit) or is undone (the statement failed at its end). *)
Inductive Link : Type :=
  | Responds (after : Z)
  | Hangs
  | Refuses (msg : string)
  | Aborts (after : Z) (msg : string) (committed : bool).

(** What a call does to its caller: it returns, it never returns, or it
    panics. *)
Inductive Outcome (A : Type) : Type :=
  | Returns (a : A)
  | Blocks
  | Panics.
Arguments Returns {A} a.
Arguments Blocks {A}.
Arguments Panics {A}.

(** [time.Second] in nanoseconds and the deadline of
    [context.WithTimeout(context.Background(), 3*time.Second)]. *)
Definition Second : Z := 1000000000.
Definition WithTimeout3s : option Z := Some (3 * Second).
(** A call without a context carries no deadline. *)
Definition NoContext : option Z := None.

Definition expired (deadline : option Z) (after : Z) : bool :=
  match deadline with
  | Some d => d <=? after
  | None => false
  end.

(** One statement sent to the backend under a deadline.  [run] is the
    statement's effect on the tables; a statement abandoned at its deadline
    has none. *)
Definition roundtrip {A : Type} (deadline : option Z) (link : Link)
    (stmt : Statement) (run : DB -> (string + A) * DB) (db : DB)
    : Outcome ((error + A) * DB) :=
  let db1 := record_statement stmt db in
  match link with
  | Refuses msg => Returns (inl (DriverError msg), db1)
  | Hangs =>
      match deadline with
      | Some _ => Returns (inl DeadlineExceeded, db1)
      | None => Blocks
      end
  | Responds after =>
      if expired deadline after then Returns (inl DeadlineExceeded, db1)
      else
        match run db1 with
        | (inl msg, db2) => Returns (inl (DriverError msg), db2)
        | (inr a, db2) => Returns (inr a, db2)
        end
  | Aborts after msg committed =>
      if expired deadline after then Returns (inl DeadlineExceeded, db1)
      else
        match run db1 with
        | (inl m, db2) => Returns (inl (DriverError m), db2)
        | (inr _, db2) =>
            Returns (inl (DriverError msg), if committed then db2 else db1)
        end
  end.

(** [QueryRow(...).Scan(dest...)]: what [Scan] has written into [dest],
    if it has written, and the error it returns.  [Row.Scan] of
    database/sql reads the first row ([sql.ErrNoRows] when there is none,
    or the error the reading met), writes it into [dest] and then returns
    the error of closing the result: a row can have been written and an
    error be returned all the same. *)
Definition QueryRow {A : Type} (deadline : option Z) (link : Link)
    (stmt : Statement) (run : DB -> (string + list A) * DB) (db : DB)
    : Outcome (option A * option error * DB) :=
  let db1 := record_statement stmt db in
  match link with
  | Aborts after msg committed =>
      if expired deadline after
      then Returns (None, Some DeadlineExceeded, db1)
      else
        match run db1 with
        | (inl m, db2) => Returns (None, Some (DriverError m), db2)
        | (inr rows, db2) =>
            Returns (head rows, Some (DriverError msg),
                     if committed then db2 else db1)
        end
  | _ =>
      match roundtrip deadline link stmt run db with
      | Returns (inl e, db') => Returns (None, Some e, db')
      | Returns (inr [], db') => Returns (None, Some ErrNoRows, db')
      | Returns (inr (row :: _), db') => Returns (Some row, None, db')
      | Blocks => Blocks
      | Panics => Panics
      end
  end.

(** ** Ordering and windowing of a result set *)

(** A value of a sortable column: [bigint]/[integer], [text], [timestamp]. *)
Inductive SortKey : Type :=
  | KInt (z : Z)
  | KText (s : string)
  | KTime (t : CustomTime).

Definition order_direction (dir : string) : option bool :=
  if String.eqb dir "ASC" then Some false
  else if String.eqb dir "DESC" then Some true
  else None.

Section listing.
Context `{Engine} {R : Type} (row_id : R -> Z).

(** Values of one column have one type; across types the order is by
    type, which never matters for keys read from a single column. *)
Definition key_le (a b : SortKey) : Prop :=
  match a, b with
  | KInt x, KInt y => x <= y
  | KInt _, _ => True
  | KText _, KInt _ => False
  | KText s, KText t => collate_le s t
  | KText _, KTime _ => True
  | KTime s, KTime t => UnixNano s <= UnixNano t
  | KTime _, _ => False
  end.

Global Instance key_le_dec : RelDecision key_le.
Proof. intros [x|s|s] [y|t|t]; simpl; apply _. Defined.

(** [ORDER BY key dir, id ASC]: [a] may come before [b]. *)
Definition row_le (key : R -> SortKey) (desc : bool) (a b : R) : Prop :=
  let ka := if desc then key b else key a in
  let kb := if desc then key a else key b in
  (key_le ka kb /\ ~ key_le kb ka)
  \/ (key_le ka kb /\ key_le kb ka /\ row_id a <= row_id b).

Global Instance row_le_dec key desc : RelDecision (row_le key desc).
Proof. intros a b. unfold row_le. apply _. Defined.

(** [SELECT count( * ) OVER(), ... WHERE keep ORDER BY col dir, id ASC
    LIMIT limit OFFSET offset]: every returned row carries the number of
    rows that passed [WHERE]. *)
Definition select_list (column : string -> option (R -> SortKey))
    (keep : R -> bool) (col dir : string) (limit offset : Z)
    (rows : list R) : string + list (Z * R) :=
  match column col, order_direction dir with
  | None, _ => inl "column does not exist"
  | _, None => inl "syntax error"
  | Some key, Some desc =>
      if limit <? 0 then inl "LIMIT must not be negative"
      else if offset <? 0 then inl "OFFSET must not be negative"
      else
        let matching := filter (fun r => keep r) rows in
        let count := Z.of_nat (length matching) in
        let ordered := merge_sort (row_le key desc) matching in
        inr ((fun r => (count, r)) <$>
               take (Z.to_nat limit) (drop (Z.to_nat offset) ordered))
  end.

(** The [for rows.Next()] loop of both [GetAll]s: each row overwrites
    [totalRecords] and is appended to the slice. *)
Definition scan_rows (rows : list (Z * R)) : Z * list R :=
  fold_left (fun acc row => (row.1, acc.2 ++ [row.2])) rows (0, []).
End listing.

(** ** Pagination and sort policy *)

(** [strings.TrimPrefix(s, "-")] and [strings.HasPrefix(s, "-")]. *)
Definition TrimDash (s : string) : string :=
  match s with
  | String c rest => if Ascii.eqb c sep_dash then rest else s
  | EmptyString => s
  end.

Definition HasDash (s : string) : bool :=
  match s with
  | String c _ => Ascii.eqb c sep_dash
  | EmptyString => false
  end.

Record Filters : Type := mkFilters {
  Page : Z;
  PageSize : Z;
  Sort : string;
  SortSafelist : list string
}.

Record Metadata : Type := mkMetadata {
  CurrentPage : Z;
  MetaPageSize : Z;
  FirstPage : Z;
  LastPage : Z;
  TotalRecords : Z
}.

(** [Metadata{}]. *)
Definition noMetadata : Metadata := mkMetadata 0 0 0 0 0.

Global Instance Metadata_eq_dec : EqDecision Metadata.
Proof. solve_decision. Defined.

(** Modelled from the spec: filters.go, which declares [Filters] and its
    methods, is not among the sources.  Section 4.3: [sortColumn] strips a
    leading '-' from [sort] and "must only ever return a value drawn from
    the safelist"; for a [sort] the safelist does not hold it therefore has
    no value to return, which is [None] here and a panic in [GetAll]. *)
Definition sortColumn (f : Filters) : option string :=
  if bool_decide (Sort f ∈ SortSafelist f) then Some (TrimDash (Sort f))
  else None.

(** Modelled from the spec: filters.go is not among the sources.  Section
    4.3: "DESC" if [sort] starts with '-', else "ASC". *)
Definition sortDirection (f : Filters) : string :=
  if HasDash (Sort f) then "DESC" else "ASC".

(** Modelled from the spec: filters.go is not among the sources.  Section
    4.3: [limit() = pageSize]. *)
Definition limit (f : Filters) : Z := PageSize f.

(** Modelled from the spec: filters.go is not among the sources.  Section
    4.3: [offset() = (page - 1) * pageSize]. *)
Definition offset (f : Filters) : Z := (Page f - 1) * PageSize f.

(** The least integer not below [a / b] ([b] positive). *)
Definition ceil_div (a b : Z) : Z := - ((- a) / b).

(** Modelled from the spec: filters.go is not among the sources.  Section
    4.3: every field zero when [totalRecords] is zero, else
    [firstPage = 1] and [lastPage = ceil(totalRecords / pageSize)]. *)
Definition calculateMetadata (totalRecords page pageSize : Z) : Metadata :=
  if totalRecords =? 0 then noMetadata
  else mkMetadata page pageSize 1 (ceil_div totalRecords pageSize) totalRecords.

(** ** Validation engine *)

(** Modelled from the spec: the validator package is not among the sources.
    Section 4.2: [Check] records [(field, message)] when the condition is
    false and the field has no message yet; [Valid] holds iff no message is
    recorded. *)
Abbreviation Validator := (gmap string string).

Definition AddError (v : Validator) (key message : string) : Validator :=
  match v !! key with
  | Some _ => v
  | None => <[key := message]> v
  end.

Definition Check (v : Validator) (ok : bool) (key message : string)
    : Validator :=
  if ok then v else AddError v key message.

Definition Valid (v : Validator) : bool := bool_decide (size v = 0%nat).

(** Modelled from the spec: filters.go is not among the sources.  Section
    4.3: [page] in 1..10,000,000, [pageSize] in 1..100, and [sort] one of
    the safelist's tokens, each reported through the validation engine. *)
Definition ValidateFilters (v : Validator) (f : Filters) : Validator :=
  let v := Check v (0 <? Page f) "page" "must be greater than zero" in
  let v := Check v (Page f <=? 10000000) "page" "must be a maximum of 10 million" in
  let v := Check v (0 <? PageSize f) "page_size" "must be greater than zero" in
  let v := Check v (PageSize f <=? 100) "page_size" "must be a maximum of 100" in
  let v := Check v (bool_decide (Sort f ∈ SortSafelist f)) "sort"
             "invalid sort value" in
  v.

(** ** TaskModel (tasks.go) *)

Module TaskModel.
Section methods.
Context `{Engine}.

Definition has_id (id : Z) (r : Task) : bool := task_ID r =? id.

(** [INSERT INTO tasks (title, description, priority, status, category,
    due_date) VALUES (...) RETURNING id, created_at, user_id, version].
    The columns left out take their defaults: [id] and [user_id] the next
    value of their [bigserial] sequences, [created_at] the clock,
    [version] 1. *)
Definition insert_sql (title description priority status category : string)
    (due_date : CustomTime) (db : DB)
    : (string + list (Z * CustomTime * Z * Z)) * DB :=
  let id := tasks_id_seq db in
  let user_id := tasks_user_id_seq db in
  if (max_int64 <? id) || (max_int64 <? user_id) then
    (inl "nextval: reached maximum value of sequence", db)
  else if existsb (has_id id) (tasks db) then
    (inl "duplicate key value violates unique constraint",
     next_task_seqs db)
  else
    let created := timestamp0 (clock db) in
    let row := mkTask id created title description (timestamp0 due_date)
                 priority status category user_id 1 in
    (inr [(id, created, user_id, 1)],
     with_tasks (next_task_seqs db) (tasks db ++ [row])).

Definition Insert (link : Link) (task : Task) (db : DB)
    : Outcome (option error * Task * DB) :=
  match QueryRow NoContext link
          (InsertTask (task_Title task) (task_Description task)
             (task_Priority task) (task_Status task) (task_Category task)
             (task_DueDate task))
          (insert_sql (task_Title task) (task_Description task)
             (task_Priority task) (task_Status task) (task_Category task)
             (task_DueDate task)) db with
  | Returns (scanned, err, db') =>
      let task :=
        match scanned with
        | Some (id, created, user_id, version) =>
            set_generated task id created user_id version
        | None => task
        end in
      Returns (err, task, db')
  | Blocks => Blocks
  | Panics => Panics
  end.

(** [SELECT ... FROM tasks WHERE id = $1]. *)
Definition select_sql (id : Z) (db : DB) : (string + list Task) * DB :=
  (inr (filter (fun r => has_id id r) (tasks db)), db).

Definition Get (link : Link) (id : Z) (db : DB)
    : Outcome ((error + Task) * DB) :=
  if id <? 1 then Returns (inl ErrRecordNotFound, db)
  else
    match QueryRow WithTimeout3s link (SelectTask id) (select_sql id) db with
    | Returns (scanned, err, db') =>
        let task := default zeroTask scanned in
        match err with
        | Some ErrNoRows => Returns (inl ErrRecordNotFound, db')
        | Some err => Returns (inl err, db')
        | None => Returns (inr task, db')
        end
    | Blocks => Blocks
    | Panics => Panics
    end.

(** [UPDATE tasks SET title = $1, ..., user_id = $7,
    version = version + 1 WHERE id = $8 AND version = $9
    RETURNING version]. *)
Definition update_hits (id version : Z) (r : Task) : bool :=
  (task_ID r =? id) && (task_Version r =? version).

Definition updated_row (title description priority status category : string)
    (due_date : CustomTime) (user_id : Z) (r : Task) : Task :=
  mkTask (task_ID r) (task_CreatedAt r) title description
    (timestamp0 due_date) priority status category user_id
    (task_Version r + 1).

Definition update_sql (title description priority status category : string)
    (due_date : CustomTime) (user_id id version : Z) (db : DB)
    : (string + list Z) * DB :=
  if existsb (fun r => update_hits id version r
                       && (max_int32 <? task_Version r + 1)) (tasks db)
  then (inl "integer out of range", db)
  else
    (inr ((fun r => task_Version r + 1) <$>
            filter (fun r => update_hits id version r) (tasks db)),
     with_tasks db
       ((fun r => if update_hits id version r
                  then updated_row title description priority status
                         category due_date user_id r
                  else r) <$> tasks db)).

(** [Scan(&task.Version)] writes the returned version into the entity
    whenever a row has been scanned, whatever error it returns after that;
    [Update] hands that error on and does not put the old version back. *)
Definition Update (link : Link) (task : Task) (db : DB)
    : Outcome (option error * Task * DB) :=
  match QueryRow WithTimeout3s link
          (UpdateTask (task_Title task) (task_Description task)
             (task_Priority task) (task_Status task) (task_Category task)
             (task_DueDate task) (task_UserID task) (task_ID task)
             (task_Version task))
          (update_sql (task_Title task) (task_Description task)
             (task_Priority task) (task_Status task) (task_Category task)
             (task_DueDate task) (task_UserID task) (task_ID task)
             (task_Version task)) db with
  | Returns (scanned, err, db') =>
      let task :=
        match scanned with
        | Some version => set_Version task version
        | None => task
        end in
      match err with
      | Some ErrNoRows => Returns (Some ErrEditConflict, task, db')
      | Some err => Returns (Some err, task, db')
      | None => Returns (None, task, db')
      end
  | Blocks => Blocks
  | Panics => Panics
  end.

(** [DELETE FROM tasks WHERE id = $1], with the number of rows removed
    ([RowsAffected] itself does not fail with this driver). *)
Definition delete_sql (id : Z) (db : DB) : (string + Z) * DB :=
  let kept := filter (fun r => negb (has_id id r)) (tasks db) in
  (inr (Z.of_nat (length (tasks db)) - Z.of_nat (length kept)),
   with_tasks db kept).

Definition Delete (link : Link) (id : Z) (db : DB)
    : Outcome (option error * DB) :=
  if id <? 1 then Returns (Some ErrRecordNotFound, db)
  else
    match roundtrip WithTimeout3s link (DeleteTask id) (delete_sql id) db with
    | Returns (inl err, db') => Returns (Some err, db')
    | Returns (inr rowsAffected, db') =>
        if rowsAffected =? 0 then Returns (Some ErrRecordNotFound, db')
        else Returns (None, db')
    | Blocks => Blocks
    | Panics => Panics
    end.

Definition column (col : string) : option (Task -> SortKey) :=
  if String.eqb col "id" then Some (fun r => KInt (task_ID r))
  else if String.eqb col "created_at" then Some (fun r => KTime (task_CreatedAt r))
  else if String.eqb col "title" then Some (fun r => KText (task_Title r))
  else if String.eqb col "description" then Some (fun r => KText (task_Description r))
  else if String.eqb col "due_date" then Some (fun r => KTime (task_DueDate r))
  else if String.eqb col "priority" then Some (fun r => KText (task_Priority r))
  else if String.eqb col "status" then Some (fun r => KText (task_Status r))
  else if String.eqb col "category" then Some (fun r => KText (task_Category r))
  else if String.eqb col "user_id" then Some (fun r => KInt (task_UserID r))
  else if String.eqb col "version" then Some (fun r => KInt (task_Version r))
  else None.

(** [WHERE (to_tsvector('simple', title) @@ plainto_tsquery('simple', $1)
    OR $1 = '')]. *)
Definition title_matches (title : string) (r : Task) : bool :=
  ts_match (task_Title r) title || String.eqb title EmptyString.

Definition select_all_sql (col dir title : string) (limit offset : Z)
    (db : DB) : (string + list (Z * Task)) * DB :=
  (select_list task_ID column (title_matches title) col dir limit offset
     (tasks db), db).

(** On an error the Go method returns [nil, Metadata{}, err]: the [inl].
    The [Link] covers the whole call, the iteration over the rows
    included. *)
Definition GetAll (link : Link) (title : string) (filters : Filters)
    (db : DB) : Outcome ((error + list Task * Metadata) * DB) :=
  match sortColumn filters with
  | None => Panics
  | Some col =>
      match roundtrip WithTimeout3s link
              (SelectTasks col (sortDirection filters) title
                 (limit filters) (offset filters))
              (select_all_sql col (sortDirection filters) title
                 (limit filters) (offset filters)) db with
      | Returns (inl err, db') => Returns (inl err, db')
      | Returns (inr rows, db') =>
          let '(totalRecords, tasks) := scan_rows rows in
          let metadata :=
            calculateMetadata totalRecords (Page filters) (PageSize filters) in
          Returns (inr (tasks, metadata), db')
      | Blocks => Blocks
      | Panics => Panics
      end
  end.
End methods.
End TaskModel.

(** ** CategoryModel *)

Module CategoryModel.
Section methods.
Context `{Engine}.

Definition has_id (id : Z) (r : Category) : bool := cat_ID r =? id.

(** [INSERT INTO categories (name, description) VALUES ($1, $2)
    RETURNING id, created_at]. *)
Definition insert_sql (name description : string) (db : DB)
    : (string + list (Z * CustomTime)) * DB :=
  let id := categories_id_seq db in
  if max_int64 <? id then
    (inl "nextval: reached maximum value of sequence", db)
  else if existsb (has_id id) (categories db) then
    (inl "duplicate key value violates unique constraint",
     next_category_seq db)
  else
    let created := timestamp0 (clock db) in
    (inr [(id, created)],
     with_categories (next_category_seq db)
       (categories db ++ [mkCategory id created name description])).

Definition Insert (link : Link) (category : Category) (db : DB)
    : Outcome (option error * Category * DB) :=
  match QueryRow NoContext link
          (InsertCategory (cat_Name category) (cat_Description category))
          (insert_sql (cat_Name category) (cat_Description category)) db with
  | Returns (scanned, err, db') =>
      let category :=
        match scanned with
        | Some (id, created) => set_cat_generated category id created
        | None => category
        end in
      Returns (err, category, db')
  | Blocks => Blocks
  | Panics => Panics
  end.

(** [SELECT ... FROM categories WHERE id = $1]. *)
Definition select_sql (id : Z) (db : DB) : (string + list Category) * DB :=
  (inr (filter (fun r => has_id id r) (categories db)), db).

Definition Get (link : Link) (id : Z) (db : DB)
    : Outcome ((error + Category) * DB) :=
  if id <? 1 then Returns (inl ErrRecordNotFound, db)
  else
    match QueryRow WithTimeout3s link (SelectCategory id) (select_sql id) db with
    | Returns (scanned, err, db') =>
        let category := default zeroCategory scanned in
        match err with
        | Some ErrNoRows => Returns (inl ErrRecordNotFound, db')
        | Some err => Returns (inl err, db')
        | None => Returns (inr category, db')
        end
    | Blocks => Blocks
    | Panics => Panics
    end.

(** [UPDATE categories SET name = $1, description = $2 WHERE id = $3];
    the [sql.Result] is discarded. *)
Definition update_sql (name description : string) (id : Z) (db : DB)
    : (string + Z) * DB :=
  (inr (Z.of_nat (length (filter (fun r => has_id id r) (categories db)))),
   with_categories db
     ((fun r => if has_id id r
                then mkCategory (cat_ID r) (cat_CreatedAt r) name description
                else r) <$> categories db)).

Definition Update (link : Link) (category : Category) (db : DB)
    : Outcome (option error * DB) :=
  match roundtrip WithTimeout3s link
          (UpdateCategory (cat_Name category) (cat_Description category)
             (cat_ID category))
          (update_sql (cat_Name category) (cat_Description category)
             (cat_ID category)) db with
  | Returns (inl err, db') => Returns (Some err, db')
  | Returns (inr _, db') => Returns (None, db')
  | Blocks => Blocks
  | Panics => Panics
  end.

(** [DELETE FROM categories WHERE id = $1]. *)
Definition delete_sql (id : Z) (db : DB) : (string + Z) * DB :=
  let kept := filter (fun r => negb (has_id id r)) (categories db) in
  (inr (Z.of_nat (length (categories db)) - Z.of_nat (length kept)),
   with_categories db kept).

Definition Delete (link : Link) (id : Z) (db : DB)
    : Outcome (option error * DB) :=
  if id <? 1 then Returns (Some ErrRecordNotFound, db)
  else
    match roundtrip WithTimeout3s link (DeleteCategory id) (delete_sql id) db with
    | Returns (inl err, db') => Returns (Some err, db')
    | Returns (inr rowsAffected, db') =>
        if rowsAffected =? 0 then Returns (Some ErrRecordNotFound, db')
        else Returns (None, db')
    | Blocks => Blocks
    | Panics => Panics
    end.

Definition column (col : string) : option (Category -> SortKey) :=
  if String.eqb col "id" then Some (fun r => KInt (cat_ID r))
  else if String.eqb col "created_at" then Some (fun r => KTime (cat_CreatedAt r))
  else if String.eqb col "name" then Some (fun r => KText (cat_Name r))
  else if String.eqb col "description" then Some (fun r => KText (cat_Description r))
  else None.

(** [SELECT count( * ) OVER(), ... FROM categories ORDER BY %s %s, id ASC
    LIMIT $1 OFFSET $2]: there is no [WHERE]. *)
Definition select_all_sql (col dir : string) (limit offset : Z) (db : DB)
    : (string + list (Z * Category)) * DB :=
  (select_list cat_ID column (fun _ => true) col dir limit offset
     (categories db), db).

Definition GetAll (link : Link) (filters : Filters) (db : DB)
    : Outcome ((error + list Category * Metadata) * DB) :=
  match sortColumn filters with
  | None => Panics
  | Some col =>
      match roundtrip WithTimeout3s link
              (SelectCategories col (sortDirection filters)
                 (limit filters) (offset filters))
              (select_all_sql col (sortDirection filters)
                 (limit filters) (offset filters)) db with
      | Returns (inl err, db') => Returns (inl err, db')
      | Returns (inr rows, db') =>
          let '(totalRecords, categories) := scan_rows rows in
          let metadata :=
            calculateMetadata totalRecords (Page filters) (PageSize filters) in
          Returns (inr (categories, metadata), db')
      | Blocks => Blocks
      | Panics => Panics
      end
  end.
End methods.
End CategoryModel.

(** ** The list handlers (cmd/api) *)

(** One query-string integer as [readInt] sees it. *)
Inductive IntParam : Type :=
  | Absent
  | IntValue (z : Z)
  | NotAnInt.

(** The query string of a list request: [qs.Get] of the four keys the
    handlers read (an absent key reads as the empty string). *)
Record ListQuery : Type := mkQuery {
  q_filter : string;
  q_page : IntParam;
  q_page_size : IntParam;
  q_sort : string
}.

(** Modelled from the spec: helpers.go is not among the sources.  Section
    4.3 gives each input a default ([sort] defaults to "id"), which the
    handlers pass in: an absent or empty value reads as the default. *)
Definition readString (s defaultValue : string) : string :=
  if String.eqb s EmptyString then defaultValue else s.

(** Modelled from the spec: helpers.go is not among the sources.  Section
    4.3 gives [page] the default 1 and [pageSize] the default 20 and reports
    every failure through the validation engine, which the handlers pass in:
    an absent value reads as the default, an unreadable one as the default
    with a message under its key. *)
Definition readInt (p : IntParam) (key : string) (defaultValue : Z)
    (v : Validator) : Z * Validator :=
  match p with
  | Absent => (defaultValue, v)
  | IntValue z => (z, v)
  | NotAnInt => (defaultValue, AddError v key "must be an integer value")
  end.

Inductive Response : Type :=
  | tasksResponse (tasks : list Task) (metadata : Metadata)
  | failedValidationResponse (errors : Validator)
  | serverErrorResponse (err : error)
  | noResponse.

Definition tasksSafelist : list string :=
  ["id"; "title"; "priority"; "category";
   "-id"; "-title"; "-priority"; "-category"].

Definition categoriesSafelist : list string := ["id"; "name"; "-id"; "-name"].

Section handlers.
Context `{Engine}.

Definition listTasksHandler (link : Link) (qs : ListQuery) (db : DB)
    : Outcome (Response * DB) :=
  let v : Validator := ∅ in
  let title := readString (q_filter qs) EmptyString in
  let '(page, v) := readInt (q_page qs) "page" 1 v in
  let '(pageSize, v) := readInt (q_page_size qs) "page_size" 20 v in
  let sort := readString (q_sort qs) "id" in
  let filters := mkFilters page pageSize sort tasksSafelist in
  let v := ValidateFilters v filters in
  if negb (Valid v) then Returns (failedValidationResponse v, db)
  else
    match TaskModel.GetAll link title filters db with
    | Returns (inl err, db') => Returns (serverErrorResponse err, db')
    | Returns (inr (tasks, metadata), db') =>
        Returns (tasksResponse tasks metadata, db')
    | Blocks => Blocks
    | Panics => Panics
    end.

(** The handler ends after validation: it never calls the store and
    writes no response for a valid request. *)
Definition listCategoriesHandler (link : Link) (qs : ListQuery) (db : DB)
    : Outcome (Response * DB) :=
  let v : Validator := ∅ in
  let name := readString (q_filter qs) EmptyString in
  let '(page, v) := readInt (q_page qs) "page" 1 v in
  let '(pageSize, v) := readInt (q_page_size qs) "page_size" 20 v in
  let sort := readString (q_sort qs) "id" in
  let filters := mkFilters page pageSize sort categoriesSafelist in
  let v := ValidateFilters v filters in
  if negb (Valid v) then Returns (failedValidationResponse v, db)
  else Returns (noResponse, db).
End handlers.

(** ** A backend to run examples on *)

Definition lower (c : ascii) : ascii :=
  if (65 <=? byte_of c) && (byte_of c <=? 90) then chr (byte_of c + 32) else c.

Fixpoint lower_string (s : string) : string :=
  match s with
  | String c rest => String (lower c) (lower_string rest)
  | EmptyString => EmptyString
  end.

(** Blank-separated words, lower-cased: every word of the query occurs in
    the document, and the query has a word. *)
Definition words_match (doc query : string) : bool :=
  let qs := String.words (lower_string query) in
  let ds := String.words (lower_string doc) in
  negb (bool_decide (qs = [])) && forallb (fun q => bool_decide (q ∈ ds)) qs.

Definition drop_fraction (t : CustomTime) : CustomTime :=
  mkTime (t_year t) (t_month t) (t_day t) (t_hour t) (t_minute t)
    (t_second t) 0.

(** A stand-in for the backend, enough to run the examples (whose
    timestamps all have second precision): words for the text search, byte
    order for the collation, and the fraction of a second dropped. *)
Definition sampleEngine : Engine.
Proof.
  refine {| ts_match := words_match;
            collate_le := String.le;
            timestamp0 := drop_fraction |}.
  intros [y m d h mi s n] [_ Hn].
  simpl in Hn. unfold drop_fraction; simpl. by rewrite Hn.
Defined.



(** ** Sequences of updates *)

(** [Updated n task0 taskN]: [n] successful calls of [Update], one after the
    other through the same entity.  Between two calls the caller may edit
    any field but the version it last received, and other writers may have
    changed the tables. *)
Inductive Updated `{Engine} : nat -> Task -> Task -> Prop :=
  | Updated_none (task : Task) : Updated 0 task task
  | Updated_more (n : nat) (task0 task1 edited task2 : Task) (link : Link)
      (db db' : DB) :
      Updated n task0 task1 ->
      task_Version edited = task_Version task1 ->
      TaskModel.Update link edited db = Returns (None, task2, db') ->
      Updated (S n) task0 task2.

(** The statement [Update] sends for an entity. *)
Definition update_statement (task : Task) : Statement :=
  UpdateTask (task_Title task) (task_Description task) (task_Priority task)
    (task_Status task) (task_Category task) (task_DueDate task)
    (task_UserID task) (task_ID task) (task_Version task).

(** The rows a call of [Update] for [task] addresses. *)
Definition addressed (task : Task) (db : DB) : list Task :=
  filter (fun r => TaskModel.update_hits (task_ID task) (task_Version task) r)
    (tasks db).

(** The answer arrives before the three seconds are over. *)
Definition in_time (link : Link) : Prop :=
  exists after, link = Responds after /\ after < 3 * Second.

(** ** What a list call reports *)

(** The metadata a page comes with when [r] rows matched: the true total
    and the page arithmetic when the page holds a row, all zeros when it
    holds none; the page holds a row exactly when the window starts inside
    the [r] rows. *)
Definition reports {R : Type} (page : list R) (md : Metadata) (r : Z)
    (f : Filters) : Prop :=
  (page <> [] <-> offset f < r /\ 0 < PageSize f)
  /\ (page <> [] ->
      TotalRecords md = r /\ FirstPage md = 1
      /\ LastPage md = ceil_div r (PageSize f)
      /\ (LastPage md - 1) * PageSize f < r <= LastPage md * PageSize f
      /\ CurrentPage md = Page f /\ MetaPageSize md = PageSize f)
  /\ (page = [] -> md = noMetadata).

(** The page of a listing: the matching rows in [ORDER BY] order, cut to
    the window. *)
Definition window `{Engine} {R : Type} (row_id : R -> Z) (key : R -> SortKey)
    (f : Filters) (matching : list R) : list R :=
  take (Z.to_nat (limit f))
    (drop (Z.to_nat (offset f))
       (merge_sort (row_le row_id key (HasDash (Sort f))) matching)).

(** The category listing as Section 4.4 of the spec words it for both
    entities: the rows whose name matches a non-empty filter, every row for
    the empty filter, in [ORDER BY] order, cut to the window.  It is here
    to be compared with [CategoryModel.GetAll], which takes no filter. *)
Definition category_listing_per_spec `{Engine} (name : string)
    (key : Category -> SortKey) (f : Filters) (rows : list Category)
    : list Category :=
  window cat_ID key f
    (filter (fun r => ts_match (cat_Name r) name || String.eqb name EmptyString)
       rows).

(** ** Example data *)

Definition emptyDB : DB :=
  mkDB [] 1 1 [] 1 (mkTime 2024 3 1 12 0 0 0) [].

Definition taskA : Task :=
  mkTask 0 zeroTime "A" "first" (mkTime 2024 1 1 0 0 0 0) "high" "to-do"
    "home" 42 0.

Definition taskB : Task :=
  mkTask 0 zeroTime "B" "second" (mkTime 2024 1 2 0 0 0 0) "low" "to-do"
    "home" 0 0.

(** The rows the two inserts of the scenario leave in an empty table. *)
Definition rowA `{Engine} : Task :=
  mkTask 1 (timestamp0 (clock emptyDB)) "A" "first" (mkTime 2024 1 1 0 0 0 0)
    "high" "to-do" "home" 1 1.

Definition rowB `{Engine} : Task :=
  mkTask 2 (timestamp0 (clock emptyDB)) "B" "second" (mkTime 2024 1 2 0 0 0 0)
    "low" "to-do" "home" 2 1.

Definition two_tasks : DB :=
  mkDB [@rowA sampleEngine; @rowB sampleEngine] 3 3 [] 1 (clock emptyDB) [].

Definition one_task : DB :=
  mkDB [@rowA sampleEngine] 2 2 [] 1 (clock emptyDB) [].

(** [one_task] after the insert of [taskB]. *)
Definition one_task_and_B : DB :=
  mkDB [@rowA sampleEngine; @rowB sampleEngine] 3 3 [] 1 (clock emptyDB)
    [InsertTask "B" "second" "low" "to-do" "home" (mkTime 2024 1 2 0 0 0 0)].

(** [emptyDB] after the insert of [taskA]. *)
Definition only_A : DB :=
  mkDB [@rowA sampleEngine] 2 2 [] 1 (clock emptyDB)
    [InsertTask "A" "first" "high" "to-do" "home" (mkTime 2024 1 1 0 0 0 0)].

(** [only_A] after the insert of [taskB]. *)
Definition A_then_B : DB :=
  mkDB [@rowA sampleEngine; @rowB sampleEngine] 3 3 [] 1 (clock emptyDB)
    [InsertTask "A" "first" "high" "to-do" "home" (mkTime 2024 1 1 0 0 0 0);
     InsertTask "B" "second" "low" "to-do" "home" (mkTime 2024 1 2 0 0 0 0)].

Definition work : Category :=
  mkCategory 1 (mkTime 2024 3 1 12 0 0 0) "Work" "office".

Definition one_category : DB :=
  mkDB [] 1 1 [work] 2 (clock emptyDB) [].

(** ** The tables between calls *)

(** What the primary keys, the sequences and the default of [version] keep
    true of the tables: ids are unique, at least 1 and below the next value
    of their sequence, and versions are at least 1. *)
Definition tasks_ok (db : DB) : Prop :=
  1 <= tasks_id_seq db
  /\ NoDup (task_ID <$> tasks db)
  /\ Forall (fun r => 1 <= task_ID r < tasks_id_seq db /\ 1 <= task_Version r)
       (tasks db).

Definition categories_ok (db : DB) : Prop :=
  1 <= categories_id_seq db
  /\ NoDup (cat_ID <$> categories db)
  /\ Forall (fun r => 1 <= cat_ID r < categories_id_seq db) (categories db).

Definition store_ok (db : DB) : Prop := tasks_ok db /\ categories_ok db.

(** ** The entity validators (tasks.go, the category model) *)

(** [len(s)]: the number of bytes. *)
Definition len (s : string) : Z := Z.of_nat (String.length s).

(** [s != ""]. *)
Definition nonempty (s : string) : bool := negb (String.eqb s EmptyString).

(** [time.Date(2060, 1, 1, 0, 0, 0, 0, time.UTC)] and
    [time.Date(2023, 10, 7, 0, 0, 0, 0, time.UTC)]. *)
Definition date_2060_01_01 : CustomTime := mkTime 2060 1 1 0 0 0 0.
Definition date_2023_10_07 : CustomTime := mkTime 2023 10 7 0 0 0 0.

Definition ValidateTask (v : Validator) (task : Task) : Validator :=
  let v := Check v (nonempty (task_Title task)) "title" "must be provided" in
  let v := Check v (len (task_Title task) <=? 500) "title"
             "must not be more than 500 bytes long" in
  let v := Check v (nonempty (task_Description task)) "description"
             "must be provided" in
  let v := Check v (len (task_Description task) <=? 1000) "description"
             "must not be more than 1000 bytes long" in
  let v := Check v (negb (IsZero (task_DueDate task))) "due_date"
             "must be provided" in
  let v := Check v (Before (task_DueDate task) date_2060_01_01) "due_date"
             "must be before 2060" in
  let v := Check v (After (task_DueDate task) date_2023_10_07) "due_date"
             "must be after 2023-10-07" in
  let v := Check v (nonempty (task_Priority task)) "priority"
             "must be provided" in
  let v := Check v (nonempty (task_Status task)) "status"
             "must be provided" in
  let v := Check v (nonempty (task_Category task)) "category"
             "must be provided" in
  v.

Definition ValidateCategory (v : Validator) (category : Category)
    : Validator :=
  let v := Check v (nonempty (cat_Name category)) "name" "must be provided" in
  let v := Check v (len (cat_Name category) <=? 100) "name"
             "must not be more than 100 bytes long" in
  let v := Check v (nonempty (cat_Description category)) "description"
             "must be provided" in
  let v := Check v (len (cat_Description category) <=? 500) "description"
             "must not be more than 500 bytes long" in
  v.


(** Two tasks and a category, for the instances of the theorems about the
    tables. *)
Definition small_store : DB :=
  mkDB [@rowA sampleEngine; @rowB sampleEngine] 3 3 [work] 2 (clock emptyDB) [].

(** [rowA] as a client would send it back after editing the title. *)
Definition editedA : Task :=
  mkTask 1 (mkTime 2024 3 1 12 0 0 0) "A, revised" "first"
    (mkTime 2024 1 1 0 0 0 0) "high" "to-do" "home" 1 1.

Definition renamed_work : Category :=
  mkCategory 1 zeroTime "Office" "desk".


(** [db'] holds the data of [db]: they differ at most in the journal of
    the statements sent. *)
Definition same_data (db db' : DB) : Prop :=
  tasks db' = tasks db /\ tasks_id_seq db' = tasks_id_seq db
  /\ tasks_user_id_seq db' = tasks_user_id_seq db
  /\ categories db' = categories db
  /\ categories_id_seq db' = categories_id_seq db
  /\ clock db' = clock db.

(** The rows a list call hands to its caller: none when it fails. *)
Definition listed {R M : Type} (o : Outcome ((error + list R * M) * DB))
    : list R :=
  match o with
  | Returns (inr (rows, _), _) => rows
  | _ => []
  end.


(** ** The item handlers (cmd/api) *)

(** The handlers read the request through [readIDParam] and [readJSON] and
    answer through [writeJSON] and the error helpers, none of which is among
    the sources.  A handler is embedded as a function of what the two
    readers returned, and its reply is the helper call that writes the
    response (the branch that reports a failure of [writeJSON] itself is
    left out). *)

(** The input struct of [createTaskHandler] after [readJSON]. *)
Record TaskInput : Type := mkTaskInput {
  input_Title : string;
  input_Description : string;
  input_DueDate : CustomTime;
  input_Priority : string;
  input_Status : string;
  input_Category : string
}.

(** The input struct of [updateTaskHandler]: a nil pointer is [None]. *)
Record TaskPatch : Type := mkTaskPatch {
  patch_Title : option string;
  patch_Description : option string;
  patch_DueDate : option CustomTime;
  patch_Priority : option string;
  patch_Status : option string;
  patch_Category : option string
}.

Record CategoryInput : Type := mkCategoryInput {
  input_Name : string;
  input_CatDescription : string
}.

Record CategoryPatch : Type := mkCategoryPatch {
  patch_Name : option string;
  patch_CatDescription : option string
}.

(** [envelope{"task": task}], [envelope{"category": category}],
    [envelope{"message": message}]. *)
Inductive Envelope : Type :=
  | taskEnvelope (task : Task)
  | categoryEnvelope (category : Category)
  | messageEnvelope (message : string).

Inductive Reply : Type :=
  | writeJSON (status : Z) (data : Envelope) (location : option string)
  | badRequestResponse (err : string)
  | notFoundResponse
  | editConflictResponse
  | errorResponse (r : Response).

Definition StatusOK : Z := 200.
Definition StatusCreated : Z := 201.

(** [fmt.Sprintf("%d", z)]. *)
Definition Sprintf_d (z : Z) : string :=
  if z <? 0 then String (chr 45) (decimal 20 (- z) EmptyString)
  else decimal 20 z EmptyString.

Section item_handlers.
Context `{Engine}.

(** The [&data.Task{...}] literal of [createTaskHandler]: the fields the
    client does not send are zero. *)
Definition new_task (input : TaskInput) : Task :=
  mkTask 0 zeroTime (input_Title input) (input_Description input)
    (input_DueDate input) (input_Priority input) (input_Status input)
    (input_Category input) 0 0.

Definition createTaskHandler (link : Link) (body : string + TaskInput)
    (db : DB) : Outcome (Reply * DB) :=
  match body with
  | inl err => Returns (badRequestResponse err, db)
  | inr input =>
      let task := new_task input in
      let v := ValidateTask ∅ task in
      if negb (Valid v)
      then Returns (errorResponse (failedValidationResponse v), db)
      else
        match TaskModel.Insert link task db with
        | Returns (Some err, _, db') =>
            Returns (errorResponse (serverErrorResponse err), db')
        | Returns (None, task, db') =>
            Returns (writeJSON StatusCreated (taskEnvelope task)
                       (Some (String.append "/v1/tasks/"
                                (Sprintf_d (task_ID task)))), db')
        | Blocks => Blocks
        | Panics => Panics
        end
  end.

Definition showTaskHandler (link : Link) (id : option Z) (db : DB)
    : Outcome (Reply * DB) :=
  match id with
  | None => Returns (notFoundResponse, db)
  | Some id =>
      match TaskModel.Get link id db with
      | Returns (inl ErrRecordNotFound, db') => Returns (notFoundResponse, db')
      | Returns (inl err, db') =>
          Returns (errorResponse (serverErrorResponse err), db')
      | Returns (inr task, db') =>
          Returns (writeJSON StatusOK (taskEnvelope task) None, db')
      | Blocks => Blocks
      | Panics => Panics
      end
  end.

(** The six [if input.X != nil] assignments. *)
Definition patch_task (task : Task) (input : TaskPatch) : Task :=
  mkTask (task_ID task) (task_CreatedAt task)
    (default (task_Title task) (patch_Title input))
    (default (task_Description task) (patch_Description input))
    (default (task_DueDate task) (patch_DueDate input))
    (default (task_Priority task) (patch_Priority input))
    (default (task_Status task) (patch_Status input))
    (default (task_Category task) (patch_Category input))
    (task_UserID task) (task_Version task).

(** The handler sends two statements, the SELECT of [Get] and the UPDATE;
    [others] is what other requests do to the store between the two. *)
Definition updateTaskHandler (link_get link_update : Link) (id : option Z)
    (body : string + TaskPatch) (others : DB -> DB) (db : DB)
    : Outcome (Reply * DB) :=
  match id with
  | None => Returns (notFoundResponse, db)
  | Some id =>
      match TaskModel.Get link_get id db with
      | Returns (inl ErrRecordNotFound, db') => Returns (notFoundResponse, db')
      | Returns (inl err, db') =>
          Returns (errorResponse (serverErrorResponse err), db')
      | Returns (inr task, db') =>
          match body with
          | inl err => Returns (badRequestResponse err, db')
          | inr input =>
              let task := patch_task task input in
              let v := ValidateTask ∅ task in
              if negb (Valid v)
              then Returns (errorResponse (failedValidationResponse v), db')
              else
                match TaskModel.Update link_update task (others db') with
                | Returns (Some ErrEditConflict, _, db'') =>
                    Returns (editConflictResponse, db'')
                | Returns (Some err, _, db'') =>
                    Returns (errorResponse (serverErrorResponse err), db'')
                | Returns (None, task, db'') =>
                    Returns (writeJSON StatusOK (taskEnvelope task) None, db'')
                | Blocks => Blocks
                | Panics => Panics
                end
          end
      | Blocks => Blocks
      | Panics => Panics
      end
  end.

Definition deleteTaskHandler (link : Link) (id : option Z) (db : DB)
    : Outcome (Reply * DB) :=
  match id with
  | None => Returns (notFoundResponse, db)
  | Some id =>
      match TaskModel.Delete link id db with
      | Returns (Some ErrRecordNotFound, db') =>
          Returns (notFoundResponse, db')
      | Returns (Some err, db') =>
          Returns (errorResponse (serverErrorResponse err), db')
      | Returns (None, db') =>
          Returns (writeJSON StatusOK
                     (messageEnvelope "task successfully deleted") None, db')
      | Blocks => Blocks
      | Panics => Panics
      end
  end.

Definition new_category (input : CategoryInput) : Category :=
  mkCategory 0 zeroTime (input_Name input) (input_CatDescription input).

Definition createCategoryHandler (link : Link) (body : string + CategoryInput)
    (db : DB) : Outcome (Reply * DB) :=
  match body with
  | inl err => Returns (badRequestResponse err, db)
  | inr input =>
      let category := new_category input in
      let v := ValidateCategory ∅ category in
      if negb (Valid v)
      then Returns (errorResponse (failedValidationResponse v), db)
      else
        match CategoryModel.Insert link category db with
        | Returns (Some err, _, db') =>
            Returns (errorResponse (serverErrorResponse err), db')
        | Returns (None, category, db') =>
            Returns (writeJSON StatusCreated (categoryEnvelope category)
                       (Some (String.append "/v1/categories/"
                                (Sprintf_d (cat_ID category)))), db')
        | Blocks => Blocks
        | Panics => Panics
        end
  end.

Definition showCategoryHandler (link : Link) (id : option Z) (db : DB)
    : Outcome (Reply * DB) :=
  match id with
  | None => Returns (notFoundResponse, db)
  | Some id =>
      match CategoryModel.Get link id db with
      | Returns (inl ErrRecordNotFound, db') => Returns (notFoundResponse, db')
      | Returns (inl err, db') =>
          Returns (errorResponse (serverErrorResponse err), db')
      | Returns (inr category, db') =>
          Returns (writeJSON StatusOK (categoryEnvelope category) None, db')
      | Blocks => Blocks
      | Panics => Panics
      end
  end.

Definition patch_category (category : Category) (input : CategoryPatch)
    : Category :=
  mkCategory (cat_ID category) (cat_CreatedAt category)
    (default (cat_Name category) (patch_Name input))
    (default (cat_Description category) (patch_CatDescription input)).

Definition updateCategoryHandler (link_get link_update : Link)
    (id : option Z) (body : string + CategoryPatch) (others : DB -> DB)
    (db : DB) : Outcome (Reply * DB) :=
  match id with
  | None => Returns (notFoundResponse, db)
  | Some id =>
      match CategoryModel.Get link_get id db with
      | Returns (inl ErrRecordNotFound, db') => Returns (notFoundResponse, db')
      | Returns (inl err, db') =>
          Returns (errorResponse (serverErrorResponse err), db')
      | Returns (inr category, db') =>
          match body with
          | inl err => Returns (badRequestResponse err, db')
          | inr input =>
              let category := patch_category category input in
              let v := ValidateCategory ∅ category in
              if negb (Valid v)
              then Returns (errorResponse (failedValidationResponse v), db')
              else
                match CategoryModel.Update link_update category
                        (others db') with
                | Returns (Some err, db'') =>
                    Returns (errorResponse (serverErrorResponse err), db'')
                | Returns (None, db'') =>
                    Returns (writeJSON StatusOK (categoryEnvelope category)
                               None, db'')
                | Blocks => Blocks
                | Panics => Panics
                end
          end
      | Blocks => Blocks
      | Panics => Panics
      end
  end.

Definition deleteCategoryHandler (link : Link) (id : option Z) (db : DB)
    : Outcome (Reply * DB) :=
  match id with
  | None => Returns (notFoundResponse, db)
  | Some id =>
      match CategoryModel.Delete link id db with
      | Returns (Some ErrRecordNotFound, db') =>
          Returns (notFoundResponse, db')
      | Returns (Some err, db') =>
          Returns (errorResponse (serverErrorResponse err), db')
      | Returns (None, db') =>
          Returns (writeJSON StatusOK
                     (messageEnvelope "category successfully deleted") None,
                   db')
      | Blocks => Blocks
      | Panics => Panics
      end
  end.
End item_handlers.


(** A request body that revises the title and leaves the other fields out,
    one that empties the title, a new task, and another request's update of
    [rowA] that arrives between a handler's read and its write. *)
Definition revise_title : TaskPatch :=
  mkTaskPatch (Some "A, revised") None None None None None.

Definition empty_title : TaskPatch :=
  mkTaskPatch (Some EmptyString) None None None None None.

Definition third_task : TaskInput :=
  mkTaskInput "C" "third" (mkTime 2024 5 1 0 0 0 0) "low" "to-do" "home".

Definition rename_category : CategoryPatch :=
  mkCategoryPatch (Some "Office") None.

Definition another_update (db : DB) : DB :=
  match @TaskModel.Update sampleEngine (Responds 0) editedA db with
  | Returns (_, _, db') => db'
  | _ => db
  end.

Definition another_delete (db : DB) : DB := with_categories db [].


(** ** The routes (cmd/api/routes.go) *)

Module Routes.

Inductive Handler : Type :=
  | healthcheckHandler
  | listTasksHandler
  | showTaskHandler
  | createTaskHandler
  | updateTaskHandler
  | deleteTaskHandler
  | createCategoryHandler
  | updateCategoryHandler
  | deleteCategoryHandler
  | showCategoryHandler
  | listCategoriesHandler
  | registerUserHandler
  | activateUserHandler
  | createAuthenticationTokenHandler.

(** One [router.HandlerFunc(method, pattern, handler)]; [permission] is the
    code of a [requirePermission] wrapped around the handler. *)
Record Route : Type := mkRoute {
  method : string;
  pattern : string;
  permission : option string;
  handler : Handler
}.

(** The routes [routes()] registers, in its order. *)
Definition routes : list Route :=
  [ mkRoute "GET" "/v1/healthcheck" None healthcheckHandler;
    mkRoute "GET" "/v1/tasks" (Some "tasks:read") listTasksHandler;
    mkRoute "GET" "/v1/tasks/:id" (Some "tasks:read") showTaskHandler;
    mkRoute "POST" "/v1/tasks" None createTaskHandler;
    mkRoute "PATCH" "/v1/tasks/:id" None updateTaskHandler;
    mkRoute "DELETE" "/v1/tasks/:id" None deleteTaskHandler;
    mkRoute "POST" "/v1/category" None createCategoryHandler;
    mkRoute "PATCH" "/v1/category/:id" None updateCategoryHandler;
    mkRoute "DELETE" "/v1/category/:id" None deleteCategoryHandler;
    mkRoute "GET" "/v1/category/:id" None showCategoryHandler;
    mkRoute "POST" "/v1/users" None registerUserHandler;
    mkRoute "PUT" "/v1/users/activated" None activateUserHandler;
    mkRoute "POST" "/v1/users/token" None createAuthenticationTokenHandler ].

Definition slash : ascii := chr 47.

(** The segments of a path, cut at each '/'. *)
Fixpoint split_path (path cur : string) : list string :=
  match path with
  | EmptyString => [cur]
  | String c rest =>
      if Ascii.eqb c slash then cur :: split_path rest EmptyString
      else split_path rest (String.append cur (String c EmptyString))
  end.

Definition segments (path : string) : list string :=
  split_path path EmptyString.

(** httprouter's matching of a request path against a pattern of static
    segments and named parameters: a static segment matches itself, a
    parameter [:name] any non-empty segment.  (Its redirects for a trailing
    slash or another letter case are not part of this.) *)
Definition segment_matches (pat seg : string) : bool :=
  match pat with
  | String c _ =>
      if Ascii.eqb c sep_colon then negb (String.eqb seg EmptyString)
      else String.eqb pat seg
  | EmptyString => String.eqb seg EmptyString
  end.

Fixpoint segments_match (pats segs : list string) : bool :=
  match pats, segs with
  | [], [] => true
  | p :: pats, s :: segs => segment_matches p s && segments_match pats segs
  | _, _ => false
  end.

(** The route a request is dispatched to; [None] is the router's
    [NotFound] (or [MethodNotAllowed]) handler. *)
Definition route_of (meth path : string) : option Route :=
  List.find (fun r => String.eqb (method r) meth
                      && segments_match (segments (pattern r)) (segments path))
    routes.

End Routes.

(** No '/' in it: the text is one segment of a path. *)
Definition slash_free (s : string) : bool :=
  string_forall (fun c => negb (Ascii.eqb c Routes.slash)) s.


(** ** Sequences of store calls *)

Section calls.
Context `{Engine}.

(** One call of a store method that returns, with any arguments and any
    behaviour of the backend. *)
Inductive store_call (db db' : DB) : Prop :=
  | call_task_Insert link task err task' :
      TaskModel.Insert link task db = Returns (err, task', db') ->
      store_call db db'
  | call_task_Get link id r :
      TaskModel.Get link id db = Returns (r, db') -> store_call db db'
  | call_task_Update link task err task' :
      TaskModel.Update link task db = Returns (err, task', db') ->
      store_call db db'
  | call_task_Delete link id err :
      TaskModel.Delete link id db = Returns (err, db') -> store_call db db'
  | call_task_GetAll link title f r :
      TaskModel.GetAll link title f db = Returns (r, db') -> store_call db db'
  | call_category_Insert link category err category' :
      CategoryModel.Insert link category db = Returns (err, category', db') ->
      store_call db db'
  | call_category_Get link id r :
      CategoryModel.Get link id db = Returns (r, db') -> store_call db db'
  | call_category_Update link category err :
      CategoryModel.Update link category db = Returns (err, db') ->
      store_call db db'
  | call_category_Delete link id err :
      CategoryModel.Delete link id db = Returns (err, db') -> store_call db db'
  | call_category_GetAll link f r :
      CategoryModel.GetAll link f db = Returns (r, db') -> store_call db db'.

(** Any number of calls, one after the other. *)
Definition store_calls : DB -> DB -> Prop := rtc store_call.
End calls.

(** [db'] continues [db]: the sequences have not gone back, and a row of
    [db'] whose id had been given out in [db] is a row of [db] under its id
    and creation time, at a version not below the one it had. *)
Definition continues (db db' : DB) : Prop :=
  tasks_id_seq db <= tasks_id_seq db'
  /\ categories_id_seq db <= categories_id_seq db'
  /\ (forall r', r' ∈ tasks db' -> task_ID r' < tasks_id_seq db ->
        exists r, r ∈ tasks db /\ task_ID r = task_ID r'
                  /\ task_CreatedAt r = task_CreatedAt r'
                  /\ task_Version r <= task_Version r')
  /\ (forall c', c' ∈ categories db' -> cat_ID c' < categories_id_seq db ->
        exists c, c ∈ categories db /\ cat_ID c = cat_ID c'
                  /\ cat_CreatedAt c = cat_CreatedAt c').


(** * Properties *)

(** ** Temporal value *)

Lemma isDigit_inv c :
  isDigit c = true -> 0 <= digitVal c <= 9 /\ digit (digitVal c) = c.
Proof.
  destruct c as [[] [] [] [] [] [] [] []]; vm_compute; intros Hc;
    try discriminate Hc; (split; [split; discriminate | reflexivity]).
Qed.

Lemma digit_spec d :
  0 <= d <= 9 -> isDigit (digit d) = true /\ digitVal (digit d) = d.
Proof.
  intros Hd.
  assert (Hc : d = 0 \/ d = 1 \/ d = 2 \/ d = 3 \/ d = 4 \/ d = 5 \/ d = 6
               \/ d = 7 \/ d = 8 \/ d = 9) by lia.
  repeat (destruct Hc as [-> | Hc]; [by vm_compute |]). by subst.
Qed.

Lemma appendInt_2 n :
  0 <= n <= 99 ->
  appendInt n 2 = String (digit (n / 10)) (String (digit (n mod 10)) EmptyString).
Proof.
  intros Hn. unfold appendInt.
  replace (n <? 0) with false by (symmetry; apply Z.ltb_ge; lia).
  rewrite Z.abs_eq by lia.
  replace (n <? 100) with true by (symmetry; apply Z.ltb_lt; lia).
  reflexivity.
Qed.

Lemma appendInt_4 n :
  0 <= n <= 9999 ->
  appendInt n 4 =
    String (digit (n / 100 / 10)) (String (digit (n / 100 mod 10))
      (String (digit (n mod 100 / 10)) (String (digit (n mod 100 mod 10))
        EmptyString))).
Proof.
  intros Hn. unfold appendInt.
  replace (n <? 0) with false by (symmetry; apply Z.ltb_ge; lia).
  rewrite Z.abs_eq by lia.
  replace (n <? 10000) with true by (symmetry; apply Z.ltb_lt; lia).
  reflexivity.
Qed.

Ltac divmod := Z.div_mod_to_equations; lia.

Lemma append_String c s r :
  String.append (String c s) r = String c (String.append s r).
Proof. reflexivity. Qed.

Lemma append_Empty r : String.append EmptyString r = r.
Proof. reflexivity. Qed.

Lemma append_Empty_r s : String.append s EmptyString = s.
Proof. induction s as [|c s IH]; [done|]. by rewrite append_String, IH. Qed.

Ltac push_append := rewrite ?append_String, ?append_Empty.

Lemma getnum_digits a b r fixed :
  0 <= a <= 9 -> 0 <= b <= 9 ->
  getnum (String (digit a) (String (digit b) r)) fixed = Some (a * 10 + b, r).
Proof.
  intros [Ha Ea]%digit_spec [Hb Eb]%digit_spec.
  unfold getnum. by rewrite Ha, Hb, Ea, Eb.
Qed.

Lemma getnum_appendInt n r fixed :
  0 <= n <= 99 -> getnum (String.append (appendInt n 2) r) fixed = Some (n, r).
Proof.
  intros Hn. rewrite appendInt_2 by done. push_append.
  rewrite getnum_digits by divmod. do 2 f_equal. divmod.
Qed.

Lemma getyear_appendInt y r :
  0 <= y <= 9999 -> getyear (String.append (appendInt y 4) r) = Some (y, r).
Proof.
  intros Hy. rewrite appendInt_4 by done. push_append.
  unfold getyear.
  destruct (digit_spec (y / 100 / 10)) as [-> ->]; [divmod|].
  destruct (digit_spec (y / 100 mod 10)) as [-> ->]; [divmod|].
  destruct (digit_spec (y mod 100 / 10)) as [-> ->]; [divmod|].
  destruct (digit_spec (y mod 100 mod 10)) as [-> ->]; [divmod|].
  simpl. do 2 f_equal. divmod.
Qed.

Lemma skip_sep c r :
  c <> sep_space -> skip (String c r) c = Some r.
Proof.
  intros Hc. unfold skip.
  destruct (Ascii.eqb_spec c sep_space) as [|_]; [done|].
  by rewrite Ascii.eqb_refl.
Qed.

Lemma skip_space_appendInt n r :
  0 <= n <= 99 ->
  skip (String sep_space (String.append (appendInt n 2) r)) sep_space
  = Some (String.append (appendInt n 2) r).
Proof.
  intros Hn. rewrite appendInt_2 by done. push_append.
  unfold skip. simpl.
  destruct (digit_spec (n / 10)) as [Hd _]; [divmod|].
  destruct (Ascii.eqb_spec (digit (n / 10)) sep_space) as [He|]; [|done].
  rewrite He in Hd. discriminate Hd.
Qed.

Lemma Parse_Format t : valid_instant t -> Parse (Format t) = Some t.
Proof.
  destruct t as [y m d h mi s n].
  intros [(Hy & Hm & Hd & Hh & Hmi & Hs) Hn]; simpl in *. subst n.
  assert (d <= 31).
  { unfold daysIn in Hd. repeat case_match; lia. }
  unfold Parse, Format; cbn [t_year t_month t_day t_hour t_minute t_second t_nsec].
  rewrite getyear_appendInt by lia. cbn [mbind option_bind].
  rewrite skip_sep by done. cbn [mbind option_bind].
  rewrite getnum_appendInt by lia. cbn [mbind option_bind].
  rewrite option_guard_True by lia.
  rewrite skip_sep by done. cbn [mbind option_bind].
  rewrite getnum_appendInt by lia. cbn [mbind option_bind].
  rewrite skip_space_appendInt by lia. cbn [mbind option_bind].
  rewrite getnum_appendInt by lia. cbn [mbind option_bind].
  rewrite option_guard_True by lia.
  rewrite skip_sep by done. cbn [mbind option_bind].
  rewrite getnum_appendInt by lia. cbn [mbind option_bind].
  rewrite option_guard_True by lia.
  rewrite skip_sep by done. cbn [mbind option_bind].
  rewrite <- (append_Empty_r (appendInt s 2)).
  rewrite getnum_appendInt by lia. cbn [mbind option_bind fraction].
  rewrite option_guard_True by lia.
  rewrite option_guard_True by done.
  rewrite option_guard_True by lia. done.
Qed.


Lemma plain_char_spec c :
  plain_char c = true ->
  unescaped c = true /\ Ascii.eqb c dquote = false
  /\ Ascii.eqb c newline = false.
Proof.
  destruct c as [[] [] [] [] [] [] [] []]; vm_compute; intros Hc;
    try discriminate Hc; done.
Qed.

Lemma string_forall_app p s1 s2 :
  string_forall p (String.append s1 s2)
  = string_forall p s1 && string_forall p s2.
Proof.
  induction s1 as [|c s1 IH]; [done|].
  rewrite append_String. simpl. by rewrite IH, andb_assoc.
Qed.

Lemma string_forall_String p c s :
  string_forall p (String c s) = p c && string_forall p s.
Proof. reflexivity. Qed.

Lemma cut_at_closing s :
  string_forall plain_char s = true ->
  cut_at dquote (String.append s (String dquote EmptyString))
  = Some (s, EmptyString).
Proof.
  induction s as [|c s IH]; [done|]. simpl.
  intros [Hc Hs]%andb_prop.
  apply plain_char_spec in Hc as (_ & -> & _). by rewrite IH.
Qed.

Lemma Unquote_Quote s :
  string_forall plain_char s = true -> Unquote (Quote s) = Some (inr s).
Proof.
  intros Hs.
  assert (Hesc : string_forall unescaped s = true).
  { induction s as [|c s IH]; [done|]. simpl in *.
    apply andb_prop in Hs as [Hc Hs].
    apply plain_char_spec in Hc as (-> & _). by rewrite IH. }
  assert (Hnl : string_forall (fun c => negb (Ascii.eqb c newline)) s = true).
  { induction s as [|c s IH]; [done|]. simpl in *.
    apply andb_prop in Hs as [Hc Hs].
    apply plain_char_spec in Hc as (_ & _ & ->).
    apply andb_prop in Hesc as [_ Hesc]. by rewrite IH. }
  unfold Unquote, Quote.
  replace (string_forall unescaped
             (String dquote (String.append s (String dquote EmptyString))))
    with true.
  2: { simpl. rewrite string_forall_app, Hesc. done. }
  cbn [negb].
  pose proof (cut_at_closing s Hs) as Hcut.
  destruct s as [|c s]; [done|].
  rewrite append_String in *. rewrite Hcut.
  replace (Ascii.eqb dquote squote) with false by done.
  replace (Ascii.eqb dquote bquote) with false by done.
  replace (Ascii.eqb dquote dquote) with true by done.
  by rewrite Hnl.
Qed.

Lemma plain_digit d : 0 <= d <= 9 -> plain_char (digit d) = true.
Proof. intros [Hd _]%digit_spec. unfold plain_char. by rewrite Hd. Qed.

Lemma plain_appendInt_2 n :
  0 <= n <= 99 -> string_forall plain_char (appendInt n 2) = true.
Proof.
  intros Hn. rewrite appendInt_2 by done. simpl.
  rewrite !plain_digit by divmod. done.
Qed.

Lemma plain_appendInt_4 n :
  0 <= n <= 9999 -> string_forall plain_char (appendInt n 4) = true.
Proof.
  intros Hn. rewrite appendInt_4 by done. simpl.
  rewrite !plain_digit by divmod. done.
Qed.

Lemma plain_Format t :
  valid_instant t -> string_forall plain_char (Format t) = true.
Proof.
  destruct t as [y m d h mi s n].
  intros [(Hy & Hm & Hd & Hh & Hmi & Hs) Hn]; simpl in *.
  assert (d <= 31).
  { unfold daysIn in Hd. repeat case_match; lia. }
  unfold Format; cbn [t_year t_month t_day t_hour t_minute t_second].
  repeat (rewrite string_forall_app
          || (rewrite plain_appendInt_4 by lia)
          || (rewrite plain_appendInt_2 by lia)
          || rewrite string_forall_String
          || rewrite andb_true_l).
  reflexivity.
Qed.

Lemma Unmarshal_Marshal t :
  valid_instant t -> UnmarshalJSON (MarshalJSON t) = Some (inr t).
Proof.
  intros Ht. unfold UnmarshalJSON, MarshalJSON.
  rewrite Unquote_Quote by by apply plain_Format.
  cbn [mbind option_bind]. by rewrite Parse_Format.
Qed.

Lemma appendInt_2_chars c0 c1 :
  isDigit c0 = true -> isDigit c1 = true ->
  0 <= digitVal c0 * 10 + digitVal c1 <= 99
  /\ appendInt (digitVal c0 * 10 + digitVal c1) 2
     = String c0 (String c1 EmptyString).
Proof.
  intros [H0 E0]%isDigit_inv [H1 E1]%isDigit_inv.
  split; [lia|]. rewrite appendInt_2 by lia.
  replace ((digitVal c0 * 10 + digitVal c1) / 10) with (digitVal c0) by divmod.
  replace ((digitVal c0 * 10 + digitVal c1) mod 10) with (digitVal c1) by divmod.
  by rewrite E0, E1.
Qed.

Lemma getnum_inv s fixed n r :
  getnum s fixed = Some (n, r) ->
  (0 <= n <= 99 /\ s = String.append (appendInt n 2) r)
  \/ (fixed = false /\ 0 <= n <= 9 /\ s = String (digit n) r).
Proof.
  unfold getnum. intros Hg.
  destruct s as [|c0 s]; [done|].
  destruct (isDigit c0) eqn:H0; [|done].
  assert (Hone : fixed = false -> 0 <= digitVal c0 <= 9
                 /\ String c0 s = String (digit (digitVal c0)) s).
  { intros _. apply isDigit_inv in H0 as [? ->]. done. }
  destruct s as [|c1 s].
  { destruct fixed; [done|]. simplify_eq. right.
    destruct (Hone eq_refl) as [? ?]. done. }
  destruct (isDigit c1) eqn:H1.
  - simplify_eq. left.
    destruct (appendInt_2_chars c0 c1 H0 H1) as [? ->]. done.
  - destruct fixed; [done|]. simplify_eq. right.
    destruct (Hone eq_refl) as [? ?]. done.
Qed.

Lemma getyear_inv s y r :
  getyear s = Some (y, r) ->
  0 <= y <= 9999 /\ s = String.append (appendInt y 4) r.
Proof.
  unfold getyear. intros Hg.
  destruct s as [|c0 [|c1 [|c2 [|c3 s]]]]; try done.
  destruct (isDigit c0) eqn:H0; [|done].
  destruct (isDigit c1) eqn:H1; [|done].
  destruct (isDigit c2) eqn:H2; [|done].
  destruct (isDigit c3) eqn:H3; [|done].
  cbn [andb] in Hg. simplify_eq.
  apply isDigit_inv in H0 as [? E0]. apply isDigit_inv in H1 as [? E1].
  apply isDigit_inv in H2 as [? E2]. apply isDigit_inv in H3 as [? E3].
  split; [lia|]. rewrite appendInt_4 by lia. push_append.
  set (y := ((digitVal c0 * 10 + digitVal c1) * 10 + digitVal c2) * 10
            + digitVal c3).
  replace (y / 100 / 10) with (digitVal c0) by (subst y; divmod).
  replace (y / 100 mod 10) with (digitVal c1) by (subst y; divmod).
  replace (y mod 100 / 10) with (digitVal c2) by (subst y; divmod).
  replace (y mod 100 mod 10) with (digitVal c3) by (subst y; divmod).
  by rewrite E0, E1, E2, E3.
Qed.

Lemma skip_inv s c r :
  c <> sep_space -> skip s c = Some r -> s = String c r.
Proof.
  intros Hc. unfold skip.
  destruct (Ascii.eqb_spec c sep_space) as [|_]; [done|].
  destruct s as [|c' s]; [done|].
  destruct (Ascii.eqb_spec c' c) as [->|]; [|done]. by intros [= ->].
Qed.

Lemma cutspace_spec s : exists n, s = String.append (spaces n) (cutspace s).
Proof.
  induction s as [|c s [n IH]]; [by exists 0%nat|]. simpl.
  destruct (Ascii.eqb_spec c sep_space) as [->|].
  - exists (S n). cbn [spaces]. rewrite append_String. by f_equal.
  - by exists 0%nat.
Qed.

Lemma skip_space_inv s r :
  skip s sep_space = Some r ->
  (s = EmptyString /\ r = EmptyString)
  \/ exists n, s = String sep_space (String.append (spaces n) r).
Proof.
  unfold skip. change (Ascii.eqb sep_space sep_space) with true. cbv iota.
  destruct s as [|c s]; [intros [= <-]; by left|].
  destruct (Ascii.eqb_spec c sep_space) as [->|]; [|done].
  intros [= <-]. right. simpl. change (Ascii.eqb sep_space sep_space) with true.
  cbv iota. destruct (cutspace_spec s) as [n Hn]. exists n. by rewrite <- Hn.
Qed.

Lemma span_digits_spec s ds r :
  span_digits s = (ds, r) ->
  s = String.append ds r /\ string_forall isDigit ds = true.
Proof.
  revert ds r. induction s as [|c s IH]; intros ds r; simpl.
  { by intros [= <- <-]. }
  destruct (isDigit c) eqn:Hc; [|by intros [= <- <-]].
  destruct (span_digits s) as [ds' r'] eqn:Hs. intros [= <- <-].
  destruct (IH _ _ eq_refl) as [-> Hd]. simpl. by rewrite Hc, Hd.
Qed.

Lemma span_digits_all ds :
  string_forall isDigit ds = true -> span_digits ds = (ds, EmptyString).
Proof.
  induction ds as [|c ds IH]; [done|]. simpl.
  intros [-> Hd]%andb_prop. by rewrite IH.
Qed.

Lemma fraction_inv s ns r :
  fraction s = (ns, r) ->
  exists f, s = String.append f r /\ fraction_text ns f.
Proof.
  unfold fraction. intros Hf.
  assert (Hnone : (0, s) = (ns, r) ->
                  exists f, s = String.append f r /\ fraction_text ns f).
  { intros [= <- <-]. exists EmptyString. split; [done|]. by left. }
  destruct s as [|c0 [|c1 s]]; [by apply Hnone..|].
  destruct (commaOrPeriod c0 && isDigit c1) eqn:Hc; [|by apply Hnone].
  apply andb_prop in Hc as [Hc0 Hc1].
  destruct (span_digits (String c1 s)) as [ds r'] eqn:Hs.
  injection Hf as <- <-.
  pose proof (span_digits_spec _ _ _ Hs) as [Hsplit Hall].
  exists (String c0 ds). split; [by rewrite append_String, <- Hsplit|].
  right. exists c0, ds. repeat split; [done| |done].
  simpl in Hs. rewrite Hc1 in Hs. destruct (span_digits s). by injection Hs as <- _.
Qed.

Ltac take_guard P H G :=
  destruct (decide P) as [G|G];
  [rewrite (option_guard_True P) in H by done
  |by rewrite (option_guard_False P) in H].

Lemma Parse_inv text t : Parse text = Some t -> accepted text t.
Proof.
  unfold Parse. intros HP.
  destruct (getyear text) as [[y v0]|] eqn:Hy; [|done].
  cbn [mbind option_bind] in HP.
  destruct (skip v0 sep_dash) as [v1|] eqn:Hs1; [|done].
  cbn [mbind option_bind] in HP.
  destruct (getnum v1 true) as [[m v2]|] eqn:Hm; [|done].
  cbn [mbind option_bind] in HP.
  take_guard (1 <= m <= 12) HP Gm.
  destruct (skip v2 sep_dash) as [v3|] eqn:Hs2; [|done].
  cbn [mbind option_bind] in HP.
  destruct (getnum v3 true) as [[d v4]|] eqn:Hd; [|done].
  cbn [mbind option_bind] in HP.
  destruct (skip v4 sep_space) as [v5|] eqn:Hs3; [|done].
  cbn [mbind option_bind] in HP.
  destruct (getnum v5 false) as [[h v6]|] eqn:Hh; [|done].
  cbn [mbind option_bind] in HP.
  take_guard (0 <= h < 24) HP Gh.
  destruct (skip v6 sep_colon) as [v7|] eqn:Hs4; [|done].
  cbn [mbind option_bind] in HP.
  destruct (getnum v7 true) as [[mi v8]|] eqn:Hmi; [|done].
  cbn [mbind option_bind] in HP.
  take_guard (0 <= mi < 60) HP Gmi.
  destruct (skip v8 sep_colon) as [v9|] eqn:Hs5; [|done].
  cbn [mbind option_bind] in HP.
  destruct (getnum v9 true) as [[s v10]|] eqn:Hs; [|done].
  cbn [mbind option_bind] in HP.
  take_guard (0 <= s < 60) HP Gs.
  destruct (fraction v10) as [ns v11] eqn:Hf.
  take_guard (v11 = EmptyString) HP Ge.
  take_guard (1 <= d <= daysIn m y) HP Gd.
  injection HP as <-. subst v11.
  apply getyear_inv in Hy as [Gy ->].
  apply skip_inv in Hs1 as ->; [|done].
  apply getnum_inv in Hm as [[_ ->]|[[=] _]].
  apply skip_inv in Hs2 as ->; [|done].
  apply getnum_inv in Hd as [[_ ->]|[[=] _]].
  apply skip_inv in Hs4 as ->; [|done].
  apply getnum_inv in Hmi as [[_ ->]|[[=] _]].
  apply skip_inv in Hs5 as ->; [|done].
  apply getnum_inv in Hs as [[_ ->]|[[=] _]].
  apply fraction_inv in Hf as (f & -> & Hfrac).
  rewrite append_Empty_r in Hh.
  apply skip_space_inv in Hs3 as [[-> ->]|[n ->]]; [done|].
  split; [unfold calendar; simpl; lia|]. simpl.
  apply getnum_inv in Hh as [[_ ->]|(_ & Hh9 & ->)].
  - exists n, (appendInt h 2), f. split; [by left|]. by split.
  - exists n, (String (digit h) EmptyString), f.
    split; [right; split; [lia|done]|]. by split.
Qed.

Lemma cutspace_spaces n s :
  cutspace s = s -> cutspace (String.append (spaces n) s) = s.
Proof.
  intros Hs. induction n as [|n IH]; [done|].
  cbn [spaces]. rewrite append_String. simpl.
  by change (Ascii.eqb sep_space sep_space) with true.
Qed.

Lemma cutspace_digit d s :
  0 <= d <= 9 -> cutspace (String (digit d) s) = String (digit d) s.
Proof.
  intros [Hd _]%digit_spec. simpl.
  destruct (Ascii.eqb_spec (digit d) sep_space) as [He|]; [|done].
  rewrite He in Hd. discriminate Hd.
Qed.

Lemma getnum_one_digit h r :
  0 <= h <= 9 ->
  getnum (String (digit h) (String sep_colon r)) false
  = Some (h, String sep_colon r).
Proof.
  intros [Hd Hv]%digit_spec. unfold getnum. rewrite Hd, Hv.
  by change (isDigit sep_colon) with false.
Qed.

Lemma fraction_text_parse ns f :
  fraction_text ns f -> fraction f = (ns, EmptyString).
Proof.
  intros [[-> ->]|(c & ds & -> & Hc & Hne & Hall & ->)]; [done|].
  destruct ds as [|c1 ds]; [done|]. unfold fraction.
  pose proof Hall as Hall'. simpl in Hall'.
  apply andb_prop in Hall' as [Hc1 _]. rewrite Hc, Hc1. cbn [andb].
  by rewrite span_digits_all.
Qed.

Lemma Parse_accepted text t : accepted text t -> Parse text = Some t.
Proof.
  destruct t as [y m d h mi s ns].
  intros [(Hy & Hm & Hd & Hh & Hmi & Hs) (n & ht & f & Hht & Hf & ->)].
  simpl in *.
  assert (d <= 31).
  { unfold daysIn in Hd. repeat case_match; lia. }
  unfold Parse.
  rewrite getyear_appendInt by lia. cbn [mbind option_bind].
  rewrite skip_sep by done. cbn [mbind option_bind].
  rewrite getnum_appendInt by lia. cbn [mbind option_bind].
  rewrite option_guard_True by lia.
  rewrite skip_sep by done. cbn [mbind option_bind].
  rewrite getnum_appendInt by lia. cbn [mbind option_bind].
  assert (Hskip : forall r,
    skip (String sep_space (String.append (spaces n)
            (String.append ht (String sep_colon r)))) sep_space
      ≫= (fun v => getnum v false)
    = Some (h, String sep_colon r)).
  { intros r. unfold skip. change (Ascii.eqb sep_space sep_space) with true.
    cbv iota. change (cutspace (String sep_space ?x)) with (cutspace x).
    destruct Hht as [->|[Hh9 ->]].
    - rewrite cutspace_spaces.
      + cbn [mbind option_bind]. by rewrite getnum_appendInt by lia.
      + rewrite appendInt_2 by lia. push_append.
        apply cutspace_digit. divmod.
    - push_append. rewrite cutspace_spaces by (apply cutspace_digit; lia).
      cbn [mbind option_bind]. apply getnum_one_digit. lia. }
  destruct (skip _ sep_space) as [v|] eqn:Hv.
  2: { specialize (Hskip (String.append (appendInt mi 2)
          (String sep_colon (String.append (appendInt s 2) f)))).
       by rewrite Hv in Hskip. }
  specialize (Hskip (String.append (appendInt mi 2)
          (String sep_colon (String.append (appendInt s 2) f)))).
  rewrite Hv in Hskip. cbn [mbind option_bind] in Hskip |- *.
  rewrite Hskip. cbn [mbind option_bind].
  rewrite option_guard_True by lia.
  rewrite skip_sep by done. cbn [mbind option_bind].
  rewrite getnum_appendInt by lia. cbn [mbind option_bind].
  rewrite option_guard_True by lia.
  rewrite skip_sep by done. cbn [mbind option_bind].
  rewrite getnum_appendInt by lia. cbn [mbind option_bind].
  rewrite option_guard_True by lia.
  rewrite (fraction_text_parse _ _ Hf).
  rewrite option_guard_True by done.
  rewrite option_guard_True by lia. done.
Qed.

(** C5 (as amended).  A valid Temporal Value survives encode then decode,
    at the text level and through MarshalJSON/UnmarshalJSON.  [decode]
    succeeds exactly on the accepted texts of an instant (its canonical
    rendering, possibly with more blanks after the date, a one-digit hour,
    or a fraction after the seconds); on every other text it fails, and its
    only failure is ErrInvalidTimeFormat. *)
Theorem C5_decode_encode :
  (forall t, valid_instant t ->
     decode (encode t) = inr t
     /\ UnmarshalJSON (MarshalJSON t) = Some (inr t))
  /\ (forall text t, decode text = inr t <-> accepted text t)
  /\ (forall text, (forall t, ~ accepted text t) ->
        decode text = inl ErrInvalidTimeFormat).
Proof.
  assert (Hiff : forall text t, decode text = inr t <-> accepted text t).
  { intros text t. unfold decode. split.
    - destruct (Parse text) as [t'|] eqn:HP; [|done].
      intros [= <-]. by apply Parse_inv.
    - intros Ha. by rewrite (Parse_accepted _ _ Ha). }
  split; [|split; [done|]].
  - intros t Ht. split; [|by apply Unmarshal_Marshal].
    unfold decode, encode. by rewrite Parse_Format.
  - intros text Hno. unfold decode.
    destruct (Parse text) as [t|] eqn:HP; [|done].
    destruct (Hno t). by apply Parse_inv.
Qed.

Lemma C5_decode_encode_witness :
  (decode (encode (mkTime 2024 2 29 23 59 59 0))
   = inr (mkTime 2024 2 29 23 59 59 0)
   /\ UnmarshalJSON (MarshalJSON (mkTime 2024 2 29 23 59 59 0))
      = Some (inr (mkTime 2024 2 29 23 59 59 0)))
  /\ decode "2024-01-01T05:04:05" = inl ErrInvalidTimeFormat.
Proof.
  split.
  - apply (proj1 C5_decode_encode (mkTime 2024 2 29 23 59 59 0)).
    vm_compute. repeat split; done.
  - apply (proj2 (proj2 C5_decode_encode) "2024-01-01T05:04:05").
    intros t Ha. apply (proj1 (proj2 C5_decode_encode)) in Ha.
    vm_compute in Ha. discriminate Ha.
Defined.

(** C5 as stated fails: three texts that do not match the canonical layout
    (a one-digit hour, trailing characters after the seconds, two blanks)
    are decoded, the first one also through UnmarshalJSON; encoding the
    decoded value does not give the text back, and the second value is not
    even a second-precision instant. *)
Lemma C5_decode_accepts_noncanonical :
  canonical_layout "2024-01-01 5:04:05" = false
  /\ decode "2024-01-01 5:04:05" = inr (mkTime 2024 1 1 5 4 5 0)
  /\ UnmarshalJSON (Quote "2024-01-01 5:04:05")
     = Some (inr (mkTime 2024 1 1 5 4 5 0))
  /\ encode (mkTime 2024 1 1 5 4 5 0) <> "2024-01-01 5:04:05"
  /\ canonical_layout "2024-01-01 05:04:05.5" = false
  /\ decode "2024-01-01 05:04:05.5" = inr (mkTime 2024 1 1 5 4 5 500000000)
  /\ canonical_layout "2024-01-01  05:04:05" = false
  /\ decode "2024-01-01  05:04:05" = inr (mkTime 2024 1 1 5 4 5 0).
Proof. repeat split; by vm_compute. Qed.

(** A backend that fails after its answer lets [Scan] return an error,
    whatever it has written before. *)
Lemma QueryRow_Aborts {A} d after msg c stmt
    (run : DB -> (string + list A) * DB) db :
  exists scanned e db',
    QueryRow d (Aborts after msg c) stmt run db
    = Returns (scanned, Some e, db').
Proof.
  unfold QueryRow. destruct (expired d after); [eauto|].
  destruct (run _) as [[m|rows] db2]; eauto.
Qed.

(** The goal is an implication from a result the call cannot have. *)
Ltac refuted :=
  repeat match goal with
         | |- context [if ?b then _ else _] => destruct b
         end;
  cbn; repeat case_match; done.

Ltac scan_aborts :=
  match goal with
  | |- context [QueryRow ?d (Aborts ?a ?m ?c) ?stmt ?run ?db] =>
      let scanned := fresh "scanned" in
      let e := fresh "e" in
      let db1 := fresh "db" in
      destruct (QueryRow_Aborts d a m c stmt run db)
        as (scanned & e & db1 & ->)
  end.

(** ** The store *)

Section store.
Context `{Engine}.

Lemma tasks_record_statement stmt db :
  tasks (record_statement stmt db) = tasks db.
Proof. done. Qed.

Lemma with_tasks_same db : with_tasks db (tasks db) = db.
Proof. by destruct db. Qed.

Lemma with_categories_same db : with_categories db (categories db) = db.
Proof. by destruct db. Qed.

Lemma expired_in_time after :
  after < 3 * Second -> expired WithTimeout3s after = false.
Proof. intros Ha. unfold expired, WithTimeout3s. apply Z.leb_gt. lia. Qed.

Lemma fmap_unhit {A} (hit : A -> bool) (f : A -> A) rows :
  Forall (fun r => hit r = false) rows ->
  (fun r => if hit r then f r else r) <$> rows = rows.
Proof.
  induction 1 as [|r rows Hr _ IH]; [done|].
  rewrite fmap_cons, Hr. by f_equal.
Qed.

Lemma update_sql_none task db :
  addressed task db = [] ->
  TaskModel.update_sql (task_Title task) (task_Description task)
    (task_Priority task) (task_Status task) (task_Category task)
    (task_DueDate task) (task_UserID task) (task_ID task)
    (task_Version task) db
  = (inr [], db).
Proof.
  unfold addressed, TaskModel.update_sql. intros Hnone.
  assert (Hall : Forall (fun r => TaskModel.update_hits (task_ID task)
                                    (task_Version task) r = false) (tasks db)).
  { apply Forall_forall. intros r Hr.
    destruct (TaskModel.update_hits _ _ r) eqn:Hhit; [|done].
    assert (r ∈ filter (fun r => TaskModel.update_hits (task_ID task)
                                   (task_Version task) r) (tasks db)) as Hin.
    { apply list_elem_of_filter. split; [by rewrite Hhit|done]. }
    rewrite Hnone in Hin. by apply elem_of_nil in Hin. }
  rewrite Hnone.
  replace (existsb _ (tasks db)) with false.
  2: { symmetry. apply not_true_is_false. intros (r & Hr & Hb)%existsb_exists.
       rewrite Forall_forall in Hall. apply list_elem_of_In in Hr.
       by rewrite (Hall r Hr) in Hb. }
  f_equal. rewrite fmap_unhit by done. apply with_tasks_same.
Qed.

Lemma update_hits_spec id version r :
  TaskModel.update_hits id version r = true ->
  task_ID r = id /\ task_Version r = version.
Proof. unfold TaskModel.update_hits. intros [? ?]%andb_prop. lia. Qed.

(** The four ways [Update] ends: a backend error before a row is scanned,
    zero rows addressed, the conditional write done, or a backend error
    after the returned version has been scanned. *)
Lemma Update_cases link task db :
  let db1 := record_statement (update_statement task) db in
  let written :=
    with_tasks db1
      ((fun r =>
          if TaskModel.update_hits (task_ID task) (task_Version task) r
          then TaskModel.updated_row (task_Title task)
                 (task_Description task) (task_Priority task)
                 (task_Status task) (task_Category task)
                 (task_DueDate task) (task_UserID task) r
          else r) <$> tasks db) in
  (exists e, is_backend_error e = true
     /\ TaskModel.Update link task db = Returns (Some e, task, db1))
  \/ (in_time link /\ addressed task db = []
      /\ TaskModel.Update link task db
         = Returns (Some ErrEditConflict, task, db1))
  \/ (in_time link /\ addressed task db <> []
      /\ task_Version task + 1 <= max_int32
      /\ TaskModel.Update link task db
         = Returns (None, set_Version task (task_Version task + 1), written))
  \/ (exists after msg committed,
        link = Aborts after msg committed /\ after < 3 * Second
        /\ addressed task db <> []
        /\ task_Version task + 1 <= max_int32
        /\ TaskModel.Update link task db
           = Returns (Some (DriverError msg),
                      set_Version task (task_Version task + 1),
                      if committed then written else db1)).
Proof.
  intros db1 written. subst written.
  unfold TaskModel.Update, QueryRow, roundtrip.
  fold (update_statement task). fold db1.
  destruct link as [after| |msg|after msg committed].
  2: { left. by exists DeadlineExceeded. }
  2: { left. by exists (DriverError msg). }
  all: destruct (expired WithTimeout3s after) eqn:Hexp;
    [left; by exists DeadlineExceeded|].
  all: assert (after < 3 * Second) as Hafter
    by (unfold expired, WithTimeout3s in Hexp; by apply Z.leb_gt in Hexp).
  all: destruct (addressed task db) as [|r rest] eqn:Haddr.
  - right; left. rewrite update_sql_none by done.
    split; [by exists after|done].
  - unfold TaskModel.update_sql. change (tasks db1) with (tasks db).
    assert (r ∈ addressed task db) as Hr by (rewrite Haddr; left).
    apply list_elem_of_filter in Hr as [Hhit Hr].
    apply Is_true_true in Hhit.
    pose proof (update_hits_spec _ _ _ Hhit) as [Hid Hver].
    destruct (existsb _ (tasks db)) eqn:Hover.
    { left. by exists (DriverError "integer out of range"). }
    right; right; left. split; [by exists after|]. split; [done|].
    assert (task_Version task + 1 <= max_int32) as Hfit.
    { destruct (decide (task_Version task + 1 <= max_int32)) as [|Hbig];
        [done|].
      apply not_true_iff_false in Hover. destruct Hover.
      apply existsb_exists. exists r. split; [by apply list_elem_of_In|].
      rewrite Hhit, Hver. apply Z.ltb_lt. lia. }
    split; [done|].
    unfold addressed in Haddr. rewrite Haddr, fmap_cons, Hver. done.
  - left. exists (DriverError msg). split; [done|].
    rewrite update_sql_none by done. cbn [head]. by destruct committed.
  - unfold TaskModel.update_sql. change (tasks db1) with (tasks db).
    assert (r ∈ addressed task db) as Hr by (rewrite Haddr; left).
    apply list_elem_of_filter in Hr as [Hhit Hr].
    apply Is_true_true in Hhit.
    pose proof (update_hits_spec _ _ _ Hhit) as [Hid Hver].
    destruct (existsb _ (tasks db)) eqn:Hover.
    { left. by exists (DriverError "integer out of range"). }
    right; right; right. exists after, msg, committed.
    split; [done|]. split; [done|]. split; [done|].
    assert (task_Version task + 1 <= max_int32) as Hfit.
    { destruct (decide (task_Version task + 1 <= max_int32)) as [|Hbig];
        [done|].
      apply not_true_iff_false in Hover. destruct Hover.
      apply existsb_exists. exists r. split; [by apply list_elem_of_In|].
      rewrite Hhit, Hver. apply Z.ltb_lt. lia. }
    split; [done|].
    unfold addressed in Haddr. rewrite Haddr, fmap_cons, Hver. done.
Qed.

(** The conditional write goes through when a row has the entity's id
    and version, the backend answers in time and the new version fits the
    column. *)
Lemma Update_succeeds link task db row :
  in_time link -> row ∈ tasks db ->
  task_ID row = task_ID task -> task_Version row = task_Version task ->
  task_Version task < max_int32 ->
  TaskModel.Update link task db
  = Returns (None, set_Version task (task_Version task + 1),
             with_tasks (record_statement (update_statement task) db)
               ((fun r =>
                   if TaskModel.update_hits (task_ID task) (task_Version task) r
                   then TaskModel.updated_row (task_Title task)
                          (task_Description task) (task_Priority task)
                          (task_Status task) (task_Category task)
                          (task_DueDate task) (task_UserID task) r
                   else r) <$> tasks db)).
Proof.
  intros (after & -> & Hafter) Hrow Hid Hver Hfit.
  assert (row ∈ addressed task db) as Hin.
  { apply list_elem_of_filter. split; [|done]. apply Is_true_true.
    unfold TaskModel.update_hits. by rewrite Hid, Hver, !Z.eqb_refl. }
  unfold TaskModel.Update, QueryRow, roundtrip, TaskModel.update_sql.
  rewrite expired_in_time by done. rewrite tasks_record_statement.
  replace (existsb _ (tasks db)) with false.
  2: { symmetry. apply not_true_is_false.
       intros (r & _ & Hr)%existsb_exists.
       apply andb_prop in Hr as [[_ Hv]%update_hits_spec Hbig].
       apply Z.ltb_lt in Hbig. lia. }
  fold (addressed task db).
  destruct (addressed task db) as [|r rest] eqn:Haddr.
  { by apply elem_of_nil in Hin. }
  assert (r ∈ addressed task db) as Hr by (rewrite Haddr; left).
  apply list_elem_of_filter in Hr as [Hhit _].
  apply Is_true_true, update_hits_spec in Hhit as [_ Hv].
  rewrite fmap_cons, Hv. done.
Qed.

Lemma Updated_version n task0 taskN :
  Updated n task0 taskN -> task_Version taskN = task_Version task0 + Z.of_nat n.
Proof.
  induction 1 as [task|n task0 task1 edited task2 link db db' _ IH Hv Hu].
  { lia. }
  destruct (Update_cases link edited db)
    as [(e & _ & He)|[(_ & _ & He)|[(_ & _ & _ & He)
        |(after & msg & c & _ & _ & _ & _ & He)]]];
    rewrite He in Hu; [done..| |done].
  injection Hu as <- _. simpl. lia.
Qed.

(** C1.  [Update] sends one statement, the conditional write, whatever the
    backend does, and returns.  When the backend answers in time and no
    row has both the entity's id and its version, the result is
    ErrEditConflict and nothing but the journal has changed.  When the
    backend answers in time and a row has the entity's id and version (and
    the next version fits the column), the call succeeds: every such row
    gets the entity's mutable fields and its version plus one, every other
    row stays as it is, and the entity holds the version plus one.  A
    successful call has done exactly that and left the stored version in
    the entity; [n] successful calls in sequence leave the initial version
    plus [n]. *)
Theorem C1_update_is_compare_and_swap :
  (forall link task db, exists err task' db',
      TaskModel.Update link task db = Returns (err, task', db')
      /\ journal db' = journal db ++ [update_statement task])
  /\ (forall link task db, in_time link -> addressed task db = [] ->
        TaskModel.Update link task db
        = Returns (Some ErrEditConflict, task,
                   record_statement (update_statement task) db))
  /\ (forall link task db row,
        in_time link -> row ∈ tasks db ->
        task_ID row = task_ID task -> task_Version row = task_Version task ->
        task_Version task < max_int32 ->
        TaskModel.Update link task db
        = Returns (None, set_Version task (task_Version task + 1),
                   with_tasks (record_statement (update_statement task) db)
                     ((fun r =>
                         if decide (task_ID r = task_ID task
                                    /\ task_Version r = task_Version task)
                         then mkTask (task_ID r) (task_CreatedAt r)
                                (task_Title task) (task_Description task)
                                (timestamp0 (task_DueDate task))
                                (task_Priority task) (task_Status task)
                                (task_Category task) (task_UserID task)
                                (task_Version task + 1)
                         else r) <$> tasks db)))
  /\ (forall link task db task' db',
        TaskModel.Update link task db = Returns (None, task', db') ->
        task_Version task' = task_Version task + 1
        /\ tasks db'
           = (fun r =>
                if TaskModel.update_hits (task_ID task) (task_Version task) r
                then mkTask (task_ID r) (task_CreatedAt r) (task_Title task)
                       (task_Description task)
                       (timestamp0 (task_DueDate task)) (task_Priority task)
                       (task_Status task) (task_Category task)
                       (task_UserID task) (task_Version r + 1)
                else r) <$> tasks db
        /\ exists row, row ∈ tasks db'
             /\ task_ID row = task_ID task
             /\ task_Version row = task_Version task')
  /\ (forall n task0 taskN, Updated n task0 taskN ->
        task_Version taskN = task_Version task0 + Z.of_nat n).
Proof.
  split; [|split; [|split; [|split]]].
  - intros link task db.
    destruct (Update_cases link task db)
      as [(e & _ & He)|[(_ & _ & He)|[(_ & _ & _ & He)
          |(after & msg & c & _ & _ & _ & _ & He)]]];
      rewrite He; eexists _, _, _; (split; [done|]); try done.
    by destruct c.
  - intros link task db (after & -> & Hafter) Hnone.
    unfold TaskModel.Update, QueryRow, roundtrip.
    rewrite expired_in_time by done.
    fold (update_statement task).
    by rewrite update_sql_none.
  - intros link task db row Ht Hrow Hid Hver Hfit.
    rewrite (Update_succeeds link task db row) by done.
    do 3 f_equal. apply list_fmap_ext. intros i r _.
    unfold TaskModel.update_hits, TaskModel.updated_row.
    destruct (Z.eqb_spec (task_ID r) (task_ID task)) as [Hi|Hi];
      destruct (Z.eqb_spec (task_Version r) (task_Version task)) as [Hv|Hv];
      cbn [andb].
    + rewrite decide_True by done. by rewrite Hv.
    + rewrite decide_False; [done|]. by intros [_ ?].
    + rewrite decide_False; [done|]. by intros [? _].
    + rewrite decide_False; [done|]. by intros [? _].
  - intros link task db task' db' Hu.
    destruct (Update_cases link task db)
      as [(e & _ & He)|[(_ & _ & He)|[(_ & Hsome & _ & He)
          |(after & msg & c & _ & _ & _ & _ & He)]]];
      rewrite He in Hu; [done..| |done]. injection Hu as <- <-.
    split; [done|]. split; [done|].
    destruct (addressed task db) as [|r rest] eqn:Haddr; [done|].
    assert (r ∈ addressed task db) as Hr by (rewrite Haddr; left).
    apply list_elem_of_filter in Hr as [Hhit Hr].
    apply Is_true_true in Hhit.
    pose proof (update_hits_spec _ _ _ Hhit) as [Hid Hver].
    eexists. split.
    + cbn [tasks with_tasks]. apply list_elem_of_fmap. exists r. by rewrite Hhit.
    + simpl. lia.
  - intros n task0 taskN. apply Updated_version.
Qed.

(** C10 (as amended).  However [Update] ends, the entity it leaves differs
    from the caller's in the version at most, which is the caller's or
    the caller's plus one.  The result nil comes with the version advanced.
    An error is ErrEditConflict or a backend error; with ErrEditConflict,
    and with every backend error that arises before a row is scanned (the
    backend refuses, does not answer in time, or the statement fails) the
    entity is as the caller passed it.  When the backend fails after the
    returned row has been scanned, [Update] returns that backend error
    and the entity holds the advanced version all the same. *)
Theorem C10_update_changes_the_version_only :
  (forall link task db err task' db',
      TaskModel.Update link task db = Returns (err, task', db') ->
      task' = set_Version task (task_Version task')
      /\ (task_Version task' = task_Version task
          \/ task_Version task' = task_Version task + 1)
      /\ (err = None -> task_Version task' = task_Version task + 1)
      /\ (forall e, err = Some e ->
            e = ErrEditConflict \/ is_backend_error e = true)
      /\ (err = Some ErrEditConflict -> task' = task)
      /\ ((forall after msg committed, link <> Aborts after msg committed) ->
          err <> None -> task' = task))
  /\ (forall after msg committed task db row,
        after < 3 * Second -> row ∈ tasks db ->
        task_ID row = task_ID task -> task_Version row = task_Version task ->
        task_Version task < max_int32 ->
        exists db',
          TaskModel.Update (Aborts after msg committed) task db
          = Returns (Some (DriverError msg),
                     set_Version task (task_Version task + 1), db')
          /\ (committed = false ->
              db' = record_statement (update_statement task) db)).
Proof.
  split.
  - intros link task db err task' db' Hu.
    assert (task = set_Version task (task_Version task)) as Hsame
      by (by destruct task).
    destruct (Update_cases link task db)
      as [(e & Hb & He)|[(_ & _ & He)|[(_ & _ & _ & He)
          |(after & msg & c & -> & _ & _ & _ & He)]]];
      rewrite He in Hu; injection Hu as <- <- _.
    + split; [done|]. split; [by left|]. split; [done|].
      split; [intros e' [= <-]; by right|]. done.
    + split; [done|]. split; [by left|]. split; [done|].
      split; [intros e' [= <-]; by left|]. done.
    + split; [done|]. split; [by right|]. split; [done|].
      split; [done|]. split; [done|]. by intros _ Hne.
    + split; [done|]. split; [by right|]. split; [done|].
      split; [intros e' [= <-]; by right|]. split; [done|].
      intros Hno _. by destruct (Hno after msg c).
  - intros after msg committed task db row Hafter Hrow Hid Hver Hfit.
    assert (row ∈ addressed task db) as Hin.
    { apply list_elem_of_filter. split; [|done]. apply Is_true_true.
      unfold TaskModel.update_hits. by rewrite Hid, Hver, !Z.eqb_refl. }
    unfold TaskModel.Update, QueryRow, TaskModel.update_sql.
    rewrite expired_in_time by done. rewrite tasks_record_statement.
    replace (existsb _ (tasks db)) with false.
    2: { symmetry. apply not_true_is_false.
         intros (r & _ & Hr)%existsb_exists.
         apply andb_prop in Hr as [[_ Hv]%update_hits_spec Hbig].
         apply Z.ltb_lt in Hbig. lia. }
    fold (addressed task db).
    destruct (addressed task db) as [|r rest] eqn:Haddr.
    { by apply elem_of_nil in Hin. }
    assert (r ∈ addressed task db) as Hr by (rewrite Haddr; left).
    apply list_elem_of_filter in Hr as [Hhit _].
    apply Is_true_true, update_hits_spec in Hhit as [_ Hv].
    rewrite fmap_cons. cbn [head]. rewrite Hv.
    eexists. split; [reflexivity|]. by intros ->.
Qed.

(** *** Insert, then get *)

Lemma filter_all {A} (P : A -> Prop) `{forall x, Decision (P x)} rows :
  Forall P rows -> filter P rows = rows.
Proof.
  induction 1 as [|r rows Hr _ IH]; [done|].
  rewrite filter_cons_True by done. by f_equal.
Qed.

Lemma filter_none {A} (P : A -> Prop) `{forall x, Decision (P x)} rows :
  Forall (fun x => ~ P x) rows -> filter P rows = [].
Proof.
  induction 1 as [|r rows Hr _ IH]; [done|].
  by rewrite filter_cons_False.
Qed.

Lemma filter_has_id_fresh id (row : Task) rows :
  existsb (TaskModel.has_id id) rows = false ->
  task_ID row = id ->
  filter (fun r => TaskModel.has_id id r) (rows ++ [row]) = [row].
Proof.
  intros Hfresh Hid. rewrite filter_app.
  replace (filter _ rows) with (@nil Task).
  - rewrite filter_cons_True; [done|].
    unfold TaskModel.has_id. apply Is_true_true, Z.eqb_eq, Hid.
  - symmetry. apply filter_none, Forall_forall. intros r Hr Hhit.
    apply not_true_iff_false in Hfresh. destruct Hfresh.
    apply existsb_exists. exists r.
    split; [by apply list_elem_of_In|by apply Is_true_true].
Qed.

(** The entity [Insert] leaves behind on success, and the row it stored. *)
Lemma Insert_success link task db task' db' :
  TaskModel.Insert link task db = Returns (None, task', db') ->
  task' = set_generated task (tasks_id_seq db) (timestamp0 (clock db))
            (tasks_user_id_seq db) 1
  /\ existsb (TaskModel.has_id (tasks_id_seq db)) (tasks db) = false
  /\ tasks db'
     = tasks db ++ [mkTask (tasks_id_seq db) (timestamp0 (clock db))
                      (task_Title task) (task_Description task)
                      (timestamp0 (task_DueDate task)) (task_Priority task)
                      (task_Status task) (task_Category task)
                      (tasks_user_id_seq db) 1].
Proof.
  unfold TaskModel.Insert, QueryRow, roundtrip, TaskModel.insert_sql.
  destruct link as [after| |msg|after msg c];
    [|done..|by refuted].
  cbn [expired NoContext].
  rewrite !tasks_record_statement.
  change (tasks_id_seq (record_statement ?s db)) with (tasks_id_seq db).
  change (tasks_user_id_seq (record_statement ?s db))
    with (tasks_user_id_seq db).
  change (clock (record_statement ?s db)) with (clock db).
  destruct (_ || _); [done|].
  destruct (existsb _ (tasks db)) eqn:Hfresh; [done|].
  by intros [= <- <-].
Qed.

Lemma Insert_succeeds after task db :
  tasks_id_seq db <= max_int64 -> tasks_user_id_seq db <= max_int64 ->
  existsb (TaskModel.has_id (tasks_id_seq db)) (tasks db) = false ->
  exists db',
    TaskModel.Insert (Responds after) task db
    = Returns (None,
               set_generated task (tasks_id_seq db) (timestamp0 (clock db))
                 (tasks_user_id_seq db) 1, db').
Proof.
  intros Hid Huid Hfresh.
  unfold TaskModel.Insert, QueryRow, roundtrip, TaskModel.insert_sql.
  cbn [expired NoContext].
  rewrite !tasks_record_statement.
  change (tasks_id_seq (record_statement ?s db)) with (tasks_id_seq db).
  change (tasks_user_id_seq (record_statement ?s db))
    with (tasks_user_id_seq db).
  replace (max_int64 <? tasks_id_seq db) with false
    by (symmetry; apply Z.ltb_ge; lia).
  replace (max_int64 <? tasks_user_id_seq db) with false
    by (symmetry; apply Z.ltb_ge; lia).
  rewrite Hfresh. cbn [orb]. eauto.
Qed.

(** C2 (as amended).  After a successful [Insert] of a task whose due date
    is a valid Temporal Value, the entity holds the caller's title,
    description, due date, priority, status and category and four
    server-assigned fields: the next id, the creation time, the next value
    of the [user_id] sequence (whatever user id the caller supplied) and
    version 1; [Get] of the assigned id returns exactly that entity.
    [Insert] succeeds whenever the backend answers and the sequences can
    still deliver a fresh id. *)
Theorem C2_insert_then_get :
  (forall link after task db task' db',
      valid_instant (task_DueDate task) ->
      1 <= tasks_id_seq db ->
      after < 3 * Second ->
      TaskModel.Insert link task db = Returns (None, task', db') ->
      task' = mkTask (tasks_id_seq db) (timestamp0 (clock db))
                (task_Title task) (task_Description task)
                (task_DueDate task) (task_Priority task) (task_Status task)
                (task_Category task) (tasks_user_id_seq db) 1
      /\ TaskModel.Get (Responds after) (task_ID task') db'
         = Returns (inr task',
                    record_statement (SelectTask (task_ID task')) db'))
  /\ (forall after task db,
        tasks_id_seq db <= max_int64 -> tasks_user_id_seq db <= max_int64 ->
        existsb (TaskModel.has_id (tasks_id_seq db)) (tasks db) = false ->
        exists task' db',
          TaskModel.Insert (Responds after) task db
          = Returns (None, task', db')).
Proof.
  split.
  - intros link after task db task' db' Hdue Hseq Hafter Hins.
    apply Insert_success in Hins as (-> & Hfresh & Hrows).
    split; [done|].
    unfold TaskModel.Get, QueryRow, roundtrip, TaskModel.select_sql.
    cbn [set_generated task_ID].
    replace (tasks_id_seq db <? 1) with false
      by (symmetry; apply Z.ltb_ge; lia).
    rewrite expired_in_time by done.
    rewrite tasks_record_statement, Hrows.
    rewrite filter_has_id_fresh by done.
    by rewrite (timestamp0_instant _ Hdue).
  - intros after task db Hid Huid Hfresh.
    destruct (Insert_succeeds after task db Hid Huid Hfresh) as [db' Hins].
    eauto.
Qed.

(** *** Get and delete *)

(** C8.  [Get] and [Delete] of an id below 1 answer ErrRecordNotFound and
    leave the pool, journal included, as it was: nothing is sent.  A
    [Delete] the backend executes without finding a row of that id answers
    ErrRecordNotFound too.  A [Delete] of an id some row has succeeds and
    removes every row of that id, whatever its version: the statement
    carries the id alone. *)
Theorem C8_not_found :
  (forall link id db, id < 1 ->
      TaskModel.Get link id db = Returns (inl ErrRecordNotFound, db)
      /\ TaskModel.Delete link id db = Returns (Some ErrRecordNotFound, db)
      /\ CategoryModel.Get link id db = Returns (inl ErrRecordNotFound, db)
      /\ CategoryModel.Delete link id db
         = Returns (Some ErrRecordNotFound, db))
  /\ (forall link id db, in_time link -> 1 <= id ->
        (Forall (fun r => task_ID r <> id) (tasks db) ->
         TaskModel.Delete link id db
         = Returns (Some ErrRecordNotFound,
                    record_statement (DeleteTask id) db))
        /\ (Forall (fun r => cat_ID r <> id) (categories db) ->
            CategoryModel.Delete link id db
            = Returns (Some ErrRecordNotFound,
                       record_statement (DeleteCategory id) db)))
  /\ (forall link id db row, in_time link -> 1 <= id ->
        row ∈ tasks db -> task_ID row = id ->
        TaskModel.Delete link id db
        = Returns (None,
                   with_tasks (record_statement (DeleteTask id) db)
                     (filter (fun r => task_ID r <> id) (tasks db)))).
Proof.
  split; [|split].
  - intros link id db Hid.
    unfold TaskModel.Get, TaskModel.Delete, CategoryModel.Get,
      CategoryModel.Delete.
    by replace (id <? 1) with true by (symmetry; apply Z.ltb_lt; lia).
  - intros link id db (after & -> & Hafter) Hid. split; intros Hnone.
    + unfold TaskModel.Delete, roundtrip, TaskModel.delete_sql.
      replace (id <? 1) with false by (symmetry; apply Z.ltb_ge; lia).
      rewrite expired_in_time by done. rewrite tasks_record_statement.
      rewrite filter_all.
      2: { eapply Forall_impl; [exact Hnone|]. intros r Hr.
           unfold TaskModel.has_id. apply Is_true_true, negb_true_iff.
           by apply Z.eqb_neq. }
      rewrite Z.sub_diag. cbn [Z.eqb].
      by rewrite <- (tasks_record_statement (DeleteTask id) db),
        with_tasks_same.
    + unfold CategoryModel.Delete, roundtrip, CategoryModel.delete_sql.
      replace (id <? 1) with false by (symmetry; apply Z.ltb_ge; lia).
      rewrite expired_in_time by done.
      change (categories (record_statement ?s db)) with (categories db).
      rewrite filter_all.
      2: { eapply Forall_impl; [exact Hnone|]. intros r Hr.
           unfold CategoryModel.has_id. apply Is_true_true, negb_true_iff.
           by apply Z.eqb_neq. }
      rewrite Z.sub_diag. cbn [Z.eqb].
      change (categories db)
        with (categories (record_statement (DeleteCategory id) db)) at 1.
      by rewrite with_categories_same.
  - intros link id db row (after & -> & Hafter) Hid Hrow Hrid.
    unfold TaskModel.Delete, roundtrip, TaskModel.delete_sql.
    replace (id <? 1) with false by (symmetry; apply Z.ltb_ge; lia).
    rewrite expired_in_time by done. rewrite tasks_record_statement.
    assert (filter (fun r => negb (TaskModel.has_id id r)) (tasks db)
            = filter (fun r => task_ID r <> id) (tasks db)) as ->.
    { apply list_filter_iff. intros r. unfold TaskModel.has_id.
      rewrite negb_True, Is_true_true, Z.eqb_eq. done. }
    pose proof (length_filter_lt (fun r => task_ID r <> id) (tasks db) row
                  Hrow) as Hlt.
    replace (_ - _ =? 0) with false; [done|].
    symmetry. apply Z.eqb_neq. specialize (Hlt ltac:(tauto)). lia.
Qed.

(** *** Category update *)

(** C9.  [CategoryModel.Update] sends one unconditional statement and
    returns; its result is nil or a backend error, never
    ErrRecordNotFound or ErrEditConflict.  When the backend answers in
    time the result is nil, also when no row has the id, in which case
    the tables are as before. *)
Theorem C9_category_update_unconditional :
  (forall link category db, exists r db',
      CategoryModel.Update link category db = Returns (r, db')
      /\ journal db'
         = journal db ++ [UpdateCategory (cat_Name category)
                            (cat_Description category) (cat_ID category)]
      /\ r <> Some ErrRecordNotFound /\ r <> Some ErrEditConflict
      /\ (forall e, r = Some e -> is_backend_error e = true))
  /\ (forall link category db, in_time link ->
        exists db',
          CategoryModel.Update link category db = Returns (None, db')
          /\ (Forall (fun r => cat_ID r <> cat_ID category) (categories db) ->
              db' = record_statement
                      (UpdateCategory (cat_Name category)
                         (cat_Description category) (cat_ID category)) db)).
Proof.
  split.
  - intros link category db.
    unfold CategoryModel.Update, roundtrip, CategoryModel.update_sql.
    destruct link as [after| |msg|after msg c].
    + destruct (expired _ _); eexists _, _; (split; [done|]);
        repeat split; try done; by intros e [= <-].
    + eexists _, _; (split; [done|]); repeat split; try done;
        by intros e [= <-].
    + eexists _, _; (split; [done|]); repeat split; try done;
        by intros e [= <-].
    + destruct (expired _ _); [|destruct c]; eexists _, _; (split; [done|]);
        repeat split; try done; by intros e [= <-].
  - intros link category db (after & -> & Hafter).
    unfold CategoryModel.Update, roundtrip, CategoryModel.update_sql.
    rewrite expired_in_time by done.
    eexists. split; [done|]. intros Hnone.
    change (categories (record_statement ?s db)) with (categories db).
    rewrite fmap_unhit.
    2: { eapply Forall_impl; [exact Hnone|]. intros r Hr.
         unfold CategoryModel.has_id. by apply Z.eqb_neq. }
    change (categories db)
      with (categories (record_statement
              (UpdateCategory (cat_Name category) (cat_Description category)
                 (cat_ID category)) db)).
    apply with_categories_same.
Qed.

(** *** Deadlines *)

(** C7 fails for [Insert].  Both [Insert] methods call [QueryRow] without
    a context: when the backend never answers they never return, and an
    answer that takes longer than three seconds is waited for.  [Get],
    [Update] and [Delete] give up with DeadlineExceeded in both
    situations. *)
Theorem C7_insert_waits_forever :
  (forall task db, TaskModel.Insert Hangs task db = Blocks)
  /\ (forall category db, CategoryModel.Insert Hangs category db = Blocks)
  /\ (forall task db,
        TaskModel.Insert (Responds (10 * Second)) task db
        <> Returns (Some DeadlineExceeded, task,
                    record_statement
                      (InsertTask (task_Title task) (task_Description task)
                         (task_Priority task) (task_Status task)
                         (task_Category task) (task_DueDate task)) db))
  /\ (forall task db,
        TaskModel.Get Hangs 1 db
        = Returns (inl DeadlineExceeded, record_statement (SelectTask 1) db)
        /\ TaskModel.Get (Responds (10 * Second)) 1 db
           = Returns (inl DeadlineExceeded,
                      record_statement (SelectTask 1) db)
        /\ TaskModel.Update Hangs task db
           = Returns (Some DeadlineExceeded, task,
                      record_statement (update_statement task) db)
        /\ TaskModel.Delete Hangs 1 db
           = Returns (Some DeadlineExceeded,
                      record_statement (DeleteTask 1) db)).
Proof.
  repeat split; try done.
  intros task db.
  unfold TaskModel.Insert, QueryRow, roundtrip, TaskModel.insert_sql.
  cbn [expired NoContext].
  destruct (_ || _); [done|]. destruct (existsb _ _); done.
Qed.
End store.

(** ** Listing *)

Section order.
Context `{Engine} {R : Type} (row_id : R -> Z).

Global Instance key_le_trans : Transitive key_le.
Proof.
  intros [x|s|s] [y|t|t] [z|u|u]; simpl; try done; try lia.
  apply transitivity.
Qed.

Global Instance key_le_total : Total key_le.
Proof.
  intros [x|s|s] [y|t|t]; simpl; try tauto; try lia.
  apply total, _.
Qed.

Global Instance row_le_trans key desc : Transitive (row_le row_id key desc).
Proof.
  intros a b c. unfold row_le.
  destruct desc; intros [[? ?]|(? & ? & ?)] [[? ?]|(? & ? & ?)].
  all: try (left; split; [by etrans|]; intros ?;
            match goal with Hn : ~ key_le _ _ |- _ => apply Hn end;
            by etrans).
  all: right; repeat split; [by etrans..|lia].
Qed.

Global Instance row_le_total key desc : Total (row_le row_id key desc).
Proof.
  intros a b. unfold row_le.
  destruct (decide (key_le (key a) (key b)));
    destruct (decide (key_le (key b) (key a)));
    destruct (decide (row_id a <= row_id b)); destruct desc;
    try tauto; try (right; right; repeat split; [done..|lia]).
  all: destruct (total key_le (key a) (key b)); tauto.
Qed.

(** Two rows each of which may precede the other have the same id. *)
Lemma row_le_antisym key desc a b :
  row_le row_id key desc a b -> row_le row_id key desc b a ->
  row_id a = row_id b.
Proof. unfold row_le. destruct desc; intros [[??]|(?&?&?)] [[??]|(?&?&?)]; (done || lia). Qed.

Lemma scan_rows_fold (count : Z) (l : list R) (c0 : Z) (acc : list R) :
  fold_left (fun acc row => (row.1, acc.2 ++ [row.2]))
    ((fun r => (count, r)) <$> l) (c0, acc)
  = (match l with [] => c0 | _ => count end, acc ++ l).
Proof.
  revert c0 acc. induction l as [|r l IH]; intros c0 acc; simpl.
  { by rewrite app_nil_r. }
  rewrite IH. rewrite <- app_assoc. by destruct l.
Qed.

Lemma scan_rows_tagged (count : Z) (l : list R) :
  scan_rows ((fun r => (count, r)) <$> l)
  = (match l with [] => 0 | _ => count end, l).
Proof. unfold scan_rows. by rewrite scan_rows_fold. Qed.

(** The ordered rows are the matching rows, sorted, and no other
    arrangement of them is sorted when ids are unique. *)
Lemma ordered_spec key desc (matching : list R) :
  let ordered := merge_sort (row_le row_id key desc) matching in
  ordered ≡ₚ matching
  /\ StronglySorted (row_le row_id key desc) ordered
  /\ (NoDup (row_id <$> matching) ->
      forall l, l ≡ₚ matching ->
                StronglySorted (row_le row_id key desc) l -> l = ordered).
Proof.
  intros ordered.
  assert (ordered ≡ₚ matching) as Hperm by apply merge_sort_Permutation.
  assert (StronglySorted (row_le row_id key desc) ordered) as Hsorted
    by (apply StronglySorted_merge_sort; apply _).
  split; [done|]. split; [done|].
  intros Hnodup l Hl Hls.
  apply (StronglySorted_unique_strong (row_le row_id key desc)); try done.
  2: by rewrite Hl, Hperm.
  intros x1 x2 Hx1 Hx2 H12 H21.
  rewrite Hl in Hx1. rewrite Hperm in Hx2.
  pose proof (row_le_antisym _ _ _ _ H12 H21) as Hid.
  apply list_elem_of_lookup in Hx1 as [i Hi].
  apply list_elem_of_lookup in Hx2 as [j Hj].
  assert (i = j) as ->.
  { eapply NoDup_lookup; [exact Hnodup| |].
    - by rewrite list_lookup_fmap, Hi.
    - by rewrite list_lookup_fmap, Hj, Hid. }
  congruence.
Qed.
End order.

Section pages.
Context `{Engine}.

Lemma order_direction_sortDirection f :
  order_direction (sortDirection f) = Some (HasDash (Sort f)).
Proof. unfold sortDirection. by destruct (HasDash (Sort f)). Qed.

Lemma ceil_div_spec a b :
  0 < b -> (ceil_div a b - 1) * b < a <= ceil_div a b * b.
Proof. intros Hb. unfold ceil_div. divmod. Qed.

Lemma window_length {R} (row_id : R -> Z) key f (matching : list R) :
  0 <= limit f -> 0 <= offset f ->
  Z.of_nat (length (window row_id key f matching))
  = Z.min (limit f) (Z.max 0 (Z.of_nat (length matching) - offset f)).
Proof.
  intros Hl Ho. unfold window.
  rewrite length_take, length_drop.
  rewrite (Permutation_length (merge_sort_Permutation _ matching)). lia.
Qed.

Lemma reports_window {R} (row_id : R -> Z) key f (matching : list R) :
  0 <= limit f -> 0 <= offset f ->
  reports (window row_id key f matching)
    (calculateMetadata
       (match window row_id key f matching with
        | [] => 0
        | _ => Z.of_nat (length matching)
        end) (Page f) (PageSize f))
    (Z.of_nat (length matching)) f.
Proof.
  intros Hl Ho. pose proof (window_length row_id key f matching Hl Ho) as Hlen.
  unfold limit in *. unfold reports.
  destruct (window row_id key f matching) as [|r page] eqn:Hw; simpl in Hlen.
  - split; [|split; [done|]]; [split; [done|] | done].
    intros [? ?]. lia.
  - assert (0 < PageSize f /\ offset f < Z.of_nat (length matching))
      as [Hps Hoff] by lia.
    split; [done|]. split; [|done]. intros _.
    unfold calculateMetadata.
    replace (Z.of_nat (length matching) =? 0) with false
      by (symmetry; apply Z.eqb_neq; lia).
    simpl. pose proof (ceil_div_spec (Z.of_nat (length matching))
                         (PageSize f) Hps). done.
Qed.

Lemma TaskModel_GetAll_in_time link title f db col key :
  in_time link -> sortColumn f = Some col ->
  TaskModel.column col = Some key ->
  0 <= limit f -> 0 <= offset f ->
  let matching :=
    filter (fun r => TaskModel.title_matches title r) (tasks db) in
  TaskModel.GetAll link title f db
  = Returns
      (inr (window task_ID key f matching,
            calculateMetadata
              (match window task_ID key f matching with
               | [] => 0
               | _ => Z.of_nat (length matching)
               end) (Page f) (PageSize f)),
       record_statement
         (SelectTasks col (sortDirection f) title (limit f) (offset f)) db).
Proof.
  intros (after & -> & Hafter) Hcol Hkey Hl Ho matching.
  unfold TaskModel.GetAll, roundtrip, TaskModel.select_all_sql, select_list.
  rewrite Hcol, expired_in_time, Hkey, order_direction_sortDirection by done.
  replace (limit f <? 0) with false by (symmetry; apply Z.ltb_ge; lia).
  replace (offset f <? 0) with false by (symmetry; apply Z.ltb_ge; lia).
  rewrite tasks_record_statement. fold matching.
  fold (window task_ID key f matching). by rewrite scan_rows_tagged.
Qed.

Lemma CategoryModel_GetAll_in_time link f db col key :
  in_time link -> sortColumn f = Some col ->
  CategoryModel.column col = Some key ->
  0 <= limit f -> 0 <= offset f ->
  CategoryModel.GetAll link f db
  = Returns
      (inr (window cat_ID key f (categories db),
            calculateMetadata
              (match window cat_ID key f (categories db) with
               | [] => 0
               | _ => Z.of_nat (length (categories db))
               end) (Page f) (PageSize f)),
       record_statement
         (SelectCategories col (sortDirection f) (limit f) (offset f)) db).
Proof.
  intros (after & -> & Hafter) Hcol Hkey Hl Ho.
  unfold CategoryModel.GetAll, roundtrip, CategoryModel.select_all_sql,
    select_list.
  rewrite Hcol, expired_in_time, Hkey, order_direction_sortDirection by done.
  replace (limit f <? 0) with false by (symmetry; apply Z.ltb_ge; lia).
  replace (offset f <? 0) with false by (symmetry; apply Z.ltb_ge; lia).
  change (categories (record_statement ?s db)) with (categories db).
  rewrite (filter_all (fun r : Category => true)) by (by apply Forall_true).
  fold (window cat_ID key f (categories db)). by rewrite scan_rows_tagged.
Qed.

(** C3 (as amended).  A list call the backend answers in time succeeds.
    With [r] rows matching, its metadata has totalRecords = r,
    firstPage = 1 and lastPage = ceil(r / pageSize) whenever the returned
    page holds at least one row, which is when the offset lies below [r];
    when the page is empty (no row matches, or the page lies beyond the
    last one) every metadata field is zero.  The same holds for
    categories, where every row matches. *)
Theorem C3_metadata_of_a_page :
  (forall link title f db col key,
      in_time link -> sortColumn f = Some col ->
      TaskModel.column col = Some key ->
      0 <= limit f -> 0 <= offset f ->
      exists page md db',
        TaskModel.GetAll link title f db = Returns (inr (page, md), db')
        /\ reports page md
             (Z.of_nat (length (filter (fun r => TaskModel.title_matches title r)
                                  (tasks db)))) f)
  /\ (forall link f db col key,
        in_time link -> sortColumn f = Some col ->
        CategoryModel.column col = Some key ->
        0 <= limit f -> 0 <= offset f ->
        exists page md db',
          CategoryModel.GetAll link f db = Returns (inr (page, md), db')
          /\ reports page md (Z.of_nat (length (categories db))) f).
Proof.
  split.
  - intros link title f db col key Ht Hcol Hkey Hl Ho.
    rewrite (TaskModel_GetAll_in_time link title f db col key) by done.
    eexists _, _, _. split; [done|]. by apply reports_window.
  - intros link f db col key Ht Hcol Hkey Hl Ho.
    rewrite (CategoryModel_GetAll_in_time link f db col key) by done.
    eexists _, _, _. split; [done|]. by apply reports_window.
Qed.

Lemma NoDup_ids_filter {R} (row_id : R -> Z) (P : R -> Prop)
    `{forall x, Decision (P x)} rows :
  NoDup (row_id <$> rows) -> NoDup (row_id <$> filter P rows).
Proof.
  intros Hnd. eapply sublist_NoDup; [exact Hnd|].
  apply fmap_sublist, sublist_filter.
Qed.

Lemma title_matches_filter (title : string) (rows : list Task) :
  filter (fun r => TaskModel.title_matches title r) rows
  = if decide (title = EmptyString) then rows
    else filter (fun r => ts_match (task_Title r) title) rows.
Proof.
  unfold TaskModel.title_matches. destruct (decide _) as [->|Hne].
  - apply filter_all, Forall_true. intros r. by rewrite orb_true_r.
  - apply list_filter_iff. intros r.
    replace (String.eqb title EmptyString) with false
      by (symmetry; by apply String.eqb_neq).
    by rewrite orb_false_r.
Qed.

Lemma scenario_rows a b dbA dbB :
  TaskModel.Insert (Responds 0) taskA emptyDB = Returns (None, a, dbA) ->
  TaskModel.Insert (Responds 0) taskB dbA = Returns (None, b, dbB) ->
  a = rowA /\ b = rowB /\ tasks dbB = [rowA; rowB].
Proof.
  assert (Hdue : forall y m d, valid_instant (mkTime y m d 0 0 0 0) ->
            timestamp0 (mkTime y m d 0 0 0 0) = mkTime y m d 0 0 0 0)
    by (intros; by apply timestamp0_instant).
  intros Ha Hb.
  unfold TaskModel.Insert, QueryRow, roundtrip, TaskModel.insert_sql in Ha.
  cbn in Ha. injection Ha as <- <-.
  unfold TaskModel.Insert, QueryRow, roundtrip, TaskModel.insert_sql in Hb.
  cbn in Hb. injection Hb as <- <-.
  unfold rowA, rowB, set_generated. cbn.
  rewrite !Hdue by (vm_compute; repeat split; done). done.
Qed.

(** C4 (as amended).  A task list call the backend answers in time returns
    the window, from the offset and of at most limit rows, of a list
    [ordered] that is a rearrangement of the rows whose title the text
    search matches (of all rows when the filter is empty) and is sorted
    by the sort column in the sort direction with ties broken by
    ascending id; when ids are unique no other rearrangement is sorted so.
    A category list call does the same over all rows: it takes no filter.
    Two tasks A and B due 2024-01-01 and 2024-01-02, listed by the store
    with the empty filter and sort -due_date under a safelist that admits
    it, come back as [B, A] with totalRecords = 2. *)
Theorem C4_listing :
  (forall link title f db col key,
      in_time link -> sortColumn f = Some col ->
      TaskModel.column col = Some key ->
      0 <= limit f -> 0 <= offset f ->
      exists ordered md db',
        TaskModel.GetAll link title f db
        = Returns (inr (take (Z.to_nat (limit f))
                          (drop (Z.to_nat (offset f)) ordered), md), db')
        /\ ordered ≡ₚ
             (if decide (title = EmptyString) then tasks db
              else filter (fun r => ts_match (task_Title r) title) (tasks db))
        /\ StronglySorted (row_le task_ID key (HasDash (Sort f))) ordered
        /\ (NoDup (task_ID <$> tasks db) ->
            forall l, l ≡ₚ ordered ->
              StronglySorted (row_le task_ID key (HasDash (Sort f))) l ->
              l = ordered))
  /\ (forall link f db col key,
        in_time link -> sortColumn f = Some col ->
        CategoryModel.column col = Some key ->
        0 <= limit f -> 0 <= offset f ->
        exists ordered md db',
          CategoryModel.GetAll link f db
          = Returns (inr (take (Z.to_nat (limit f))
                            (drop (Z.to_nat (offset f)) ordered), md), db')
          /\ ordered ≡ₚ categories db
          /\ StronglySorted (row_le cat_ID key (HasDash (Sort f))) ordered
          /\ (NoDup (cat_ID <$> categories db) ->
              forall l, l ≡ₚ ordered ->
                StronglySorted (row_le cat_ID key (HasDash (Sort f))) l ->
                l = ordered))
  /\ (forall safelist a b dbA dbB,
        "-due_date" ∈ safelist ->
        TaskModel.Insert (Responds 0) taskA emptyDB = Returns (None, a, dbA) ->
        TaskModel.Insert (Responds 0) taskB dbA = Returns (None, b, dbB) ->
        exists md db',
          TaskModel.GetAll (Responds 0) EmptyString
            (mkFilters 1 20 "-due_date" safelist) dbB
          = Returns (inr ([b; a], md), db')
          /\ TotalRecords md = 2).
Proof.
  split; [|split].
  - intros link title f db col key Ht Hcol Hkey Hl Ho.
    rewrite (TaskModel_GetAll_in_time link title f db col key) by done.
    unfold window.
    set (matching := filter (fun r => TaskModel.title_matches title r) (tasks db)).
    destruct (ordered_spec task_ID key (HasDash (Sort f)) matching)
      as (Hperm & Hsorted & Huniq).
    eexists _, _, _. split; [done|].
    split; [by rewrite Hperm; unfold matching; rewrite title_matches_filter|].
    split; [done|]. intros Hnd l Hl' Hls.
    apply Huniq; [by apply NoDup_ids_filter|by rewrite Hl', Hperm|done].
  - intros link f db col key Ht Hcol Hkey Hl Ho.
    rewrite (CategoryModel_GetAll_in_time link f db col key) by done.
    unfold window.
    destruct (ordered_spec cat_ID key (HasDash (Sort f)) (categories db))
      as (Hperm & Hsorted & Huniq).
    eexists _, _, _. split; [done|]. split; [done|]. split; [done|].
    intros Hnd l Hl' Hls. apply Huniq; [done|by rewrite Hl', Hperm|done].
  - intros safelist a b dbA dbB Hsafe Ha Hb.
    destruct (scenario_rows a b dbA dbB Ha Hb) as (-> & -> & Hrows).
    rewrite (TaskModel_GetAll_in_time (Responds 0) EmptyString _ dbB
               "due_date" (fun r => KTime (task_DueDate r))).
    + rewrite title_matches_filter, Hrows. cbn [decide_rel decide].
      eexists _, _. split; [|]; by vm_compute.
    + exists 0. split; [done|]. by vm_compute.
    + unfold sortColumn. cbn [Sort SortSafelist].
      by rewrite bool_decide_eq_true_2.
    + done.
    + done.
    + done.
Qed.
End pages.

(** ** Sort policy *)

Section policy.
Context `{Engine}.

Lemma Check_lookup_other (v : Validator) ok key message k :
  key <> k -> Check v ok key message !! k = v !! k.
Proof.
  intros Hk. unfold Check, AddError. destruct ok; [done|].
  destruct (v !! key); [done|]. by rewrite lookup_insert_ne.
Qed.

Lemma Check_false_lookup (v : Validator) key message :
  v !! key = None -> Check v false key message !! key = Some message.
Proof.
  intros Hv. unfold Check, AddError. rewrite Hv. by rewrite lookup_insert_eq.
Qed.

Lemma Valid_lookup (v : Validator) k x : v !! k = Some x -> Valid v = false.
Proof.
  intros Hv. unfold Valid. apply bool_decide_eq_false.
  intros ->%map_size_empty_iff. by rewrite lookup_empty in Hv.
Qed.

Lemma readInt_sort p key d (v : Validator) :
  key <> "sort" -> v !! "sort" = None -> (readInt p key d v).2 !! "sort" = None.
Proof.
  intros Hk Hv. destruct p; simpl; [done..|].
  unfold AddError. destruct (v !! key); [done|]. by rewrite lookup_insert_ne.
Qed.

(** A [sort] outside the safelist leaves the message under "sort". *)
Lemma ValidateFilters_sort (v : Validator) f :
  v !! "sort" = None -> Sort f ∉ SortSafelist f ->
  ValidateFilters v f !! "sort" = Some "invalid sort value".
Proof.
  intros Hv Hs. unfold ValidateFilters.
  rewrite bool_decide_eq_false_2 by done.
  apply Check_false_lookup. by rewrite !Check_lookup_other.
Qed.

Lemma roundtrip_journal {A} d link stmt (run : DB -> (string + A) * DB)
    db r db' :
  (forall db0, journal (run db0).2 = journal db0) ->
  roundtrip d link stmt run db = Returns (r, db') ->
  journal db' = journal db ++ [stmt].
Proof.
  intros Hrun. unfold roundtrip.
  destruct link as [after| |msg|after msg c].
  - destruct (expired _ _); [by intros [= _ <-]|].
    specialize (Hrun (record_statement stmt db)).
    destruct (run _) as [[msg|a] db2]; intros [= _ <-]; exact Hrun.
  - destruct d; [by intros [= _ <-]|done].
  - by intros [= _ <-].
  - destruct (expired _ _); [by intros [= _ <-]|].
    specialize (Hrun (record_statement stmt db)).
    destruct (run _) as [[m|a] db2]; intros [= _ <-]; [exact Hrun|].
    destruct c; [exact Hrun|done].
Qed.

Lemma sortColumn_endpoint f col :
  SortSafelist f = tasksSafelist \/ SortSafelist f = categoriesSafelist ->
  sortColumn f = Some col -> col ∈ SortSafelist f.
Proof.
  unfold sortColumn. intros Hlist. case_bool_decide as Hin; [|done].
  intros [= <-]. destruct Hlist as [Hl|Hl]; rewrite Hl in Hin |- *.
  all: unfold tasksSafelist, categoriesSafelist in *;
    rewrite !elem_of_cons in Hin;
    repeat (destruct Hin as [-> | Hin]; [by vm_compute; set_solver|]);
    by apply elem_of_nil in Hin.
Qed.

(** C6.  With the safelist of either list endpoint, [sortColumn] returns
    only tokens of that safelist; every statement a list call sends
    carries such a token as its sort column and ASC or DESC as its
    direction.  A request whose [sort] is not in the endpoint's safelist
    gets the validation failure with the message under "sort", and the
    pool, journal included, is as before: no store call was made. *)
Theorem C6_sort_safelist :
  (forall f col,
      SortSafelist f = tasksSafelist \/ SortSafelist f = categoriesSafelist ->
      sortColumn f = Some col -> col ∈ SortSafelist f)
  /\ (forall link title f db r db',
        SortSafelist f = tasksSafelist ->
        TaskModel.GetAll link title f db = Returns (r, db') ->
        exists col,
          col ∈ tasksSafelist
          /\ journal db'
             = journal db ++ [SelectTasks col (sortDirection f) title
                                (limit f) (offset f)]
          /\ (sortDirection f = "ASC" \/ sortDirection f = "DESC"))
  /\ (forall link f db r db',
        SortSafelist f = categoriesSafelist ->
        CategoryModel.GetAll link f db = Returns (r, db') ->
        exists col,
          col ∈ categoriesSafelist
          /\ journal db'
             = journal db ++ [SelectCategories col (sortDirection f)
                                (limit f) (offset f)]
          /\ (sortDirection f = "ASC" \/ sortDirection f = "DESC"))
  /\ (forall link qs db,
        readString (q_sort qs) "id" ∉ tasksSafelist ->
        exists errors,
          listTasksHandler link qs db
          = Returns (failedValidationResponse errors, db)
          /\ errors !! "sort" = Some "invalid sort value")
  /\ (forall link qs db,
        readString (q_sort qs) "id" ∉ categoriesSafelist ->
        exists errors,
          listCategoriesHandler link qs db
          = Returns (failedValidationResponse errors, db)
          /\ errors !! "sort" = Some "invalid sort value").
Proof.
  assert (Hdir : forall f, sortDirection f = "ASC" \/ sortDirection f = "DESC").
  { intros f. unfold sortDirection. destruct (HasDash _); auto. }
  split; [exact sortColumn_endpoint|]. split; [|split; [|split]].
  - intros link title f db r db' Hsafe. unfold TaskModel.GetAll.
    destruct (sortColumn f) as [col|] eqn:Hcol; [|done].
    destruct (roundtrip _ _ _ _ _) as [[[e|rows] db1]| |] eqn:Hrt; [| |done..].
    + intros [= <- <-]. exists col.
      split; [rewrite <- Hsafe; apply sortColumn_endpoint; auto|].
      split; [|done]. eapply roundtrip_journal; [|exact Hrt]. done.
    + destruct (scan_rows rows). intros [= <- <-]. exists col.
      split; [rewrite <- Hsafe; apply sortColumn_endpoint; auto|].
      split; [|done]. eapply roundtrip_journal; [|exact Hrt]. done.
  - intros link f db r db' Hsafe. unfold CategoryModel.GetAll.
    destruct (sortColumn f) as [col|] eqn:Hcol; [|done].
    destruct (roundtrip _ _ _ _ _) as [[[e|rows] db1]| |] eqn:Hrt; [| |done..].
    + intros [= <- <-]. exists col.
      split; [rewrite <- Hsafe; apply sortColumn_endpoint; auto|].
      split; [|done]. eapply roundtrip_journal; [|exact Hrt]. done.
    + destruct (scan_rows rows). intros [= <- <-]. exists col.
      split; [rewrite <- Hsafe; apply sortColumn_endpoint; auto|].
      split; [|done]. eapply roundtrip_journal; [|exact Hrt]. done.
  - intros link qs db Hsort. unfold listTasksHandler.
    destruct (readInt (q_page qs) "page" 1 ∅) as [page v1] eqn:Hp.
    destruct (readInt (q_page_size qs) "page_size" 20 v1) as [size v2] eqn:Hs.
    assert (v2 !! "sort" = None) as Hv2.
    { replace v2 with (size, v2).2 by done. rewrite <- Hs.
      apply readInt_sort; [done|].
      replace v1 with (page, v1).2 by done. rewrite <- Hp.
      by apply readInt_sort. }
    eexists. rewrite (Valid_lookup _ "sort" "invalid sort value").
    + split; [done|]. by apply ValidateFilters_sort.
    + by apply ValidateFilters_sort.
  - intros link qs db Hsort. unfold listCategoriesHandler.
    destruct (readInt (q_page qs) "page" 1 ∅) as [page v1] eqn:Hp.
    destruct (readInt (q_page_size qs) "page_size" 20 v1) as [size v2] eqn:Hs.
    assert (v2 !! "sort" = None) as Hv2.
    { replace v2 with (size, v2).2 by done. rewrite <- Hs.
      apply readInt_sort; [done|].
      replace v1 with (page, v1).2 by done. rewrite <- Hp.
      by apply readInt_sort. }
    eexists. rewrite (Valid_lookup _ "sort" "invalid sort value").
    + split; [done|]. by apply ValidateFilters_sort.
    + by apply ValidateFilters_sort.
Qed.
End policy.

(** ** The tables between calls *)

Section tables.
Context `{Engine}.

Lemma roundtrip_keeps {A} (P : DB -> Prop) d link stmt
    (run : DB -> (string + A) * DB) db r db' :
  (forall db0, P db0 -> P (record_statement stmt db0)) ->
  (forall db0, P db0 -> P (run db0).2) ->
  P db -> roundtrip d link stmt run db = Returns (r, db') -> P db'.
Proof.
  intros Hrec Hrun Hdb. unfold roundtrip.
  destruct link as [after| |msg|after msg c].
  - destruct (expired _ _); [intros [= _ <-]; auto|].
    specialize (Hrun _ (Hrec _ Hdb)).
    destruct (run _) as [[msg|a] db2]; intros [= _ <-]; exact Hrun.
  - destruct d; [intros [= _ <-]; auto|done].
  - intros [= _ <-]; auto.
  - destruct (expired _ _); [intros [= _ <-]; auto|].
    specialize (Hrun _ (Hrec _ Hdb)).
    destruct (run _) as [[m|a] db2]; intros [= _ <-]; [exact Hrun|].
    destruct c; [exact Hrun|auto].
Qed.

Lemma QueryRow_keeps {A} (P : DB -> Prop) d link stmt
    (run : DB -> (string + list A) * DB) db r db' :
  (forall db0, P db0 -> P (record_statement stmt db0)) ->
  (forall db0, P db0 -> P (run db0).2) ->
  P db -> QueryRow d link stmt run db = Returns (r, db') -> P db'.
Proof.
  intros Hrec Hrun Hdb. unfold QueryRow.
  assert (forall x db1,
            roundtrip d link stmt run db = Returns (x, db1) -> P db1) as Hrt
    by (intros x db1; by apply roundtrip_keeps).
  destruct link as [after| |msg|after msg c].
  4: { destruct (expired _ _); [intros [= _ <-]; auto|].
       specialize (Hrun _ (Hrec _ Hdb)).
       destruct (run _) as [[m|rows] db2]; intros [= _ <-]; [exact Hrun|].
       destruct c; [exact Hrun|auto]. }
  all: destruct (roundtrip _ _ _ _ _) as [[[e|[|row rows]] db1]| |] eqn:Hq;
    try done; intros [= _ <-]; by eapply Hrt.
Qed.

Lemma Forall_kept {A} (P Q : A -> Prop) `{forall x, Decision (Q x)} rows :
  Forall P rows -> Forall P (filter Q rows).
Proof.
  rewrite !Forall_forall. intros Hall x [_ Hx]%list_elem_of_filter. auto.
Qed.

Lemma store_ok_record_statement stmt db :
  store_ok db -> store_ok (record_statement stmt db).
Proof. done. Qed.

Lemma task_insert_sql_ok title description priority status category due db :
  store_ok db ->
  store_ok (TaskModel.insert_sql title description priority status category
              due db).2.
Proof.
  intros [(Hseq & Hnd & Hall) Hcat]. unfold TaskModel.insert_sql.
  destruct (_ || _); [done|].
  assert (Forall (fun r => 1 <= task_ID r < tasks_id_seq db + 1
                           /\ 1 <= task_Version r) (tasks db)) as Hall'.
  { eapply Forall_impl; [exact Hall|]. simpl. lia. }
  destruct (existsb _ _).
  { split; [|done]. split; [simpl; lia|]. by split. }
  split; [|done]. split; [simpl; lia|]. cbn [snd tasks with_tasks
    tasks_id_seq next_task_seqs]. split.
  - rewrite fmap_app. apply NoDup_app. split; [done|]. split.
    + intros id Hid Hnew. apply list_elem_of_singleton in Hnew. subst id.
      apply list_elem_of_fmap in Hid as (r & Heq & Hr).
      rewrite Forall_forall in Hall. specialize (Hall r Hr). simpl in Heq. lia.
    + apply NoDup_singleton.
  - apply Forall_app. split; [done|]. apply Forall_singleton. simpl. lia.
Qed.

Lemma task_update_sql_ok title description priority status category due
    user_id id version db :
  store_ok db ->
  store_ok (TaskModel.update_sql title description priority status category
              due user_id id version db).2.
Proof.
  intros [(Hseq & Hnd & Hall) Hcat]. unfold TaskModel.update_sql.
  destruct (existsb _ _); [done|].
  split; [|done]. split; [done|]. cbn [snd tasks with_tasks tasks_id_seq]. split.
  - rewrite <- list_fmap_compose.
    replace (task_ID <$> tasks db) with
      ((task_ID ∘ (fun r => if TaskModel.update_hits id version r
                            then TaskModel.updated_row title description
                                   priority status category due user_id r
                            else r)) <$> tasks db) in Hnd; [done|].
    apply list_fmap_ext. intros i r _. simpl. by destruct (TaskModel.update_hits _ _ _).
  - apply Forall_fmap. eapply Forall_impl; [exact Hall|].
    intros r Hr. unfold compose.
    destruct (TaskModel.update_hits _ _ _); cbn in *; lia.
Qed.

Lemma task_delete_sql_ok id db :
  store_ok db -> store_ok (TaskModel.delete_sql id db).2.
Proof.
  intros [(Hseq & Hnd & Hall) Hcat]. unfold TaskModel.delete_sql.
  split; [|done]. split; [done|]. cbn [snd tasks with_tasks tasks_id_seq]. split.
  - by apply NoDup_ids_filter.
  - by apply Forall_kept.
Qed.

Lemma category_insert_sql_ok name description db :
  store_ok db -> store_ok (CategoryModel.insert_sql name description db).2.
Proof.
  intros [Htasks (Hseq & Hnd & Hall)]. unfold CategoryModel.insert_sql.
  destruct (_ <? _); [done|].
  assert (Forall (fun r => 1 <= cat_ID r < categories_id_seq db + 1)
            (categories db)) as Hall'.
  { eapply Forall_impl; [exact Hall|]. simpl. lia. }
  destruct (existsb _ _).
  { split; [done|]. split; [simpl; lia|]. by split. }
  split; [done|]. split; [simpl; lia|]. cbn [snd categories with_categories
    categories_id_seq next_category_seq]. split.
  - rewrite fmap_app. apply NoDup_app. split; [done|]. split.
    + intros id Hid Hnew. apply list_elem_of_singleton in Hnew. subst id.
      apply list_elem_of_fmap in Hid as (r & Heq & Hr).
      rewrite Forall_forall in Hall. specialize (Hall r Hr). simpl in Heq. lia.
    + apply NoDup_singleton.
  - apply Forall_app. split; [done|]. apply Forall_singleton. simpl. lia.
Qed.

Lemma category_update_sql_ok name description id db :
  store_ok db -> store_ok (CategoryModel.update_sql name description id db).2.
Proof.
  intros [Htasks (Hseq & Hnd & Hall)]. unfold CategoryModel.update_sql.
  split; [done|]. split; [done|].
  cbn [snd categories with_categories categories_id_seq]. split.
  - rewrite <- list_fmap_compose.
    replace (cat_ID <$> categories db) with
      ((cat_ID ∘ (fun r => if CategoryModel.has_id id r
                           then mkCategory (cat_ID r) (cat_CreatedAt r) name
                                  description
                           else r)) <$> categories db) in Hnd; [done|].
    apply list_fmap_ext. intros i r _. simpl. by destruct (CategoryModel.has_id _ _).
  - apply Forall_fmap. eapply Forall_impl; [exact Hall|].
    intros r Hr. unfold compose.
    destruct (CategoryModel.has_id _ _); cbn in *; lia.
Qed.

Lemma category_delete_sql_ok id db :
  store_ok db -> store_ok (CategoryModel.delete_sql id db).2.
Proof.
  intros [Htasks (Hseq & Hnd & Hall)]. unfold CategoryModel.delete_sql.
  split; [done|]. split; [done|].
  cbn [snd categories with_categories categories_id_seq]. split.
  - by apply NoDup_ids_filter.
  - by apply Forall_kept.
Qed.

(** X1.  Every store method keeps the tables well formed, whatever the
    backend does and whatever the method returns: ids stay unique, at least
    1 and below the next value of their sequence, and versions stay at
    least 1. *)
Theorem X1_store_methods_keep_tables_ok :
  forall link db, store_ok db ->
    (forall task r db',
        TaskModel.Insert link task db = Returns (r, db') -> store_ok db')
    /\ (forall id r db',
          TaskModel.Get link id db = Returns (r, db') -> store_ok db')
    /\ (forall task r db',
          TaskModel.Update link task db = Returns (r, db') -> store_ok db')
    /\ (forall id r db',
          TaskModel.Delete link id db = Returns (r, db') -> store_ok db')
    /\ (forall title f r db',
          TaskModel.GetAll link title f db = Returns (r, db') -> store_ok db')
    /\ (forall category r db',
          CategoryModel.Insert link category db = Returns (r, db') ->
          store_ok db')
    /\ (forall id r db',
          CategoryModel.Get link id db = Returns (r, db') -> store_ok db')
    /\ (forall category r db',
          CategoryModel.Update link category db = Returns (r, db') ->
          store_ok db')
    /\ (forall id r db',
          CategoryModel.Delete link id db = Returns (r, db') -> store_ok db')
    /\ (forall f r db',
          CategoryModel.GetAll link f db = Returns (r, db') -> store_ok db').
Proof.
  intros link db Hok.
  split; [|split; [|split; [|split; [|split; [|split; [|split; [|split;
    [|split]]]]]]]].
  - intros task r db'. unfold TaskModel.Insert.
    destruct (QueryRow _ _ _ _ _) as [[[scanned err] db1]| |] eqn:Hq;
      try done; intros [= _ <-];
      (eapply QueryRow_keeps; [| |exact Hok|exact Hq]);
      auto using store_ok_record_statement, task_insert_sql_ok.
  - intros id r db'. unfold TaskModel.Get. destruct (id <? 1).
    { by intros [= _ <-]. }
    destruct (QueryRow _ _ _ _ _) as [[[scanned err] db1]| |] eqn:Hq;
      try done.
    assert (store_ok db1) by
      (eapply QueryRow_keeps; [| |exact Hok|exact Hq];
       auto using store_ok_record_statement).
    destruct err as [e|]; [destruct e|]; by intros [= _ <-].
  - intros task r db'. unfold TaskModel.Update.
    destruct (QueryRow _ _ _ _ _) as [[[scanned err] db1]| |] eqn:Hq;
      try done.
    assert (store_ok db1) by
      (eapply QueryRow_keeps; [| |exact Hok|exact Hq];
       auto using store_ok_record_statement, task_update_sql_ok).
    destruct err as [e|]; [destruct e|]; by intros [= _ <-].
  - intros id r db'. unfold TaskModel.Delete. destruct (id <? 1).
    { by intros [= _ <-]. }
    destruct (roundtrip _ _ _ _ _) as [[[e|n] db1]| |] eqn:Hq; try done.
    + intros [= _ <-].
      eapply roundtrip_keeps; [| |exact Hok|exact Hq];
        auto using store_ok_record_statement, task_delete_sql_ok.
    + assert (store_ok db1) by
        (eapply roundtrip_keeps; [| |exact Hok|exact Hq];
         auto using store_ok_record_statement, task_delete_sql_ok).
      destruct (n =? 0); by intros [= _ <-].
  - intros title f r db'. unfold TaskModel.GetAll.
    destruct (sortColumn f) as [col|]; [|done].
    destruct (roundtrip _ _ _ _ _) as [[[e|rows] db1]| |] eqn:Hq; try done.
    + intros [= _ <-].
      eapply roundtrip_keeps; [| |exact Hok|exact Hq];
        auto using store_ok_record_statement.
    + destruct (scan_rows rows). intros [= _ <-].
      eapply roundtrip_keeps; [| |exact Hok|exact Hq];
        auto using store_ok_record_statement.
  - intros category r db'. unfold CategoryModel.Insert.
    destruct (QueryRow _ _ _ _ _) as [[[scanned err] db1]| |] eqn:Hq;
      try done; intros [= _ <-];
      (eapply QueryRow_keeps; [| |exact Hok|exact Hq]);
      auto using store_ok_record_statement, category_insert_sql_ok.
  - intros id r db'. unfold CategoryModel.Get. destruct (id <? 1).
    { by intros [= _ <-]. }
    destruct (QueryRow _ _ _ _ _) as [[[scanned err] db1]| |] eqn:Hq;
      try done.
    assert (store_ok db1) by
      (eapply QueryRow_keeps; [| |exact Hok|exact Hq];
       auto using store_ok_record_statement).
    destruct err as [e|]; [destruct e|]; by intros [= _ <-].
  - intros category r db'. unfold CategoryModel.Update.
    destruct (roundtrip _ _ _ _ _) as [[[e|n] db1]| |] eqn:Hq; try done;
      intros [= _ <-];
      (eapply roundtrip_keeps; [| |exact Hok|exact Hq]);
      auto using store_ok_record_statement, category_update_sql_ok.
  - intros id r db'. unfold CategoryModel.Delete. destruct (id <? 1).
    { by intros [= _ <-]. }
    destruct (roundtrip _ _ _ _ _) as [[[e|n] db1]| |] eqn:Hq; try done.
    + intros [= _ <-].
      eapply roundtrip_keeps; [| |exact Hok|exact Hq];
        auto using store_ok_record_statement, category_delete_sql_ok.
    + assert (store_ok db1) by
        (eapply roundtrip_keeps; [| |exact Hok|exact Hq];
         auto using store_ok_record_statement, category_delete_sql_ok).
      destruct (n =? 0); by intros [= _ <-].
  - intros f r db'. unfold CategoryModel.GetAll.
    destruct (sortColumn f) as [col|]; [|done].
    destruct (roundtrip _ _ _ _ _) as [[[e|rows] db1]| |] eqn:Hq; try done.
    + intros [= _ <-].
      eapply roundtrip_keeps; [| |exact Hok|exact Hq];
        auto using store_ok_record_statement.
    + destruct (scan_rows rows). intros [= _ <-].
      eapply roundtrip_keeps; [| |exact Hok|exact Hq];
        auto using store_ok_record_statement.
Qed.
End tables.

(** ** Reading back what was written *)

Section readback.
Context `{Engine}.

Lemma task_Get_in_time link id db :
  in_time link -> 1 <= id ->
  TaskModel.Get link id db
  = Returns (match filter (fun r => TaskModel.has_id id r) (tasks db) with
             | [] => inl ErrRecordNotFound
             | row :: _ => inr row
             end, record_statement (SelectTask id) db).
Proof.
  intros (after & -> & Hafter) Hid.
  unfold TaskModel.Get, QueryRow, roundtrip, TaskModel.select_sql.
  replace (id <? 1) with false by (symmetry; apply Z.ltb_ge; lia).
  rewrite expired_in_time by done. rewrite tasks_record_statement.
  by destruct (filter _ (tasks db)).
Qed.

Lemma category_Get_in_time link id db :
  in_time link -> 1 <= id ->
  CategoryModel.Get link id db
  = Returns (match filter (fun r => CategoryModel.has_id id r) (categories db) with
             | [] => inl ErrRecordNotFound
             | row :: _ => inr row
             end, record_statement (SelectCategory id) db).
Proof.
  intros (after & -> & Hafter) Hid.
  unfold CategoryModel.Get, QueryRow, roundtrip, CategoryModel.select_sql.
  replace (id <? 1) with false by (symmetry; apply Z.ltb_ge; lia).
  rewrite expired_in_time by done.
  change (categories (record_statement ?s db)) with (categories db).
  by destruct (filter _ (categories db)).
Qed.

(** Among rows of unique ids the rows of one id are the one row. *)
Lemma filter_unique_id {R} (row_id : R -> Z) (rows : list R) row :
  NoDup (row_id <$> rows) -> row ∈ rows ->
  filter (fun r => row_id r =? row_id row) rows = [row].
Proof.
  induction rows as [|r rows IH]; [by intros _ ?%elem_of_nil|].
  rewrite fmap_cons. intros [Hnew Hnd]%NoDup_cons [->|Hin]%elem_of_cons.
  - rewrite filter_cons_True by (apply Is_true_true, Z.eqb_refl). f_equal.
    apply filter_none, Forall_forall. intros r' Hr Heq.
    apply Is_true_true, Z.eqb_eq in Heq. apply Hnew. rewrite <- Heq.
    apply list_elem_of_fmap. eauto.
  - rewrite filter_cons_False; [by apply IH|].
    intros Heq. apply Is_true_true, Z.eqb_eq in Heq. apply Hnew. rewrite Heq.
    apply list_elem_of_fmap. eauto.
Qed.

Lemma filter_absent_id {R} (row_id : R -> Z) (rows : list R) id :
  Forall (fun r => row_id r <> id) rows ->
  filter (fun r => row_id r =? id) rows = [].
Proof.
  intros Hall. apply filter_none. eapply Forall_impl; [exact Hall|].
  intros r Hr Heq. by apply Is_true_true, Z.eqb_eq in Heq.
Qed.

(** X2.  [Get] answers with a row only if the table holds it under the
    requested id, and sends nothing but the one SELECT.  When ids are
    unique and the backend answers in time, [Get] of the id of a stored row
    returns exactly that row, and [Get] of an id at least 1 that no row has
    returns ErrRecordNotFound; the same holds for categories. *)
Theorem X2_get_returns_the_stored_row :
  (forall link id db row db',
      TaskModel.Get link id db = Returns (inr row, db') ->
      row ∈ tasks db /\ task_ID row = id
      /\ db' = record_statement (SelectTask id) db)
  /\ (forall link db row,
        in_time link -> NoDup (task_ID <$> tasks db) ->
        row ∈ tasks db -> 1 <= task_ID row ->
        TaskModel.Get link (task_ID row) db
        = Returns (inr row, record_statement (SelectTask (task_ID row)) db))
  /\ (forall link id db,
        in_time link -> 1 <= id ->
        Forall (fun r => task_ID r <> id) (tasks db) ->
        TaskModel.Get link id db
        = Returns (inl ErrRecordNotFound, record_statement (SelectTask id) db))
  /\ (forall link id db row db',
        CategoryModel.Get link id db = Returns (inr row, db') ->
        row ∈ categories db /\ cat_ID row = id
        /\ db' = record_statement (SelectCategory id) db)
  /\ (forall link db row,
        in_time link -> NoDup (cat_ID <$> categories db) ->
        row ∈ categories db -> 1 <= cat_ID row ->
        CategoryModel.Get link (cat_ID row) db
        = Returns (inr row,
                   record_statement (SelectCategory (cat_ID row)) db))
  /\ (forall link id db,
        in_time link -> 1 <= id ->
        Forall (fun r => cat_ID r <> id) (categories db) ->
        CategoryModel.Get link id db
        = Returns (inl ErrRecordNotFound,
                   record_statement (SelectCategory id) db)).
Proof.
  split; [|split; [|split; [|split; [|split]]]].
  - intros link id db row db'.
    unfold TaskModel.Get, QueryRow, roundtrip, TaskModel.select_sql.
    destruct (id <? 1); [done|].
    destruct link as [after| |msg|after msg c];
    [|done..|by refuted].
    destruct (expired _ _); [done|].
    rewrite tasks_record_statement.
    destruct (filter _ (tasks db)) as [|r rows] eqn:Hf; [done|].
    intros [= <- <-].
    assert (r ∈ filter (fun r => TaskModel.has_id id r) (tasks db)) as Hr
      by (rewrite Hf; left).
    apply list_elem_of_filter in Hr as [Hid Hr].
    apply Is_true_true, Z.eqb_eq in Hid. done.
  - intros link db row Ht Hnd Hrow Hid.
    rewrite task_Get_in_time by done. unfold TaskModel.has_id.
    by rewrite (filter_unique_id task_ID).
  - intros link id db Ht Hid Hnone.
    rewrite task_Get_in_time by done. unfold TaskModel.has_id.
    by rewrite (filter_absent_id task_ID).
  - intros link id db row db'.
    unfold CategoryModel.Get, QueryRow, roundtrip, CategoryModel.select_sql.
    destruct (id <? 1); [done|].
    destruct link as [after| |msg|after msg c];
    [|done..|by refuted].
    destruct (expired _ _); [done|].
    change (categories (record_statement ?s db)) with (categories db).
    destruct (filter _ (categories db)) as [|r rows] eqn:Hf; [done|].
    intros [= <- <-].
    assert (r ∈ filter (fun r => CategoryModel.has_id id r) (categories db))
      as Hr by (rewrite Hf; left).
    apply list_elem_of_filter in Hr as [Hid Hr].
    apply Is_true_true, Z.eqb_eq in Hid. done.
  - intros link db row Ht Hnd Hrow Hid.
    rewrite category_Get_in_time by done. unfold CategoryModel.has_id.
    by rewrite (filter_unique_id cat_ID).
  - intros link id db Ht Hid Hnone.
    rewrite category_Get_in_time by done. unfold CategoryModel.has_id.
    by rewrite (filter_absent_id cat_ID).
Qed.
End readback.

(** ** How the writes compose *)

Section compose.
Context `{Engine}.

Lemma fresh_task_id db :
  tasks_ok db -> existsb (TaskModel.has_id (tasks_id_seq db)) (tasks db) = false.
Proof.
  intros (_ & _ & Hall). apply not_true_is_false.
  intros (r & Hr & Hid)%existsb_exists. apply list_elem_of_In in Hr.
  rewrite Forall_forall in Hall. specialize (Hall r Hr).
  unfold TaskModel.has_id in Hid. apply Z.eqb_eq in Hid. lia.
Qed.

Lemma fresh_category_id db :
  categories_ok db ->
  existsb (CategoryModel.has_id (categories_id_seq db)) (categories db) = false.
Proof.
  intros (_ & _ & Hall). apply not_true_is_false.
  intros (r & Hr & Hid)%existsb_exists. apply list_elem_of_In in Hr.
  rewrite Forall_forall in Hall. specialize (Hall r Hr).
  unfold CategoryModel.has_id in Hid. apply Z.eqb_eq in Hid. lia.
Qed.

(** X3.  On well-formed tables whose sequences have not run out, [Insert]
    succeeds whenever the backend answers, however late: the entity gets
    the next id, which is larger than every stored id, and version 1, and
    the table is the old one with one row of that id appended.  The
    category [Insert] does the same without a version. *)
Theorem X3_insert_appends_a_row_with_a_fresh_id :
  (forall after task db,
      store_ok db -> tasks_id_seq db <= max_int64 ->
      tasks_user_id_seq db <= max_int64 ->
      exists task' db' row,
        TaskModel.Insert (Responds after) task db = Returns (None, task', db')
        /\ task_ID task' = tasks_id_seq db /\ task_Version task' = 1
        /\ Forall (fun r => task_ID r < task_ID task') (tasks db)
        /\ tasks db' = tasks db ++ [row]
        /\ task_ID row = task_ID task' /\ task_Version row = 1
        /\ tasks_id_seq db' = tasks_id_seq db + 1)
  /\ (forall after category db,
        store_ok db -> categories_id_seq db <= max_int64 ->
        exists category' db',
          CategoryModel.Insert (Responds after) category db
          = Returns (None, category', db')
          /\ cat_ID category' = categories_id_seq db
          /\ Forall (fun r => cat_ID r < cat_ID category') (categories db)
          /\ categories db'
             = categories db ++ [mkCategory (cat_ID category')
                                   (cat_CreatedAt category')
                                   (cat_Name category)
                                   (cat_Description category)]
          /\ categories_id_seq db' = categories_id_seq db + 1).
Proof.
  split.
  - intros after task db [Htasks _] Hid Huid.
    pose proof (fresh_task_id db Htasks) as Hfresh.
    destruct (Insert_succeeds after task db Hid Huid Hfresh) as [db' Hins].
    pose proof (Insert_success _ _ _ _ _ Hins) as (_ & _ & Hrows).
    eexists _, db', _. split; [exact Hins|].
    split; [done|]. split; [done|]. split.
    { destruct Htasks as (_ & _ & Hall). eapply Forall_impl; [exact Hall|].
      simpl. lia. }
    split; [exact Hrows|]. split; [done|]. split; [done|].
    unfold TaskModel.Insert, QueryRow, roundtrip, TaskModel.insert_sql in Hins.
    cbn [expired NoContext] in Hins.
    rewrite !tasks_record_statement in Hins.
    change (tasks_id_seq (record_statement ?s db)) with (tasks_id_seq db) in Hins.
    change (tasks_user_id_seq (record_statement ?s db))
      with (tasks_user_id_seq db) in Hins.
    destruct (_ || _); [done|]. rewrite Hfresh in Hins.
    by injection Hins as <-.
  - intros after category db [_ Hcats] Hid.
    pose proof (fresh_category_id db Hcats) as Hfresh.
    unfold CategoryModel.Insert, QueryRow, roundtrip, CategoryModel.insert_sql.
    cbn [expired NoContext].
    change (categories (record_statement ?s db)) with (categories db).
    change (categories_id_seq (record_statement ?s db))
      with (categories_id_seq db).
    replace (max_int64 <? categories_id_seq db) with false
      by (symmetry; apply Z.ltb_ge; lia).
    rewrite Hfresh. eexists _, _. split; [done|]. split; [done|]. split.
    { destruct Hcats as (_ & _ & Hall). eapply Forall_impl; [exact Hall|].
      simpl. lia. }
    done.
Qed.

Lemma task_Delete_done link id db db' :
  TaskModel.Delete link id db = Returns (None, db') ->
  1 <= id
  /\ db' = with_tasks (record_statement (DeleteTask id) db)
             (filter (fun r => negb (TaskModel.has_id id r)) (tasks db)).
Proof.
  unfold TaskModel.Delete, roundtrip, TaskModel.delete_sql.
  destruct (id <? 1) eqn:Hid; [done|]. apply Z.ltb_ge in Hid.
  destruct link as [after| |msg|after msg c];
    [|done..|by refuted].
  destruct (expired _ _); [done|].
  destruct (_ =? 0); [done|]. by intros [= <-].
Qed.

Lemma category_Delete_done link id db db' :
  CategoryModel.Delete link id db = Returns (None, db') ->
  1 <= id
  /\ db' = with_categories (record_statement (DeleteCategory id) db)
             (filter (fun r => negb (CategoryModel.has_id id r)) (categories db)).
Proof.
  unfold CategoryModel.Delete, roundtrip, CategoryModel.delete_sql.
  destruct (id <? 1) eqn:Hid; [done|]. apply Z.ltb_ge in Hid.
  destruct link as [after| |msg|after msg c];
    [|done..|by refuted].
  destruct (expired _ _); [done|].
  destruct (_ =? 0); [done|]. by intros [= <-].
Qed.

Lemma task_Delete_absent link id db :
  in_time link -> 1 <= id ->
  Forall (fun r => task_ID r <> id) (tasks db) ->
  TaskModel.Delete link id db
  = Returns (Some ErrRecordNotFound, record_statement (DeleteTask id) db).
Proof.
  intros (after & -> & Hafter) Hid Hnone.
  unfold TaskModel.Delete, roundtrip, TaskModel.delete_sql.
  replace (id <? 1) with false by (symmetry; apply Z.ltb_ge; lia).
  rewrite expired_in_time by done. rewrite tasks_record_statement.
  rewrite filter_all.
  2: { eapply Forall_impl; [exact Hnone|]. intros r Hr.
       unfold TaskModel.has_id. apply Is_true_true, negb_true_iff.
       by apply Z.eqb_neq. }
  rewrite Z.sub_diag. cbn [Z.eqb].
  by rewrite <- (tasks_record_statement (DeleteTask id) db), with_tasks_same.
Qed.

Lemma category_Delete_absent link id db :
  in_time link -> 1 <= id ->
  Forall (fun r => cat_ID r <> id) (categories db) ->
  CategoryModel.Delete link id db
  = Returns (Some ErrRecordNotFound, record_statement (DeleteCategory id) db).
Proof.
  intros (after & -> & Hafter) Hid Hnone.
  unfold CategoryModel.Delete, roundtrip, CategoryModel.delete_sql.
  replace (id <? 1) with false by (symmetry; apply Z.ltb_ge; lia).
  rewrite expired_in_time by done.
  change (categories (record_statement ?s db)) with (categories db).
  rewrite filter_all.
  2: { eapply Forall_impl; [exact Hnone|]. intros r Hr.
       unfold CategoryModel.has_id. apply Is_true_true, negb_true_iff.
       by apply Z.eqb_neq. }
  rewrite Z.sub_diag. cbn [Z.eqb].
  change (categories db)
    with (categories (record_statement (DeleteCategory id) db)) at 1.
  by rewrite with_categories_same.
Qed.

(** X4.  After a successful [Delete] of an id, and as long as the backend
    answers in time, [Get] of that id returns ErrRecordNotFound and so does
    a second [Delete]; the rows of every other id are still there, in their
    order.  The same holds for categories. *)
Theorem X4_deleted_rows_are_gone :
  (forall link link' id db db',
      TaskModel.Delete link id db = Returns (None, db') -> in_time link' ->
      TaskModel.Get link' id db'
      = Returns (inl ErrRecordNotFound, record_statement (SelectTask id) db')
      /\ TaskModel.Delete link' id db'
         = Returns (Some ErrRecordNotFound,
                    record_statement (DeleteTask id) db')
      /\ tasks db' = filter (fun r => task_ID r <> id) (tasks db))
  /\ (forall link link' id db db',
        CategoryModel.Delete link id db = Returns (None, db') ->
        in_time link' ->
        CategoryModel.Get link' id db'
        = Returns (inl ErrRecordNotFound,
                   record_statement (SelectCategory id) db')
        /\ CategoryModel.Delete link' id db'
           = Returns (Some ErrRecordNotFound,
                      record_statement (DeleteCategory id) db')
        /\ categories db' = filter (fun r => cat_ID r <> id) (categories db)).
Proof.
  split.
  - intros link link' id db db' [Hid ->]%task_Delete_done Ht.
    assert (filter (fun r => negb (TaskModel.has_id id r)) (tasks db)
            = filter (fun r => task_ID r <> id) (tasks db)) as Hkept.
    { apply list_filter_iff. intros r. unfold TaskModel.has_id.
      rewrite negb_True, Is_true_true, Z.eqb_eq. done. }
    rewrite Hkept.
    assert (Forall (fun r => task_ID r <> id)
              (filter (fun r => task_ID r <> id) (tasks db))) as Hnone.
    { apply Forall_forall. by intros r [? _]%list_elem_of_filter. }
    split; [|split; [|done]].
    + rewrite task_Get_in_time by done. unfold TaskModel.has_id.
      by rewrite (filter_absent_id task_ID).
    + by apply task_Delete_absent.
  - intros link link' id db db' [Hid ->]%category_Delete_done Ht.
    assert (filter (fun r => negb (CategoryModel.has_id id r)) (categories db)
            = filter (fun r => cat_ID r <> id) (categories db)) as Hkept.
    { apply list_filter_iff. intros r. unfold CategoryModel.has_id.
      rewrite negb_True, Is_true_true, Z.eqb_eq. done. }
    rewrite Hkept.
    assert (Forall (fun r => cat_ID r <> id)
              (filter (fun r => cat_ID r <> id) (categories db))) as Hnone.
    { apply Forall_forall. by intros r [? _]%list_elem_of_filter. }
    split; [|split; [|done]].
    + rewrite category_Get_in_time by done. unfold CategoryModel.has_id.
      by rewrite (filter_absent_id cat_ID).
    + by apply category_Delete_absent.
Qed.
End compose.

(** ** Updates *)

Section updates.
Context `{Engine}.

Lemma Update_conflict link task db :
  in_time link -> addressed task db = [] ->
  TaskModel.Update link task db
  = Returns (Some ErrEditConflict, task,
             record_statement (update_statement task) db).
Proof.
  intros (after & -> & Hafter) Hnone.
  unfold TaskModel.Update, QueryRow, roundtrip.
  rewrite expired_in_time by done. fold (update_statement task).
  by rewrite update_sql_none.
Qed.

(** What a successful [Update] has done. *)
Lemma Update_done link task db task' db' :
  TaskModel.Update link task db = Returns (None, task', db') ->
  task' = set_Version task (task_Version task + 1)
  /\ addressed task db <> []
  /\ db' = with_tasks (record_statement (update_statement task) db)
             ((fun r =>
                 if TaskModel.update_hits (task_ID task) (task_Version task) r
                 then TaskModel.updated_row (task_Title task)
                        (task_Description task) (task_Priority task)
                        (task_Status task) (task_Category task)
                        (task_DueDate task) (task_UserID task) r
                 else r) <$> tasks db).
Proof.
  intros Hu.
  destruct (Update_cases link task db)
    as [(e & _ & He)|[(_ & _ & He)|[(_ & Hsome & _ & He)
        |(after & msg & c & _ & _ & _ & _ & He)]]];
    rewrite He in Hu; [done..| |done]. by injection Hu as <- <-.
Qed.

(** X5.  After a successful [Update] on well-formed tables with a
    second-precision due date, [Get] of the entity's id returns the row the
    update wrote: the entity's own title, description, due date, priority,
    status, category and user id, the version the entity now holds, and the
    creation time of the stored row, which the update does not touch.  If
    the entity carried that creation time, [Get] returns the entity. *)
Theorem X5_get_after_update :
  forall link link' task db task' db',
    tasks_ok db -> valid_instant (task_DueDate task) -> in_time link' ->
    TaskModel.Update link task db = Returns (None, task', db') ->
    exists row,
      row ∈ tasks db /\ task_ID row = task_ID task
      /\ task_Version row = task_Version task
      /\ TaskModel.Get link' (task_ID task) db'
         = Returns (inr (mkTask (task_ID task) (task_CreatedAt row)
                           (task_Title task) (task_Description task)
                           (task_DueDate task) (task_Priority task)
                           (task_Status task) (task_Category task)
                           (task_UserID task) (task_Version task')),
                    record_statement (SelectTask (task_ID task)) db')
      /\ (task_CreatedAt task = task_CreatedAt row ->
          TaskModel.Get link' (task_ID task) db'
          = Returns (inr task',
                     record_statement (SelectTask (task_ID task)) db')).
Proof.
  intros link link' task db task' db' (Hseq & Hnd & Hall) Hdue Ht Hu.
  apply Update_done in Hu as (-> & Hsome & ->).
  destruct (addressed task db) as [|row rest] eqn:Haddr; [done|].
  assert (row ∈ addressed task db) as Hrow by (rewrite Haddr; left).
  apply list_elem_of_filter in Hrow as [Hhit Hrow].
  apply Is_true_true in Hhit.
  pose proof (update_hits_spec _ _ _ Hhit) as [Hid Hver].
  assert (1 <= task_ID task) as Hpos.
  { rewrite Forall_forall in Hall. specialize (Hall row Hrow). lia. }
  set (f := fun r =>
              if TaskModel.update_hits (task_ID task) (task_Version task) r
              then TaskModel.updated_row (task_Title task)
                     (task_Description task) (task_Priority task)
                     (task_Status task) (task_Category task)
                     (task_DueDate task) (task_UserID task) r
              else r).
  assert (forall r, task_ID (f r) = task_ID r) as Hfid.
  { intros r. unfold f, TaskModel.updated_row.
    destruct (TaskModel.update_hits _ _ r); reflexivity. }
  assert (Hget : TaskModel.Get link' (task_ID task)
                   (with_tasks (record_statement (update_statement task) db)
                      (f <$> tasks db))
                 = Returns (inr (f row),
                     record_statement (SelectTask (task_ID task))
                       (with_tasks (record_statement (update_statement task) db)
                          (f <$> tasks db)))).
  { rewrite task_Get_in_time by done. cbn [tasks with_tasks].
    unfold TaskModel.has_id. rewrite <- Hid, <- (Hfid row).
    rewrite (filter_unique_id task_ID); [done| |].
    - rewrite <- list_fmap_compose.
      replace (task_ID ∘ f <$> tasks db) with (task_ID <$> tasks db); [done|].
      apply list_fmap_ext. intros i r _. simpl. by rewrite Hfid.
    - apply list_elem_of_fmap. eauto. }
  assert (f row = mkTask (task_ID task) (task_CreatedAt row)
                    (task_Title task) (task_Description task)
                    (task_DueDate task) (task_Priority task)
                    (task_Status task) (task_Category task)
                    (task_UserID task) (task_Version task + 1)) as Hfrow.
  { unfold f. rewrite Hhit. unfold TaskModel.updated_row.
    by rewrite (timestamp0_instant _ Hdue), Hid, Hver. }
  exists row. split; [done|]. split; [done|]. split; [done|].
  rewrite Hget, Hfrow. split; [done|].
  intros <-. by destruct task.
Qed.

(** X6.  No lost update: once an [Update] has succeeded, an [Update] that
    still carries the id and the version the first one started from, and
    that the backend answers in time, returns ErrEditConflict and leaves the
    first one's row as it is. *)
Theorem X6_stale_update_conflicts :
  forall link link' task stale db task' db',
    TaskModel.Update link task db = Returns (None, task', db') ->
    in_time link' ->
    task_ID stale = task_ID task -> task_Version stale = task_Version task ->
    TaskModel.Update link' stale db'
    = Returns (Some ErrEditConflict, stale,
               record_statement (update_statement stale) db').
Proof.
  intros link link' task stale db task' db' Hu Ht Hid Hver.
  apply Update_done in Hu as (-> & _ & ->).
  apply Update_conflict; [done|].
  unfold addressed. cbn [tasks with_tasks]. rewrite Hid, Hver.
  apply filter_none, Forall_forall.
  intros r' (r & -> & Hr)%list_elem_of_fmap Hhit.
  apply Is_true_true in Hhit.
  destruct (TaskModel.update_hits (task_ID task) (task_Version task) r)
    eqn:Hr0.
  - apply update_hits_spec in Hr0 as [_ Hv0].
    apply update_hits_spec in Hhit as [_ Hv1]. simpl in Hv1. lia.
  - by rewrite Hr0 in Hhit.
Qed.

(** X7.  Whatever [Update] returns, it has neither added, removed nor
    reordered a row, and no row has changed its id or its creation time;
    a row of another id than the entity's is exactly as before, and a row's
    version is the old one or the old one plus 1.  The categories are as
    before. *)
Theorem X7_update_touches_only_its_row :
  forall link task db r task' db',
    TaskModel.Update link task db = Returns (r, task', db') ->
    Forall2 (fun old new =>
               task_ID new = task_ID old
               /\ task_CreatedAt new = task_CreatedAt old
               /\ (task_ID old <> task_ID task -> new = old)
               /\ (task_Version new = task_Version old
                   \/ task_Version new = task_Version old + 1))
      (tasks db) (tasks db')
    /\ categories db' = categories db.
Proof.
  intros link task db r task' db' Hu.
  assert (Hsame : Forall2 (fun old new =>
               task_ID new = task_ID old
               /\ task_CreatedAt new = task_CreatedAt old
               /\ (task_ID old <> task_ID task -> new = old)
               /\ (task_Version new = task_Version old
                   \/ task_Version new = task_Version old + 1))
            (tasks db) (tasks db)).
  { apply Forall_Forall2_diag, Forall_true. intros row. auto. }
  destruct (Update_cases link task db)
    as [(e & _ & He)|[(_ & _ & He)|[(_ & _ & _ & He)
        |(after & msg & [|] & _ & _ & _ & _ & He)]]];
    rewrite He in Hu; injection Hu as _ _ <-; [done..| | |done].
  all: split; [|done]; cbn [tasks with_tasks].
  all: apply Forall2_fmap_r, Forall_Forall2_diag, Forall_forall; intros row _.
  all: unfold compose.
  all: destruct (TaskModel.update_hits (task_ID task) (task_Version task) row)
    eqn:Hhit; [|auto].
  all: apply update_hits_spec in Hhit as [Hid _].
  all: unfold TaskModel.updated_row;
    cbn [task_ID task_CreatedAt task_Version].
  all: split; [reflexivity|]; split; [reflexivity|];
    split; [intros Hne; by destruct Hne|]; by right.
Qed.

(** X8.  A category [Update] the backend answers in time gives every row of
    the entity's id the entity's name and description, keeps each row's id
    and creation time, and leaves the rows of other ids and the tasks as
    they are.  On well-formed tables holding a row of that id, [Get] then
    returns that name and description under the stored creation time: the
    last writer wins. *)
Theorem X8_category_update_overwrites :
  forall link link' category db,
    in_time link -> in_time link' ->
    exists db',
      CategoryModel.Update link category db = Returns (None, db')
      /\ Forall2 (fun old new =>
                    cat_ID new = cat_ID old
                    /\ cat_CreatedAt new = cat_CreatedAt old
                    /\ (cat_ID old <> cat_ID category -> new = old)
                    /\ (cat_ID old = cat_ID category ->
                        cat_Name new = cat_Name category
                        /\ cat_Description new = cat_Description category))
           (categories db) (categories db')
      /\ tasks db' = tasks db
      /\ (forall row, categories_ok db -> row ∈ categories db ->
            cat_ID row = cat_ID category ->
            CategoryModel.Get link' (cat_ID category) db'
            = Returns (inr (mkCategory (cat_ID category) (cat_CreatedAt row)
                              (cat_Name category) (cat_Description category)),
                       record_statement (SelectCategory (cat_ID category)) db')).
Proof.
  intros link link' category db (after & -> & Hafter) Ht.
  unfold CategoryModel.Update, roundtrip, CategoryModel.update_sql.
  rewrite expired_in_time by done.
  change (categories (record_statement ?s db)) with (categories db).
  set (f := fun r => if CategoryModel.has_id (cat_ID category) r
                     then mkCategory (cat_ID r) (cat_CreatedAt r)
                            (cat_Name category) (cat_Description category)
                     else r).
  assert (forall r, cat_ID (f r) = cat_ID r) as Hfid.
  { intros r. unfold f. by destruct (CategoryModel.has_id _ _). }
  eexists. split; [done|]. cbn [categories with_categories]. split; [|split].
  - apply Forall2_fmap_r, Forall_Forall2_diag, Forall_forall. intros row _.
    unfold f, CategoryModel.has_id.
    unfold compose.
    destruct (Z.eqb_spec (cat_ID row) (cat_ID category)) as [Heq|Hne];
      cbn [cat_ID cat_CreatedAt cat_Name cat_Description].
    + split; [reflexivity|]. split; [reflexivity|].
      split; [intros Hne; by destruct Hne|]. intros _. by split.
    + split; [reflexivity|]. split; [reflexivity|].
      split; [reflexivity|]. intros Heq. by destruct Hne.
  - done.
  - intros row (Hseq & Hnd & Hall) Hrow Hid.
    assert (1 <= cat_ID category) as Hpos.
    { rewrite Forall_forall in Hall. specialize (Hall row Hrow). lia. }
    rewrite category_Get_in_time by done. cbn [categories with_categories].
    unfold CategoryModel.has_id. rewrite <- Hid, <- (Hfid row).
    rewrite (filter_unique_id cat_ID).
    + unfold f, CategoryModel.has_id. rewrite Hid, Z.eqb_refl. by rewrite <- Hid.
    + rewrite <- list_fmap_compose.
      replace (cat_ID ∘ f <$> categories db) with (cat_ID <$> categories db);
        [done|].
      apply list_fmap_ext. intros i r _. simpl. by rewrite Hfid.
    + apply list_elem_of_fmap. eauto.
Qed.

(** X9.  After a successful category [Insert], the entity holds the
    caller's name and description, the next id and the creation time, and
    when ids are assigned from 1 on, [Get] of the assigned id, answered in
    time, returns exactly that entity. *)
Theorem X9_category_insert_then_get :
  forall link link' category db category' db',
    1 <= categories_id_seq db -> in_time link' ->
    CategoryModel.Insert link category db = Returns (None, category', db') ->
    category' = mkCategory (categories_id_seq db) (timestamp0 (clock db))
                  (cat_Name category) (cat_Description category)
    /\ CategoryModel.Get link' (cat_ID category') db'
       = Returns (inr category',
                  record_statement (SelectCategory (cat_ID category')) db').
Proof.
  intros link link' category db category' db' Hseq Ht.
  unfold CategoryModel.Insert, QueryRow, roundtrip, CategoryModel.insert_sql.
  destruct link as [after| |msg|after msg c];
    [|done..|by refuted].
  cbn [expired NoContext].
  change (categories (record_statement ?s db)) with (categories db).
  change (categories_id_seq (record_statement ?s db))
    with (categories_id_seq db).
  change (clock (record_statement ?s db)) with (clock db).
  destruct (_ <? _); [done|].
  destruct (existsb _ (categories db)) eqn:Hfresh; [done|].
  intros [= <- <-]. split; [done|].
  rewrite category_Get_in_time by done.
  cbn [set_cat_generated cat_ID categories with_categories].
  rewrite filter_app.
  replace (filter _ (categories db)) with (@nil Category).
  - rewrite filter_cons_True; [done|].
    unfold CategoryModel.has_id. apply Is_true_true, Z.eqb_refl.
  - symmetry. apply filter_none, Forall_forall. intros r Hr Hhit.
    apply not_true_iff_false in Hfresh. destruct Hfresh.
    apply existsb_exists. exists r.
    split; [by apply list_elem_of_In|by apply Is_true_true].
Qed.
End updates.

(** ** The entity validators *)

Section validators.

Lemma Valid_Check (v : Validator) ok key message :
  Valid (Check v ok key message) = Valid v && ok.
Proof.
  destruct ok; [by rewrite andb_true_r|]. rewrite andb_false_r.
  unfold Check, AddError. destruct (v !! key) as [m|] eqn:Hv.
  - by apply (Valid_lookup _ key m).
  - apply (Valid_lookup _ key message). by rewrite lookup_insert_eq.
Qed.

Lemma Valid_empty : Valid ∅ = true.
Proof. done. Qed.

Lemma Check_lookup_same (v : Validator) ok key message :
  Check v ok key message !! key
  = match v !! key with
    | Some m => Some m
    | None => if ok then None else Some message
    end.
Proof.
  unfold Check, AddError. destruct ok.
  - by destruct (v !! key).
  - destruct (v !! key) eqn:Hv; [done|]. by rewrite lookup_insert_eq.
Qed.

Lemma nonempty_spec s : nonempty s = true <-> s <> EmptyString.
Proof.
  unfold nonempty. destruct (String.eqb_spec s EmptyString); split; try done.
Qed.

Lemma After_not_zero ct : After ct date_2023_10_07 = true -> IsZero ct = false.
Proof.
  unfold After, IsZero. intros Hafter%Z.ltb_lt.
  apply bool_decide_eq_false. intros ->. vm_compute in Hafter. done.
Qed.

(** X10.  A task passes [ValidateTask] on a fresh validator exactly when its
    title and description are non-empty and at most 500 and 1000 bytes long,
    its due date lies strictly after 2023-10-07 00:00:00 and strictly before
    2060-01-01 00:00:00, and its priority, status and category are
    non-empty; a category passes [ValidateCategory] exactly when its name and
    description are non-empty and at most 100 and 500 bytes long.  (The
    zero-date check adds nothing to that: a zero date is not after
    2023-10-07.) *)
Theorem X10_entity_validation_passes_iff :
  (forall task,
     Valid (ValidateTask ∅ task) = true
     <-> task_Title task <> EmptyString /\ len (task_Title task) <= 500
         /\ task_Description task <> EmptyString
         /\ len (task_Description task) <= 1000
         /\ UnixNano date_2023_10_07 < UnixNano (task_DueDate task)
            < UnixNano date_2060_01_01
         /\ task_Priority task <> EmptyString
         /\ task_Status task <> EmptyString
         /\ task_Category task <> EmptyString)
  /\ (forall category,
        Valid (ValidateCategory ∅ category) = true
        <-> cat_Name category <> EmptyString /\ len (cat_Name category) <= 100
            /\ cat_Description category <> EmptyString
            /\ len (cat_Description category) <= 500).
Proof.
  split.
  - intros task. unfold ValidateTask. rewrite !Valid_Check, Valid_empty.
    rewrite andb_true_l, !andb_true_iff, !nonempty_spec, !Z.leb_le.
    unfold Before. rewrite Z.ltb_lt. split.
    + intros (((((((((? & ?) & ?) & ?) & _) & ?) & Ha) & ?) & ?) & ?).
      unfold After in Ha. apply Z.ltb_lt in Ha. tauto.
    + intros (? & ? & ? & ? & [Ha ?] & ? & ? & ?).
      assert (After (task_DueDate task) date_2023_10_07 = true) as Hafter
        by (by apply Z.ltb_lt).
      rewrite (After_not_zero _ Hafter). tauto.
  - intros category. unfold ValidateCategory.
    rewrite !Valid_Check, Valid_empty.
    rewrite andb_true_l, !andb_true_iff, !nonempty_spec, !Z.leb_le. tauto.
Qed.

(** X11.  Validation only adds: a message a validator already holds stays as
    it is, and a key no check names is left alone.  For a field without a
    message so far, [ValidateTask] and [ValidateCategory] record the message
    of the first check of that field that fails, and none when all pass; a
    zero due date is reported as missing, not as too early. *)
Theorem X11_entity_validation_messages :
  (forall (v : Validator) task,
     let v' := ValidateTask v task in
     (forall k m, v !! k = Some m -> v' !! k = Some m)
     /\ (forall k, k ∉ ["title"; "description"; "due_date"; "priority";
                        "status"; "category"] -> v' !! k = v !! k)
     /\ (v !! "title" = None ->
         v' !! "title"
         = if negb (nonempty (task_Title task)) then Some "must be provided"
           else if 500 <? len (task_Title task)
                then Some "must not be more than 500 bytes long"
                else None)
     /\ (v !! "description" = None ->
         v' !! "description"
         = if negb (nonempty (task_Description task))
           then Some "must be provided"
           else if 1000 <? len (task_Description task)
                then Some "must not be more than 1000 bytes long"
                else None)
     /\ (v !! "due_date" = None ->
         v' !! "due_date"
         = if IsZero (task_DueDate task) then Some "must be provided"
           else if negb (Before (task_DueDate task) date_2060_01_01)
                then Some "must be before 2060"
                else if negb (After (task_DueDate task) date_2023_10_07)
                     then Some "must be after 2023-10-07"
                     else None)
     /\ (v !! "priority" = None ->
         v' !! "priority"
         = if nonempty (task_Priority task) then None
           else Some "must be provided")
     /\ (v !! "status" = None ->
         v' !! "status"
         = if nonempty (task_Status task) then None
           else Some "must be provided")
     /\ (v !! "category" = None ->
         v' !! "category"
         = if nonempty (task_Category task) then None
           else Some "must be provided"))
  /\ (forall (v : Validator) category,
        let v' := ValidateCategory v category in
        (forall k m, v !! k = Some m -> v' !! k = Some m)
        /\ (forall k, k ∉ ["name"; "description"] -> v' !! k = v !! k)
        /\ (v !! "name" = None ->
            v' !! "name"
            = if negb (nonempty (cat_Name category))
              then Some "must be provided"
              else if 100 <? len (cat_Name category)
                   then Some "must not be more than 100 bytes long"
                   else None)
        /\ (v !! "description" = None ->
            v' !! "description"
            = if negb (nonempty (cat_Description category))
              then Some "must be provided"
              else if 500 <? len (cat_Description category)
                   then Some "must not be more than 500 bytes long"
                   else None)).
Proof.
  assert (Hkeep : forall (v : Validator) ok key message k m,
             v !! k = Some m -> Check v ok key message !! k = Some m).
  { intros v ok key message k m Hv. destruct (decide (key = k)) as [->|Hk].
    - by rewrite Check_lookup_same, Hv.
    - by rewrite Check_lookup_other. }
  assert (Hltb : forall a b, (a <=? b) = negb (b <? a)).
  { intros a b. destruct (Z.leb_spec a b), (Z.ltb_spec b a); done || lia. }
  split.
  - intros v task v'. subst v'. unfold ValidateTask.
    split; [|split; [|split; [|split; [|split; [|split; [|split]]]]]].
    + intros k m Hv. by do 10 apply Hkeep.
    + intros k Hk. rewrite !Check_lookup_other; [done|intros <-; apply Hk..];
        apply list_elem_of_In; simpl; auto 10.
    + intros Hv. rewrite !Check_lookup_other by done.
      rewrite !Check_lookup_same, Hv, Hltb.
      by destruct (nonempty _), (_ <? _).
    + intros Hv. rewrite !Check_lookup_other by done.
      rewrite !Check_lookup_same, !Check_lookup_other by done.
      rewrite Hv, Hltb. by destruct (nonempty _), (_ <? _).
    + intros Hv. rewrite !Check_lookup_other by done.
      rewrite !Check_lookup_same, !Check_lookup_other by done.
      rewrite Hv. by destruct (IsZero _), (Before _ _), (After _ _).
    + intros Hv. rewrite !Check_lookup_other by done.
      rewrite !Check_lookup_same, !Check_lookup_other by done.
      by rewrite Hv.
    + intros Hv. rewrite !Check_lookup_other by done.
      rewrite !Check_lookup_same, !Check_lookup_other by done.
      by rewrite Hv.
    + intros Hv.
      rewrite !Check_lookup_same, !Check_lookup_other by done.
      by rewrite Hv.
  - intros v category v'. subst v'. unfold ValidateCategory.
    split; [|split; [|split]].
    + intros k m Hv. by do 4 apply Hkeep.
    + intros k Hk. rewrite !Check_lookup_other; [done|intros <-; apply Hk..];
        apply list_elem_of_In; simpl; auto 10.
    + intros Hv. rewrite !Check_lookup_other by done.
      rewrite !Check_lookup_same, Hv, Hltb.
      by destruct (nonempty _), (_ <? _).
    + intros Hv.
      rewrite !Check_lookup_same, !Check_lookup_other by done.
      rewrite Hv, Hltb. by destruct (nonempty _), (_ <? _).
Qed.
End validators.


(** ** The wire form of a temporal value *)

Section wire.

Lemma isDigit_digit d : 0 <= d <= 9 -> isDigit (digit d) = true.
Proof. intros Hd. by apply digit_spec. Qed.

Lemma canonical_Format t : calendar t -> canonical_layout (Format t) = true.
Proof.
  destruct t as [y m d h mi s n].
  intros (Hy & Hm & Hd & Hh & Hmi & Hs); simpl in *.
  assert (d <= 31).
  { unfold daysIn in Hd. repeat case_match; lia. }
  unfold Format; cbn [t_year t_month t_day t_hour t_minute t_second].
  rewrite appendInt_4, !appendInt_2 by lia. push_append.
  unfold canonical_layout. cbn [list_ascii_of_string forallb].
  rewrite !isDigit_digit by divmod. reflexivity.
Qed.

Lemma drop_fraction_valid t : calendar t -> valid_instant (drop_fraction t).
Proof. by destruct t. Qed.

Lemma atoi_digits_bound ds acc :
  string_forall isDigit ds = true -> 0 <= acc ->
  acc * 10 ^ Z.of_nat (String.length ds)
  <= atoi_digits ds acc
  < (acc + 1) * 10 ^ Z.of_nat (String.length ds).
Proof.
  revert acc. induction ds as [|c ds IH]; intros acc Hds Hacc.
  - simpl. lia.
  - simpl in Hds. apply andb_prop in Hds as [Hc Hds].
    apply isDigit_inv in Hc as [Hc _].
    cbn [atoi_digits String.length]. rewrite Nat2Z.inj_succ, Z.pow_succ_r by lia.
    specialize (IH (acc * 10 + digitVal c) Hds ltac:(lia)).
    assert (0 < 10 ^ Z.of_nat (String.length ds)) by (apply Z.pow_pos_nonneg; lia).
    nia.
Qed.

Lemma take_string_digits n ds :
  string_forall isDigit ds = true ->
  string_forall isDigit (take_string n ds) = true
  /\ (String.length (take_string n ds) <= n)%nat.
Proof.
  revert ds. induction n as [|n IH]; intros ds Hds; [by split; simpl; lia|].
  destruct ds as [|c ds]; [by split; simpl; lia|].
  simpl in Hds. apply andb_prop in Hds as [Hc Hds].
  destruct (IH ds Hds) as [IH1 IH2]. simpl. rewrite Hc, IH1. split; [done|lia].
Qed.

Lemma parseNanoseconds_bound ds :
  string_forall isDigit ds = true -> 0 <= parseNanoseconds ds < 10 ^ 9.
Proof.
  intros Hds. unfold parseNanoseconds.
  destruct (take_string_digits 9 ds Hds) as [Hk Hlen].
  pose proof (atoi_digits_bound _ 0 Hk ltac:(lia)) as Hb.
  set (k := Z.of_nat (String.length (take_string 9 ds))) in *.
  assert (0 <= k <= 9) as Hk9 by lia.
  assert (0 < 10 ^ (9 - k)) by (apply Z.pow_pos_nonneg; lia).
  assert (10 ^ 9 = 10 ^ k * 10 ^ (9 - k)) as ->.
  { rewrite <- Z.pow_add_r by lia. f_equal. lia. }
  nia.
Qed.

(** X12.  The JSON form of a calendar reading is its canonical layout
    YYYY-MM-DD HH:MM:SS in quotes, whatever its fraction of a second, and
    decoding that text gives the reading with the fraction dropped: a value
    with nanoseconds does not survive the round trip, its second does. *)
Theorem X12_json_round_trip_drops_the_fraction :
  forall t, calendar t ->
    canonical_layout (Format t) = true
    /\ MarshalJSON t = Quote (Format (drop_fraction t))
    /\ UnmarshalJSON (MarshalJSON t) = Some (inr (drop_fraction t)).
Proof.
  intros t Ht. split; [by apply canonical_Format|].
  assert (MarshalJSON t = MarshalJSON (drop_fraction t)) as -> by by destruct t.
  split; [done|]. by apply Unmarshal_Marshal, drop_fraction_valid.
Qed.

(** X13.  Whatever [UnmarshalJSON] accepts is a real date and time of day:
    month 1..12, a day the month has in that year, hour below 24, minute and
    second below 60, and a fraction of 0..999,999,999 nanoseconds; encoding
    the result and decoding it again gives the same second.  The only error
    it reports is ErrInvalidTimeFormat. *)
Theorem X13_unmarshal_yields_calendar_readings :
  forall jsonValue,
    (forall t, UnmarshalJSON jsonValue = Some (inr t) ->
       calendar t /\ 0 <= t_nsec t < 10 ^ 9
       /\ UnmarshalJSON (MarshalJSON t) = Some (inr (drop_fraction t)))
    /\ (forall e, UnmarshalJSON jsonValue = Some (inl e) ->
          e = ErrInvalidTimeFormat).
Proof.
  intros jsonValue. unfold UnmarshalJSON at 1 3.
  destruct (Unquote jsonValue) as [[[]|text]|]; cbn [mbind option_bind];
    [by split; [|intros e [= <-]]| |done].
  destruct (Parse text) as [t'|] eqn:HP; [|by split; [|intros e [= <-]]].
  split; [|done]. intros t [= <-].
  apply Parse_inv in HP as [Hcal (n & h & f & _ & Hf & _)].
  split; [done|]. split.
  - destruct Hf as [[_ ->]|(c & ds & _ & _ & _ & Hds & ->)]; [done|].
    by apply parseNanoseconds_bound.
  - assert (MarshalJSON t' = MarshalJSON (drop_fraction t')) as ->
      by by destruct t'.
    by apply Unmarshal_Marshal, drop_fraction_valid.
Qed.
End wire.


(** ** Reads, refusals and paging *)

Section reads.
Context `{Engine}.

Lemma same_data_refl db : same_data db db.
Proof. by repeat split. Qed.

Lemma same_data_record stmt db db0 :
  same_data db db0 -> same_data db (record_statement stmt db0).
Proof. done. Qed.

Lemma filter_same_length {A} (P : A -> Prop) `{forall x, Decision (P x)} l :
  length (filter P l) = length l -> filter P l = l.
Proof.
  induction l as [|x l IH]; [done|].
  destruct (decide (P x)) as [Hx|Hx].
  - rewrite filter_cons_True by done. simpl. intros [= Hlen]. by rewrite IH.
  - rewrite filter_cons_False by done. simpl. intros Hlen.
    pose proof (length_filter P l). lia.
Qed.

(** X14.  [Get] and [GetAll] never change the data, whatever they return;
    an [Update] that returns ErrEditConflict and a [Delete] that returns
    ErrRecordNotFound have changed nothing either: rows, sequences and
    clock are as before. *)
Theorem X14_reads_and_refusals_change_no_data :
  (forall link id db r db',
      TaskModel.Get link id db = Returns (r, db') -> same_data db db')
  /\ (forall link title f db r db',
        TaskModel.GetAll link title f db = Returns (r, db') ->
        same_data db db')
  /\ (forall link task db task' db',
        TaskModel.Update link task db
        = Returns (Some ErrEditConflict, task', db') ->
        same_data db db')
  /\ (forall link id db db',
        TaskModel.Delete link id db = Returns (Some ErrRecordNotFound, db') ->
        same_data db db')
  /\ (forall link id db r db',
        CategoryModel.Get link id db = Returns (r, db') -> same_data db db')
  /\ (forall link f db r db',
        CategoryModel.GetAll link f db = Returns (r, db') -> same_data db db')
  /\ (forall link id db db',
        CategoryModel.Delete link id db
        = Returns (Some ErrRecordNotFound, db') ->
        same_data db db').
Proof.
  split; [|split; [|split; [|split; [|split; [|split]]]]].
  - intros link id db r db'. unfold TaskModel.Get.
    destruct (id <? 1); [intros [= _ <-]; apply same_data_refl|].
    destruct (QueryRow _ _ _ _ _) as [[[scanned err] db1]| |] eqn:Hq;
      try done.
    assert (same_data db db1)
      by (eapply (QueryRow_keeps (same_data db)); [| | |exact Hq];
          auto using same_data_refl, same_data_record).
    destruct err as [e|]; [destruct e|]; by intros [= _ <-].
  - intros link title f db r db'. unfold TaskModel.GetAll.
    destruct (sortColumn f) as [col|]; [|done].
    destruct (roundtrip _ _ _ _ _) as [[[e|rows] db1]| |] eqn:Hq; try done.
    all: assert (same_data db db1)
      by (eapply (roundtrip_keeps (same_data db)); [| | |exact Hq];
          auto using same_data_refl, same_data_record).
    + by intros [= _ <-].
    + destruct (scan_rows rows). by intros [= _ <-].
  - intros link task db task' db' Hu.
    destruct (Update_cases link task db)
      as [(e & _ & He)|[(_ & _ & He)|[(_ & _ & _ & He)
          |(after & msg & c & _ & _ & _ & _ & He)]]];
      rewrite He in Hu; [| |done..];
      (assert (db' = record_statement (update_statement task) db) as ->
         by congruence); done.
  - intros link id db db'.
    unfold TaskModel.Delete, roundtrip, TaskModel.delete_sql.
    destruct (id <? 1); [intros [= <-]; apply same_data_refl|].
    destruct link as [after| |msg|after msg c];
    [|done..|by refuted].
    destruct (expired _ _); [done|].
    rewrite tasks_record_statement.
    destruct (_ =? 0) eqn:Hzero; [|done]. intros [= <-].
    apply Z.eqb_eq in Hzero.
    rewrite filter_same_length by lia. by repeat split.
  - intros link id db r db'. unfold CategoryModel.Get.
    destruct (id <? 1); [intros [= _ <-]; apply same_data_refl|].
    destruct (QueryRow _ _ _ _ _) as [[[scanned err] db1]| |] eqn:Hq;
      try done.
    assert (same_data db db1)
      by (eapply (QueryRow_keeps (same_data db)); [| | |exact Hq];
          auto using same_data_refl, same_data_record).
    destruct err as [e|]; [destruct e|]; by intros [= _ <-].
  - intros link f db r db'. unfold CategoryModel.GetAll.
    destruct (sortColumn f) as [col|]; [|done].
    destruct (roundtrip _ _ _ _ _) as [[[e|rows] db1]| |] eqn:Hq; try done.
    all: assert (same_data db db1)
      by (eapply (roundtrip_keeps (same_data db)); [| | |exact Hq];
          auto using same_data_refl, same_data_record).
    + by intros [= _ <-].
    + destruct (scan_rows rows). by intros [= _ <-].
  - intros link id db db'.
    unfold CategoryModel.Delete, roundtrip, CategoryModel.delete_sql.
    destruct (id <? 1); [intros [= <-]; apply same_data_refl|].
    destruct link as [after| |msg|after msg c];
    [|done..|by refuted].
    destruct (expired _ _); [done|].
    change (categories (record_statement ?s db)) with (categories db).
    destruct (_ =? 0) eqn:Hzero; [|done]. intros [= <-].
    apply Z.eqb_eq in Hzero.
    rewrite filter_same_length by lia. by repeat split.
Qed.

Lemma concat_pages {A} (l : list A) (p n : nat) :
  concat ((fun k => take p (drop ((k - 1) * p) l)) <$> seq 1 n)
  = take (n * p) l.
Proof.
  induction n as [|n IH]; [done|].
  rewrite seq_S, fmap_app, concat_app, IH. simpl.
  rewrite app_nil_r. replace (n - 0)%nat with n by lia.
  rewrite take_take_drop. f_equal. lia.
Qed.

Lemma sortColumn_safelisted page p sort safelist :
  sort ∈ safelist ->
  sortColumn (mkFilters page p sort safelist) = Some (TrimDash sort).
Proof. intros Hin. unfold sortColumn. simpl. by rewrite bool_decide_eq_true_2. Qed.

Lemma page_offset (k : nat) p :
  (1 <= k)%nat -> 0 < p ->
  0 <= offset (mkFilters (Z.of_nat k) p EmptyString [])
  /\ Z.to_nat ((Z.of_nat k - 1) * p) = ((k - 1) * Z.to_nat p)%nat.
Proof.
  intros Hk Hp. unfold offset. simpl. split; [nia|].
  rewrite Z2Nat.inj_mul by lia. f_equal. lia.
Qed.

(** X15.  Paging through a listing at a positive page size, with a sort
    key of the safelist and a backend that answers in time, hands out the
    ordered matching rows from the first on: pages 1 to n, one after the
    other, are the first n times pageSize rows of the ordered listing, so
    once n times pageSize reaches the number of matching rows the pages
    together hold every matching row exactly as often as the table does.
    The same holds for categories, over all rows. *)
Theorem X15_pages_cover_the_listing :
  (forall link title safelist sort p db key (n : nat),
      in_time link -> sort ∈ safelist ->
      TaskModel.column (TrimDash sort) = Some key -> 0 < p ->
      let matching :=
        filter (fun r => TaskModel.title_matches title r) (tasks db) in
      let pages :=
        concat ((fun k => listed (TaskModel.GetAll link title
                                    (mkFilters (Z.of_nat k) p sort safelist) db))
                  <$> seq 1 n) in
      pages = take (n * Z.to_nat p)
                (merge_sort (row_le task_ID key (HasDash sort)) matching)
      /\ ((length matching <= n * Z.to_nat p)%nat -> pages ≡ₚ matching))
  /\ (forall link safelist sort p db key (n : nat),
        in_time link -> sort ∈ safelist ->
        CategoryModel.column (TrimDash sort) = Some key -> 0 < p ->
        let pages :=
          concat ((fun k => listed (CategoryModel.GetAll link
                                      (mkFilters (Z.of_nat k) p sort safelist)
                                      db))
                    <$> seq 1 n) in
        pages = take (n * Z.to_nat p)
                  (merge_sort (row_le cat_ID key (HasDash sort)) (categories db))
        /\ ((length (categories db) <= n * Z.to_nat p)%nat ->
            pages ≡ₚ categories db)).
Proof.
  split.
  - intros link title safelist sort p db key n Ht Hin Hkey Hp matching pages.
    assert (pages = take (n * Z.to_nat p)
                      (merge_sort (row_le task_ID key (HasDash sort)) matching))
      as Hpages.
    { subst pages. rewrite <- concat_pages. f_equal.
      apply list_fmap_ext. intros i k Hk.
      apply lookup_seq in Hk as [-> _].
      destruct (page_offset (1 + i) p ltac:(lia) Hp) as [Hoff Hnat].
      rewrite (TaskModel_GetAll_in_time link title _ db (TrimDash sort) key);
        [|done|by apply sortColumn_safelisted|done|unfold limit; simpl; lia
         |exact Hoff].
      unfold listed, window, limit, offset. cbn [PageSize Page Sort].
      by rewrite Hnat. }
    split; [done|]. intros Hlen. rewrite Hpages, take_ge.
    + apply merge_sort_Permutation.
    + by rewrite (Permutation_length (merge_sort_Permutation _ matching)).
  - intros link safelist sort p db key n Ht Hin Hkey Hp pages.
    assert (pages = take (n * Z.to_nat p)
                      (merge_sort (row_le cat_ID key (HasDash sort))
                         (categories db)))
      as Hpages.
    { subst pages. rewrite <- concat_pages. f_equal.
      apply list_fmap_ext. intros i k Hk.
      apply lookup_seq in Hk as [-> _].
      destruct (page_offset (1 + i) p ltac:(lia) Hp) as [Hoff Hnat].
      rewrite (CategoryModel_GetAll_in_time link _ db (TrimDash sort) key);
        [|done|by apply sortColumn_safelisted|done|unfold limit; simpl; lia
         |exact Hoff].
      unfold listed, window, limit, offset. cbn [PageSize Page Sort].
      by rewrite Hnat. }
    split; [done|]. intros Hlen. rewrite Hpages, take_ge.
    + apply merge_sort_Permutation.
    + by rewrite (Permutation_length (merge_sort_Permutation _ (categories db))).
Qed.
End reads.


(** ** The item handlers *)

Section handlers_create.
Context `{Engine}.

Lemma Insert_error link task db e task' db' :
  TaskModel.Insert link task db = Returns (Some e, task', db') ->
  is_backend_error e = true.
Proof.
  unfold TaskModel.Insert, QueryRow, roundtrip.
  destruct link as [after| |msg|after msg c]; cbn [expired NoContext];
    [|done| |].
  - unfold TaskModel.insert_sql.
    destruct (_ || _); [intros Heq; by simplify_eq|].
    destruct (existsb _ _); intros Heq; by simplify_eq.
  - intros Heq; by simplify_eq.
  - unfold TaskModel.insert_sql.
    destruct (_ || _); [intros Heq; by simplify_eq|].
    destruct (existsb _ _); intros Heq; by simplify_eq.
Qed.

Lemma category_Insert_error link category db e category' db' :
  CategoryModel.Insert link category db = Returns (Some e, category', db') ->
  is_backend_error e = true.
Proof.
  unfold CategoryModel.Insert, QueryRow, roundtrip.
  destruct link as [after| |msg|after msg c]; cbn [expired NoContext];
    [|done| |].
  - unfold CategoryModel.insert_sql.
    destruct (_ <? _); [intros Heq; by simplify_eq|].
    destruct (existsb _ _); intros Heq; by simplify_eq.
  - intros Heq; by simplify_eq.
  - unfold CategoryModel.insert_sql.
    destruct (_ <? _); [intros Heq; by simplify_eq|].
    destruct (existsb _ _); intros Heq; by simplify_eq.
Qed.

Lemma category_Insert_success link category db category' db' :
  CategoryModel.Insert link category db = Returns (None, category', db') ->
  category' = mkCategory (categories_id_seq db) (timestamp0 (clock db))
                (cat_Name category) (cat_Description category)
  /\ categories db' = categories db ++ [category'].
Proof.
  unfold CategoryModel.Insert, QueryRow, roundtrip, CategoryModel.insert_sql.
  destruct link as [after| |msg|after msg c];
    [|done..|by refuted].
  cbn [expired NoContext].
  change (categories (record_statement ?s db)) with (categories db).
  change (categories_id_seq (record_statement ?s db))
    with (categories_id_seq db).
  change (clock (record_statement ?s db)) with (clock db).
  destruct (_ <? _); [done|].
  destruct (existsb _ (categories db)); [done|].
  by intros [= <- <-].
Qed.

Lemma category_Insert_succeeds after category db :
  categories_id_seq db <= max_int64 -> categories_ok db ->
  exists db',
    CategoryModel.Insert (Responds after) category db
    = Returns (None,
               mkCategory (categories_id_seq db) (timestamp0 (clock db))
                 (cat_Name category) (cat_Description category), db').
Proof.
  intros Hseq Hok.
  unfold CategoryModel.Insert, QueryRow, roundtrip, CategoryModel.insert_sql.
  cbn [expired NoContext].
  change (categories (record_statement ?s db)) with (categories db).
  change (categories_id_seq (record_statement ?s db))
    with (categories_id_seq db).
  replace (max_int64 <? categories_id_seq db) with false
    by (symmetry; apply Z.ltb_ge; lia).
  rewrite fresh_category_id by done. eauto.
Qed.

(** X16.  The create handlers answer a request in one of four ways and no
    other: 400 for a body [readJSON] rejects and 422 with the validator's
    messages for an entity that fails validation, both with nothing sent to
    the store; 500 with a backend error; or 201 with the stored entity,
    which carries the client's fields, the next id of the sequence, the
    backend's creation time and (tasks) the next user id and version 1,
    whatever id, version or user id the client may have had in mind, and a
    Location of /v1/tasks/ or /v1/categories/ followed by that id.  On
    well-formed tables whose sequences have not run out, a valid entity is
    answered with 201 whenever the backend answers. *)
Theorem X16_create_handlers_answer :
  (forall link body db reply db',
      createTaskHandler link body db = Returns (reply, db') ->
      (exists err,
          body = inl err /\ reply = badRequestResponse err /\ db' = db)
      \/ (exists input,
            body = inr input
            /\ Valid (ValidateTask ∅ (new_task input)) = false
            /\ reply = errorResponse (failedValidationResponse
                                        (ValidateTask ∅ (new_task input)))
            /\ db' = db)
      \/ (exists input err,
            body = inr input
            /\ Valid (ValidateTask ∅ (new_task input)) = true
            /\ reply = errorResponse (serverErrorResponse err)
            /\ is_backend_error err = true)
      \/ (exists input,
            body = inr input
            /\ Valid (ValidateTask ∅ (new_task input)) = true
            /\ reply
               = writeJSON StatusCreated
                   (taskEnvelope
                      (mkTask (tasks_id_seq db) (timestamp0 (clock db))
                         (input_Title input) (input_Description input)
                         (input_DueDate input) (input_Priority input)
                         (input_Status input) (input_Category input)
                         (tasks_user_id_seq db) 1))
                   (Some (String.append "/v1/tasks/"
                            (Sprintf_d (tasks_id_seq db))))
            /\ tasks db'
               = tasks db
                 ++ [mkTask (tasks_id_seq db) (timestamp0 (clock db))
                       (input_Title input) (input_Description input)
                       (timestamp0 (input_DueDate input))
                       (input_Priority input) (input_Status input)
                       (input_Category input) (tasks_user_id_seq db) 1]))
  /\ (forall after input db,
        store_ok db -> tasks_id_seq db <= max_int64 ->
        tasks_user_id_seq db <= max_int64 ->
        Valid (ValidateTask ∅ (new_task input)) = true ->
        exists task db',
          createTaskHandler (Responds after) (inr input) db
          = Returns (writeJSON StatusCreated (taskEnvelope task)
                       (Some (String.append "/v1/tasks/"
                                (Sprintf_d (task_ID task)))), db'))
  /\ (forall link body db reply db',
        createCategoryHandler link body db = Returns (reply, db') ->
        (exists err,
            body = inl err /\ reply = badRequestResponse err /\ db' = db)
        \/ (exists input,
              body = inr input
              /\ Valid (ValidateCategory ∅ (new_category input)) = false
              /\ reply = errorResponse (failedValidationResponse
                                          (ValidateCategory ∅
                                             (new_category input)))
              /\ db' = db)
        \/ (exists input err,
              body = inr input
              /\ Valid (ValidateCategory ∅ (new_category input)) = true
              /\ reply = errorResponse (serverErrorResponse err)
              /\ is_backend_error err = true)
        \/ (exists input,
              body = inr input
              /\ Valid (ValidateCategory ∅ (new_category input)) = true
              /\ reply
                 = writeJSON StatusCreated
                     (categoryEnvelope
                        (mkCategory (categories_id_seq db)
                           (timestamp0 (clock db)) (input_Name input)
                           (input_CatDescription input)))
                     (Some (String.append "/v1/categories/"
                              (Sprintf_d (categories_id_seq db))))
              /\ categories db'
                 = categories db
                   ++ [mkCategory (categories_id_seq db)
                         (timestamp0 (clock db)) (input_Name input)
                         (input_CatDescription input)]))
  /\ (forall after input db,
        store_ok db -> categories_id_seq db <= max_int64 ->
        Valid (ValidateCategory ∅ (new_category input)) = true ->
        exists category db',
          createCategoryHandler (Responds after) (inr input) db
          = Returns (writeJSON StatusCreated (categoryEnvelope category)
                       (Some (String.append "/v1/categories/"
                                (Sprintf_d (cat_ID category)))), db')).
Proof.
  split; [|split; [|split]].
  - intros link [err|input] db reply db'; unfold createTaskHandler.
    { intros [= <- <-]. left. eauto. }
    destruct (Valid _) eqn:Hvalid; cbn [negb].
    2: { intros [= <- <-]. right. left. eauto. }
    destruct (TaskModel.Insert _ _ _) as [[[[e|] task'] db1]| |] eqn:Hins;
      [| |done..]; intros [= <- <-]; right; right.
    + left. exists input, e. by apply Insert_error in Hins.
    + right. exists input.
      apply Insert_success in Hins as (-> & _ & Hrows).
      split; [done|]. split; [done|]. by split.
  - intros after input db [Htasks _] Hid Huid Hvalid. unfold createTaskHandler.
    rewrite Hvalid. cbn [negb].
    destruct (Insert_succeeds after (new_task input) db Hid Huid
                (fresh_task_id db Htasks)) as [db' ->].
    eauto.
  - intros link [err|input] db reply db'; unfold createCategoryHandler.
    { intros [= <- <-]. left. eauto. }
    destruct (Valid _) eqn:Hvalid; cbn [negb].
    2: { intros [= <- <-]. right. left. eauto. }
    destruct (CategoryModel.Insert _ _ _) as [[[[e|] category'] db1]| |]
      eqn:Hins; [| |done..]; intros [= <- <-]; right; right.
    + left. exists input, e. by apply category_Insert_error in Hins.
    + right. exists input.
      apply category_Insert_success in Hins as (-> & Hrows).
      split; [done|]. split; [done|]. by split.
  - intros after input db [_ Hcats] Hid Hvalid. unfold createCategoryHandler.
    rewrite Hvalid. cbn [negb].
    destruct (category_Insert_succeeds after (new_category input) db Hid Hcats)
      as [db' ->].
    eauto.
Qed.
End handlers_create.


Section handlers_read.
Context `{Engine}.







End handlers_read.


Section handlers_update.
Context `{Engine}.

Lemma task_Get_row link db row :
  in_time link -> tasks_ok db -> row ∈ tasks db ->
  TaskModel.Get link (task_ID row) db
  = Returns (inr row, record_statement (SelectTask (task_ID row)) db).
Proof.
  intros Ht (_ & Hnd & Hall) Hrow.
  rewrite Forall_forall in Hall. specialize (Hall row Hrow).
  rewrite task_Get_in_time by (done || lia).
  unfold TaskModel.has_id. by rewrite (filter_unique_id task_ID).
Qed.

Lemma category_Get_row link db row :
  in_time link -> categories_ok db -> row ∈ categories db ->
  CategoryModel.Get link (cat_ID row) db
  = Returns (inr row, record_statement (SelectCategory (cat_ID row)) db).
Proof.
  intros Ht (_ & Hnd & Hall) Hrow.
  rewrite Forall_forall in Hall. specialize (Hall row Hrow).
  rewrite category_Get_in_time by (done || lia).
  unfold CategoryModel.has_id. by rewrite (filter_unique_id cat_ID).
Qed.

Lemma task_Get_none link i db :
  in_time link -> i < 1 \/ Forall (fun row => task_ID row <> i) (tasks db) ->
  exists db', TaskModel.Get link i db = Returns (inl ErrRecordNotFound, db')
              /\ (db' = db \/ db' = record_statement (SelectTask i) db).
Proof.
  intros Ht Hnone. destruct (decide (i < 1)) as [Hi|Hi].
  - exists db. split; [|by left]. unfold TaskModel.Get.
    by replace (i <? 1) with true by (symmetry; apply Z.ltb_lt; lia).
  - destruct Hnone as [?|Hnone]; [done|]. eexists. split; [|by right].
    rewrite task_Get_in_time by (done || lia).
    unfold TaskModel.has_id. by rewrite (filter_absent_id task_ID).
Qed.

Lemma category_Get_none link i db :
  in_time link ->
  i < 1 \/ Forall (fun row => cat_ID row <> i) (categories db) ->
  exists db', CategoryModel.Get link i db
              = Returns (inl ErrRecordNotFound, db')
              /\ (db' = db \/ db' = record_statement (SelectCategory i) db).
Proof.
  intros Ht Hnone. destruct (decide (i < 1)) as [Hi|Hi].
  - exists db. split; [|by left]. unfold CategoryModel.Get.
    by replace (i <? 1) with true by (symmetry; apply Z.ltb_lt; lia).
  - destruct Hnone as [?|Hnone]; [done|]. eexists. split; [|by right].
    rewrite category_Get_in_time by (done || lia).
    unfold CategoryModel.has_id. by rewrite (filter_absent_id cat_ID).
Qed.

(** X18.  [updateTaskHandler], with a backend that answers both statements
    in time and no other request changing the tasks in between, for a
    stored row on well-formed tables and a patch whose result passes
    validation: the answer is 200 with the row's fields overwritten by the
    fields the body holds, the others kept, and the version advanced by
    one; the table holds that entity (its due date at the precision of the
    column) in the place of the row, and every other row as before. *)
Theorem X18_update_handler_patches_the_stored_row :
  forall link_get link_update input others db row,
    in_time link_get -> in_time link_update -> tasks_ok db ->
    row ∈ tasks db ->
    tasks (others (record_statement (SelectTask (task_ID row)) db)) = tasks db ->
    Valid (ValidateTask ∅ (patch_task row input)) = true ->
    task_Version row < max_int32 ->
    let entity := set_Version (patch_task row input) (task_Version row + 1) in
    exists db',
      updateTaskHandler link_get link_update (Some (task_ID row)) (inr input)
        others db
      = Returns (writeJSON StatusOK (taskEnvelope entity) None, db')
      /\ tasks db'
         = (fun r => if decide (task_ID r = task_ID row)
                     then mkTask (task_ID row) (task_CreatedAt row)
                            (task_Title entity) (task_Description entity)
                            (timestamp0 (task_DueDate entity))
                            (task_Priority entity) (task_Status entity)
                            (task_Category entity) (task_UserID row)
                            (task_Version row + 1)
                     else r) <$> tasks db.
Proof.
  intros link_get link_update input others db row Hg Hu Hok Hrow Hothers
    Hvalid Hfit entity.
  unfold updateTaskHandler. rewrite task_Get_row by done.
  rewrite Hvalid. cbn [negb].
  set (db1 := others (record_statement (SelectTask (task_ID row)) db)) in *.
  rewrite (Update_succeeds link_update (patch_task row input) db1 row);
    [|done|by rewrite Hothers|done..].
  eexists. split; [done|]. cbn [tasks with_tasks]. rewrite Hothers.
  apply list_fmap_ext. intros i r Hr. cbn [patch_task task_ID task_Version].
  destruct Hok as (_ & Hnd & _).
  destruct (TaskModel.update_hits (task_ID row) (task_Version row) r) eqn:Hhit.
  - apply update_hits_spec in Hhit as [Hid Hver].
    rewrite decide_True by done.
    assert (r = row) as ->.
    { apply list_elem_of_lookup in Hrow as [j Hj].
      assert (i = j) as ->; [|congruence].
      eapply NoDup_lookup; [exact Hnd| |].
      - by rewrite list_lookup_fmap, Hr.
      - by rewrite list_lookup_fmap, Hj, Hid. }
    done.
  - destruct (decide (task_ID r = task_ID row)) as [Hid|]; [|done].
    assert (r = row) as ->.
    { apply list_elem_of_lookup in Hrow as [j Hj].
      assert (i = j) as ->; [|congruence].
      eapply NoDup_lookup; [exact Hnd| |].
      - by rewrite list_lookup_fmap, Hr.
      - by rewrite list_lookup_fmap, Hj, Hid. }
    unfold TaskModel.update_hits in Hhit. by rewrite !Z.eqb_refl in Hhit.
Qed.

(** X19.  [updateTaskHandler] does not overwrite a concurrent change: if,
    between its read of a row and its write, other requests leave no row
    with that id and the version read (the row was updated or deleted),
    then it answers 409 and the tasks are as the other requests left
    them. *)
Theorem X19_update_handler_reports_the_conflict :
  forall link_get link_update input others db row,
    in_time link_get -> in_time link_update -> tasks_ok db ->
    row ∈ tasks db ->
    Valid (ValidateTask ∅ (patch_task row input)) = true ->
    Forall (fun r => ~ (task_ID r = task_ID row
                        /\ task_Version r = task_Version row))
      (tasks (others (record_statement (SelectTask (task_ID row)) db))) ->
    exists db',
      updateTaskHandler link_get link_update (Some (task_ID row)) (inr input)
        others db
      = Returns (editConflictResponse, db')
      /\ tasks db'
         = tasks (others (record_statement (SelectTask (task_ID row)) db)).
Proof.
  intros link_get link_update input others db row Hg Hu Hok Hrow Hvalid
    Hgone.
  unfold updateTaskHandler. rewrite task_Get_row by done.
  rewrite Hvalid. cbn [negb].
  rewrite Update_conflict; [by eexists|done|].
  apply filter_none. eapply Forall_impl; [exact Hgone|].
  intros r Hr Hhit. apply Hr.
  by apply Is_true_true, update_hits_spec in Hhit.
Qed.

(** X20.  [updateCategoryHandler] has no such check.  For a stored row on
    well-formed tables, a patch whose result passes validation and a
    backend that answers in time, it answers 200 with the patched entity
    whatever other requests did between its read and its write: the rows
    that then have the id get the entity's name and description, and when
    the row has been deleted in between nothing is written and the answer
    is 200 all the same. *)
Theorem X20_category_update_handler_answers_ok :
  forall link_get link_update input others db row,
    in_time link_get -> in_time link_update -> categories_ok db ->
    row ∈ categories db ->
    Valid (ValidateCategory ∅ (patch_category row input)) = true ->
    let entity := patch_category row input in
    let db1 := others (record_statement (SelectCategory (cat_ID row)) db) in
    exists db',
      updateCategoryHandler link_get link_update (Some (cat_ID row))
        (inr input) others db
      = Returns (writeJSON StatusOK (categoryEnvelope entity) None, db')
      /\ categories db'
         = (fun r => if decide (cat_ID r = cat_ID row)
                     then mkCategory (cat_ID r) (cat_CreatedAt r)
                            (cat_Name entity) (cat_Description entity)
                     else r) <$> categories db1
      /\ (Forall (fun r => cat_ID r <> cat_ID row) (categories db1) ->
          categories db' = categories db1).
Proof.
  intros link_get link_update input others db row Hg (after & -> & Hafter)
    Hok Hrow Hvalid entity db1.
  unfold updateCategoryHandler. rewrite category_Get_row by done.
  rewrite Hvalid. cbn [negb]. fold db1. fold entity.
  unfold CategoryModel.Update, roundtrip, CategoryModel.update_sql.
  rewrite expired_in_time by done.
  change (categories (record_statement ?s db1)) with (categories db1).
  eexists. split; [done|]. cbn [categories with_categories].
  assert (Hmap : ((fun r => if CategoryModel.has_id (cat_ID entity) r
                            then mkCategory (cat_ID r) (cat_CreatedAt r)
                                   (cat_Name entity) (cat_Description entity)
                            else r) <$> categories db1)
                 = (fun r => if decide (cat_ID r = cat_ID row)
                             then mkCategory (cat_ID r) (cat_CreatedAt r)
                                    (cat_Name entity) (cat_Description entity)
                             else r) <$> categories db1).
  { apply list_fmap_ext. intros i r _. unfold CategoryModel.has_id.
    cbn [entity patch_category cat_ID].
    destruct (Z.eqb_spec (cat_ID r) (cat_ID row)).
    - by rewrite decide_True.
    - by rewrite decide_False. }
  split; [exact Hmap|]. intros Hgone. rewrite Hmap.
  rewrite <- (list_fmap_id (categories db1)) at 2.
  apply Forall_fmap_ext_1. eapply Forall_impl; [exact Hgone|].
  intros r Hr. by rewrite decide_False.
Qed.

(** X21.  The update handlers refuse in a fixed order and before any
    write, whatever the UPDATE would have met: an unreadable id is 404
    with nothing sent; an id below 1 or of no row is 404 whatever the body
    holds; for a stored row, a body [readJSON] rejects is 400 and a patch
    whose result fails validation is 422 with the validator's messages, in
    both cases after the SELECT alone. *)
Theorem X21_update_handlers_refuse_before_writing :
  (forall link_get link_update body others db,
      updateTaskHandler link_get link_update None body others db
      = Returns (notFoundResponse, db))
  /\ (forall link_get link_update i body others db,
        in_time link_get ->
        i < 1 \/ Forall (fun row => task_ID row <> i) (tasks db) ->
        exists db',
          updateTaskHandler link_get link_update (Some i) body others db
          = Returns (notFoundResponse, db')
          /\ (db' = db \/ db' = record_statement (SelectTask i) db))
  /\ (forall link_get link_update err others db row,
        in_time link_get -> tasks_ok db -> row ∈ tasks db ->
        updateTaskHandler link_get link_update (Some (task_ID row)) (inl err)
          others db
        = Returns (badRequestResponse err,
                   record_statement (SelectTask (task_ID row)) db))
  /\ (forall link_get link_update input others db row,
        in_time link_get -> tasks_ok db -> row ∈ tasks db ->
        Valid (ValidateTask ∅ (patch_task row input)) = false ->
        updateTaskHandler link_get link_update (Some (task_ID row))
          (inr input) others db
        = Returns (errorResponse
                     (failedValidationResponse
                        (ValidateTask ∅ (patch_task row input))),
                   record_statement (SelectTask (task_ID row)) db))
  /\ (forall link_get link_update body others db,
        updateCategoryHandler link_get link_update None body others db
        = Returns (notFoundResponse, db))
  /\ (forall link_get link_update i body others db,
        in_time link_get ->
        i < 1 \/ Forall (fun row => cat_ID row <> i) (categories db) ->
        exists db',
          updateCategoryHandler link_get link_update (Some i) body others db
          = Returns (notFoundResponse, db')
          /\ (db' = db \/ db' = record_statement (SelectCategory i) db))
  /\ (forall link_get link_update err others db row,
        in_time link_get -> categories_ok db -> row ∈ categories db ->
        updateCategoryHandler link_get link_update (Some (cat_ID row))
          (inl err) others db
        = Returns (badRequestResponse err,
                   record_statement (SelectCategory (cat_ID row)) db))
  /\ (forall link_get link_update input others db row,
        in_time link_get -> categories_ok db -> row ∈ categories db ->
        Valid (ValidateCategory ∅ (patch_category row input)) = false ->
        updateCategoryHandler link_get link_update (Some (cat_ID row))
          (inr input) others db
        = Returns (errorResponse
                     (failedValidationResponse
                        (ValidateCategory ∅ (patch_category row input))),
                   record_statement (SelectCategory (cat_ID row)) db)).
Proof.
  split; [done|]. split; [|split; [|split; [|split; [done|split;
    [|split]]]]].
  - intros link_get link_update i body others db Hg Hnone.
    destruct (task_Get_none link_get i db Hg Hnone) as (db' & Hget & Hdb).
    exists db'. split; [|done]. unfold updateTaskHandler. by rewrite Hget.
  - intros link_get link_update err others db row Hg Hok Hrow.
    unfold updateTaskHandler. by rewrite task_Get_row.
  - intros link_get link_update input others db row Hg Hok Hrow Hvalid.
    unfold updateTaskHandler. rewrite task_Get_row by done.
    by rewrite Hvalid.
  - intros link_get link_update i body others db Hg Hnone.
    destruct (category_Get_none link_get i db Hg Hnone) as (db' & Hget & Hdb).
    exists db'. split; [|done]. unfold updateCategoryHandler. by rewrite Hget.
  - intros link_get link_update err others db row Hg Hok Hrow.
    unfold updateCategoryHandler. by rewrite category_Get_row.
  - intros link_get link_update input others db row Hg Hok Hrow Hvalid.
    unfold updateCategoryHandler. rewrite category_Get_row by done.
    by rewrite Hvalid.
Qed.
End handlers_update.


(** ** The routes *)

Section routing.
Context `{Engine}.

Lemma split_path_slash_free s cur :
  slash_free s = true -> Routes.split_path s cur = [String.append cur s].
Proof.
  revert cur. induction s as [|c s IH]; intros cur Hs.
  - simpl. by rewrite append_Empty_r.
  - unfold slash_free in Hs. simpl in Hs. apply andb_prop in Hs as [Hc Hs].
    apply negb_true_iff in Hc. cbn [Routes.split_path]. rewrite Hc.
    rewrite IH by done. f_equal.
    clear. induction cur as [|d cur IH]; [done|].
    rewrite !append_String. by rewrite IH.
Qed.

Lemma split_path_app p s cur :
  slash_free s = true ->
  Routes.split_path (String.append p (String Routes.slash s)) cur
  = Routes.split_path p cur ++ [s].
Proof.
  intros Hs. revert cur. induction p as [|c p IH]; intros cur.
  - rewrite append_Empty. cbn [Routes.split_path].
    rewrite Ascii.eqb_refl, split_path_slash_free by done.
    by rewrite append_Empty.
  - rewrite append_String. cbn [Routes.split_path].
    destruct (Ascii.eqb c Routes.slash); by rewrite IH.
Qed.

Lemma digit_slash_free d :
  0 <= d <= 9 -> Ascii.eqb (digit d) Routes.slash = false.
Proof.
  intros Hd. destruct (digit_spec d Hd) as [Hdigit _].
  destruct (Ascii.eqb_spec (digit d) Routes.slash) as [Heq|]; [|done].
  rewrite Heq in Hdigit. by vm_compute in Hdigit.
Qed.

Lemma decimal_slash_free fuel u acc :
  0 <= u -> slash_free acc = true -> slash_free (decimal fuel u acc) = true.
Proof.
  revert u acc. induction fuel as [|fuel IH]; intros u acc Hu Hacc; [done|].
  cbn [decimal]. destruct (Z.ltb_spec u 10).
  - unfold slash_free. cbn [string_forall].
    rewrite digit_slash_free by lia. done.
  - apply IH; [apply Z.div_pos; lia|].
    unfold slash_free. cbn [string_forall].
    rewrite digit_slash_free by (pose proof (Z.mod_pos_bound u 10); lia).
    done.
Qed.

Lemma decimal_nonempty fuel u acc :
  acc <> EmptyString \/ fuel <> 0%nat -> decimal fuel u acc <> EmptyString.
Proof.
  revert u acc. induction fuel as [|fuel IH]; intros u acc Hne.
  - simpl. by destruct Hne.
  - cbn [decimal]. destruct (u <? 10); [done|]. apply IH. by left.
Qed.

Lemma Sprintf_d_segment z :
  slash_free (Sprintf_d z) = true /\ Sprintf_d z <> EmptyString.
Proof.
  unfold Sprintf_d. destruct (Z.ltb_spec z 0).
  - split; [|done]. unfold slash_free. cbn [string_forall].
    apply andb_true_intro. split; [by vm_compute|].
    apply decimal_slash_free; [lia|done].
  - split; [by apply decimal_slash_free|]. apply decimal_nonempty. by right.
Qed.

(** X22.  The Location the task create handler answers with,
    /v1/tasks/ followed by the id, is a path the router dispatches, for GET,
    to [showTaskHandler] behind the tasks:read permission.  The Location of
    the category create handler, /v1/categories/ followed by the id, matches
    no registered route: the category routes are under /v1/category.  No
    route dispatches to [listCategoriesHandler], which answers a request
    either with a validation failure or with nothing, and never calls the
    store. *)
Theorem X22_routes_of_the_created_entities :
  (forall id,
      Routes.route_of "GET" (String.append "/v1/tasks/" (Sprintf_d id))
      = Some (Routes.mkRoute "GET" "/v1/tasks/:id" (Some "tasks:read")
                Routes.showTaskHandler))
  /\ (forall meth id,
        Routes.route_of meth (String.append "/v1/categories/" (Sprintf_d id))
        = None)
  /\ (forall meth path r,
        Routes.route_of meth path = Some r ->
        Routes.handler r <> Routes.listCategoriesHandler)
  /\ (forall link qs db reply db',
        listCategoriesHandler link qs db = Returns (reply, db') ->
        db' = db
        /\ (reply = noResponse
            \/ exists errors, reply = failedValidationResponse errors)).
Proof.
  split; [|split; [|split]].
  - intros id. destruct (Sprintf_d_segment id) as [Hfree Hne].
    unfold Routes.route_of.
    replace (Routes.segments (String.append "/v1/tasks/" (Sprintf_d id)))
      with ([EmptyString; "v1"; "tasks"; Sprintf_d id] : list string).
    2: { symmetry.
         change (String.append "/v1/tasks/" (Sprintf_d id))
           with (String.append "/v1/tasks" (String Routes.slash (Sprintf_d id))).
         unfold Routes.segments. by rewrite split_path_app. }
    destruct (Sprintf_d id) as [|c s]; [done|]. by vm_compute.
  - intros meth id. destruct (Sprintf_d_segment id) as [Hfree _].
    unfold Routes.route_of.
    replace (Routes.segments (String.append "/v1/categories/" (Sprintf_d id)))
      with ([EmptyString; "v1"; "categories"; Sprintf_d id] : list string).
    2: { symmetry.
         change (String.append "/v1/categories/" (Sprintf_d id))
           with (String.append "/v1/categories"
                   (String Routes.slash (Sprintf_d id))).
         unfold Routes.segments. by rewrite split_path_app. }
    generalize (Sprintf_d id) as s. intros s. clear.
    unfold Routes.routes. cbn [List.find Routes.method Routes.pattern].
    repeat match goal with
    | |- context [Routes.segments_match (Routes.segments ?p) ?segs] =>
        replace (Routes.segments_match (Routes.segments p) segs) with false
          by (by vm_compute)
    end.
    by rewrite !andb_false_r.
  - intros meth path r Hr. apply List.find_some in Hr as [Hin _].
    unfold Routes.routes in Hin. simpl in Hin.
    repeat (destruct Hin as [<-|Hin]; [done|]). done.
  - intros link qs db reply db'. unfold listCategoriesHandler.
    destruct (readInt (q_page qs) _ _ _) as [page v1].
    destruct (readInt (q_page_size qs) _ _ _) as [pageSize v2].
    destruct (negb _); intros [= <- <-]; split; eauto.
Qed.
End routing.


(** ** The task list handler *)

Section listing_defaults.
Context `{Engine}.

Lemma readString_no_default s : readString s EmptyString = s.
Proof. unfold readString. by destruct (String.eqb_spec s EmptyString). Qed.

Lemma StronglySorted_take_weaken {A} (R R' : A -> A -> Prop) n l :
  (forall a b, R a b -> R' a b) ->
  StronglySorted R l -> StronglySorted R' (take n l).
Proof.
  intros HR Hl. revert n. induction Hl as [|a l Hl IH Ha]; intros [|n];
    simpl; try constructor.
  - apply IH.
  - apply Forall_take. eapply Forall_impl; [exact Ha|]. auto.
Qed.

(** X23.  A task list request that names neither page, page size nor sort
    is answered, when the backend answers in time, with the first twenty of
    the tasks whose title matches the filter, in ascending order of their
    ids, through one SELECT ordered by id ASC with LIMIT 20 and OFFSET 0;
    when there is such a task the metadata give page 1 of size 20 and the
    number of matching tasks. *)
Theorem X23_list_request_defaults :
  forall link title db,
    in_time link ->
    let matching :=
      filter (fun r => TaskModel.title_matches title r) (tasks db) in
    exists page md,
      listTasksHandler link (mkQuery title Absent Absent EmptyString) db
      = Returns (tasksResponse page md,
                 record_statement (SelectTasks "id" "ASC" title 20 0) db)
      /\ page = take 20 (merge_sort
                           (row_le task_ID (fun r => KInt (task_ID r)) false)
                           matching)
      /\ StronglySorted (fun a b => task_ID a <= task_ID b) page
      /\ (forall row, row ∈ page -> row ∈ matching)
      /\ (matching <> [] ->
          md = mkMetadata 1 20 1 (ceil_div (Z.of_nat (length matching)) 20)
                 (Z.of_nat (length matching))).
Proof.
  intros link title db Ht matching.
  set (key := fun r => KInt (task_ID r)).
  set (f := mkFilters 1 20 "id" tasksSafelist).
  assert (Hsorted : StronglySorted (row_le task_ID key false)
                      (merge_sort (row_le task_ID key false) matching))
    by (apply StronglySorted_merge_sort; apply _).
  assert (Hperm : merge_sort (row_le task_ID key false) matching ≡ₚ matching)
    by apply merge_sort_Permutation.
  eexists _, _. split; [|split; [reflexivity|split; [|split]]].
  - unfold listTasksHandler.
    cbn [q_filter q_page q_page_size q_sort readInt].
    rewrite readString_no_default.
    change (readString EmptyString "id") with "id"%string. fold f.
    replace (Valid (ValidateFilters ∅ f)) with true by (by vm_compute).
    cbn [negb].
    rewrite (TaskModel_GetAll_in_time link title f db "id" key);
      [|done|by vm_compute|done|by vm_compute..].
    reflexivity.
  - apply (StronglySorted_take_weaken (row_le task_ID key false)); [|done].
    intros a b. unfold row_le, key. simpl. lia.
  - intros row Hrow. rewrite <- Hperm.
    eapply elem_of_sublist; [exact Hrow|apply sublist_take].
  - intros Hsome. unfold window, limit, offset, f. cbn [PageSize Page Sort].
    change (HasDash "id") with false.
    change (Z.to_nat ((1 - 1) * 20)) with 0%nat.
    change (Z.to_nat 20) with 20%nat. rewrite drop_0.
    fold matching.
    destruct (merge_sort (row_le task_ID key false) matching)
      as [|r rest] eqn:Hm.
    + apply Permutation_nil_l in Hperm. by rewrite <- Hperm in Hsome.
    + cbn [take]. unfold calculateMetadata.
      replace (Z.of_nat (length matching) =? 0) with false; [done|].
      symmetry. apply Z.eqb_neq. destruct matching; [done|]. simpl. lia.
Qed.
End listing_defaults.


(** ** What holds along any sequence of calls *)

Section traces.
Context `{Engine}.

Lemma continues_refl db : continues db db.
Proof.
  split; [lia|]. split; [lia|]. split.
  - intros r Hr _. exists r. by repeat split; try lia.
  - intros c Hc _. by exists c.
Qed.

Lemma continues_trans db1 db2 db3 :
  continues db1 db2 -> continues db2 db3 -> continues db1 db3.
Proof.
  intros (Ht1 & Hc1 & Hrows1 & Hcats1) (Ht2 & Hc2 & Hrows2 & Hcats2).
  split; [lia|]. split; [lia|]. split.
  - intros r3 Hr3 Hid.
    destruct (Hrows2 r3 Hr3 ltac:(lia)) as (r2 & Hr2 & Hid2 & Hcr2 & Hv2).
    destruct (Hrows1 r2 Hr2 ltac:(lia)) as (r1 & Hr1 & Hid1 & Hcr1 & Hv1).
    exists r1. split; [done|]. split; [congruence|]. split; [congruence|lia].
  - intros c3 Hc3 Hid.
    destruct (Hcats2 c3 Hc3 ltac:(lia)) as (c2 & Hc2' & Hid2 & Hcr2).
    destruct (Hcats1 c2 Hc2' ltac:(lia)) as (c1 & Hc1' & Hid1 & Hcr1).
    exists c1. split; [done|]. split; congruence.
Qed.

Lemma continues_record stmt db db0 :
  continues db db0 -> continues db (record_statement stmt db0).
Proof. done. Qed.

Lemma continues_step (run : DB -> DB) db db0 :
  (forall x, continues x (run x)) -> continues db db0 -> continues db (run db0).
Proof. intros Hrun Hdb. eapply continues_trans; [exact Hdb|apply Hrun]. Qed.

Lemma task_insert_sql_continues t d p s c due db :
  continues db (TaskModel.insert_sql t d p s c due db).2.
Proof.
  unfold TaskModel.insert_sql.
  destruct (_ || _); [apply continues_refl|].
  destruct (existsb _ _).
  - split; [simpl; lia|]. split; [simpl; lia|]. split.
    + intros r Hr _. exists r. by repeat split; try lia.
    + intros c0 Hc _. by exists c0.
  - split; [simpl; lia|]. split; [simpl; lia|]. split.
    + cbn [snd tasks with_tasks]. intros r [Hr|Hr]%elem_of_app Hid.
      * exists r. by repeat split; try lia.
      * apply list_elem_of_singleton in Hr. subst r. simpl in Hid. lia.
    + intros c0 Hc _. by exists c0.
Qed.

Lemma task_update_sql_continues t d p s c due u id v db :
  continues db (TaskModel.update_sql t d p s c due u id v db).2.
Proof.
  unfold TaskModel.update_sql.
  destruct (existsb _ _); [apply continues_refl|].
  split; [simpl; lia|]. split; [simpl; lia|]. split.
  - cbn [snd tasks with_tasks]. intros r' (r & -> & Hr)%list_elem_of_fmap _.
    exists r. split; [done|].
    destruct (TaskModel.update_hits id v r); [|by repeat split; try lia].
    unfold TaskModel.updated_row. simpl. repeat split; lia.
  - intros c0 Hc _. by exists c0.
Qed.

Lemma task_delete_sql_continues id db :
  continues db (TaskModel.delete_sql id db).2.
Proof.
  unfold TaskModel.delete_sql.
  split; [simpl; lia|]. split; [simpl; lia|]. split.
  - cbn [snd tasks with_tasks]. intros r [_ Hr]%list_elem_of_filter _.
    exists r. by repeat split; try lia.
  - intros c0 Hc _. by exists c0.
Qed.

Lemma category_insert_sql_continues n d db :
  continues db (CategoryModel.insert_sql n d db).2.
Proof.
  unfold CategoryModel.insert_sql.
  destruct (_ <? _); [apply continues_refl|].
  destruct (existsb _ _).
  - split; [simpl; lia|]. split; [simpl; lia|]. split.
    + intros r Hr _. exists r. by repeat split; try lia.
    + intros c0 Hc _. by exists c0.
  - split; [simpl; lia|]. split; [simpl; lia|]. split.
    + intros r Hr _. exists r. by repeat split; try lia.
    + cbn [snd categories with_categories].
      intros c0 [Hc|Hc]%elem_of_app Hid.
      * by exists c0.
      * apply list_elem_of_singleton in Hc. subst c0. simpl in Hid. lia.
Qed.

Lemma category_update_sql_continues n d id db :
  continues db (CategoryModel.update_sql n d id db).2.
Proof.
  unfold CategoryModel.update_sql.
  split; [simpl; lia|]. split; [simpl; lia|]. split.
  - intros r Hr _. exists r. by repeat split; try lia.
  - cbn [snd categories with_categories].
    intros c' (c0 & -> & Hc)%list_elem_of_fmap _.
    exists c0. split; [done|]. by destruct (CategoryModel.has_id id c0).
Qed.

Lemma category_delete_sql_continues id db :
  continues db (CategoryModel.delete_sql id db).2.
Proof.
  unfold CategoryModel.delete_sql.
  split; [simpl; lia|]. split; [simpl; lia|]. split.
  - intros r Hr _. exists r. by repeat split; try lia.
  - cbn [snd categories with_categories].
    intros c0 [_ Hc]%list_elem_of_filter _. by exists c0.
Qed.

Lemma roundtrip_continues {A} d link stmt (run : DB -> (string + A) * DB)
    db r db' :
  (forall x, continues x (run x).2) ->
  roundtrip d link stmt run db = Returns (r, db') -> continues db db'.
Proof.
  intros Hrun Hrt.
  eapply (roundtrip_keeps (continues db)); [| |apply continues_refl|exact Hrt].
  - intros db0. apply continues_record.
  - intros db0 Hdb0. eapply continues_trans; [exact Hdb0|apply Hrun].
Qed.

Lemma QueryRow_continues {A} d link stmt (run : DB -> (string + list A) * DB)
    db r db' :
  (forall x, continues x (run x).2) ->
  QueryRow d link stmt run db = Returns (r, db') -> continues db db'.
Proof.
  intros Hrun Hq.
  eapply (QueryRow_keeps (continues db)); [| |apply continues_refl|exact Hq].
  - intros db0. apply continues_record.
  - intros db0 Hdb0. eapply continues_trans; [exact Hdb0|apply Hrun].
Qed.

Lemma store_call_continues db db' : store_call db db' -> continues db db'.
Proof.
  intros [link task err task' Hc|link id r Hc|link task err task' Hc
    |link id err Hc|link title f r Hc|link category err category' Hc
    |link id r Hc|link category err Hc|link id err Hc|link f r Hc];
    revert Hc.
  - unfold TaskModel.Insert.
    destruct (QueryRow _ _ _ _ _) as [[[scanned err0] db1]| |] eqn:Hq;
      try done; intros [= _ _ <-];
      (eapply QueryRow_continues; [|exact Hq]);
      intros x; apply task_insert_sql_continues.
  - unfold TaskModel.Get. destruct (id <? 1).
    { intros [= _ <-]. apply continues_refl. }
    destruct (QueryRow _ _ _ _ _) as [[[scanned err0] db1]| |] eqn:Hq;
      try done.
    assert (continues db db1)
      by (eapply QueryRow_continues; [|exact Hq]; intros x;
          apply continues_refl).
    destruct err0 as [e|]; [destruct e|]; by intros [= _ <-].
  - unfold TaskModel.Update.
    destruct (QueryRow _ _ _ _ _) as [[[scanned err0] db1]| |] eqn:Hq;
      try done.
    assert (continues db db1)
      by (eapply QueryRow_continues; [|exact Hq]; intros x;
          apply task_update_sql_continues).
    destruct err0 as [e|]; [destruct e|]; by intros [= _ _ <-].
  - unfold TaskModel.Delete. destruct (id <? 1).
    { intros [= _ <-]. apply continues_refl. }
    destruct (roundtrip _ _ _ _ _) as [[[e|n] db1]| |] eqn:Hq; try done.
    all: assert (continues db db1)
      by (eapply roundtrip_continues; [|exact Hq]; intros x;
          apply task_delete_sql_continues).
    + by intros [= _ <-].
    + by destruct (n =? 0); intros [= _ <-].
  - unfold TaskModel.GetAll.
    destruct (sortColumn f) as [col|]; [|done].
    destruct (roundtrip _ _ _ _ _) as [[[e|rows] db1]| |] eqn:Hq; try done.
    all: assert (continues db db1)
      by (eapply roundtrip_continues; [|exact Hq]; intros x;
          apply continues_refl).
    + by intros [= _ <-].
    + destruct (scan_rows rows). by intros [= _ <-].
  - unfold CategoryModel.Insert.
    destruct (QueryRow _ _ _ _ _) as [[[scanned err0] db1]| |] eqn:Hq;
      try done; intros [= _ _ <-];
      (eapply QueryRow_continues; [|exact Hq]);
      intros x; apply category_insert_sql_continues.
  - unfold CategoryModel.Get. destruct (id <? 1).
    { intros [= _ <-]. apply continues_refl. }
    destruct (QueryRow _ _ _ _ _) as [[[scanned err0] db1]| |] eqn:Hq;
      try done.
    assert (continues db db1)
      by (eapply QueryRow_continues; [|exact Hq]; intros x;
          apply continues_refl).
    destruct err0 as [e|]; [destruct e|]; by intros [= _ <-].
  - unfold CategoryModel.Update.
    destruct (roundtrip _ _ _ _ _) as [[[e|n] db1]| |] eqn:Hq; try done;
      intros [= _ <-];
      (eapply roundtrip_continues; [|exact Hq]);
      intros x; apply category_update_sql_continues.
  - unfold CategoryModel.Delete. destruct (id <? 1).
    { intros [= _ <-]. apply continues_refl. }
    destruct (roundtrip _ _ _ _ _) as [[[e|n] db1]| |] eqn:Hq; try done.
    all: assert (continues db db1)
      by (eapply roundtrip_continues; [|exact Hq]; intros x;
          apply category_delete_sql_continues).
    + by intros [= _ <-].
    + by destruct (n =? 0); intros [= _ <-].
  - unfold CategoryModel.GetAll.
    destruct (sortColumn f) as [col|]; [|done].
    destruct (roundtrip _ _ _ _ _) as [[[e|rows] db1]| |] eqn:Hq; try done.
    all: assert (continues db db1)
      by (eapply roundtrip_continues; [|exact Hq]; intros x;
          apply continues_refl).
    + by intros [= _ <-].
    + destruct (scan_rows rows). by intros [= _ <-].
Qed.

Lemma store_calls_continues db db' : store_calls db db' -> continues db db'.
Proof.
  induction 1 as [db|db db1 db2 Hcall _ IH]; [apply continues_refl|].
  eapply continues_trans; [by apply store_call_continues|exact IH].
Qed.

Lemma task_Insert_seq link task db task' db' :
  TaskModel.Insert link task db = Returns (None, task', db') ->
  task_ID task' = tasks_id_seq db /\ tasks_id_seq db' = tasks_id_seq db + 1.
Proof.
  unfold TaskModel.Insert, QueryRow, roundtrip, TaskModel.insert_sql.
  destruct link as [after| |msg|after msg c];
    [|done..|by refuted].
  cbn [expired NoContext].
  rewrite !tasks_record_statement.
  change (tasks_id_seq (record_statement ?s db)) with (tasks_id_seq db).
  change (tasks_user_id_seq (record_statement ?s db))
    with (tasks_user_id_seq db).
  destruct (_ || _); [done|].
  destruct (existsb _ (tasks db)); [done|].
  by intros [= <- <-].
Qed.

Lemma category_Insert_seq link category db category' db' :
  CategoryModel.Insert link category db = Returns (None, category', db') ->
  cat_ID category' = categories_id_seq db
  /\ categories_id_seq db' = categories_id_seq db + 1.
Proof.
  unfold CategoryModel.Insert, QueryRow, roundtrip, CategoryModel.insert_sql.
  destruct link as [after| |msg|after msg c];
    [|done..|by refuted].
  cbn [expired NoContext].
  change (categories (record_statement ?s db)) with (categories db).
  change (categories_id_seq (record_statement ?s db))
    with (categories_id_seq db).
  destruct (_ <? _); [done|].
  destruct (existsb _ (categories db)); [done|].
  by intros [= <- <-].
Qed.

(** X24.  Ids are never given out twice: of two successful [Insert]s, with
    any number of store calls of any kind in between, deletions of the
    first row included, the later one assigns the larger id.  The same holds
    for categories. *)
Theorem X24_ids_are_never_reused :
  (forall link task db task1 db1 db2 link' task' task2 db3,
      TaskModel.Insert link task db = Returns (None, task1, db1) ->
      store_calls db1 db2 ->
      TaskModel.Insert link' task' db2 = Returns (None, task2, db3) ->
      task_ID task1 < task_ID task2)
  /\ (forall link category db category1 db1 db2 link' category' category2 db3,
        CategoryModel.Insert link category db
        = Returns (None, category1, db1) ->
        store_calls db1 db2 ->
        CategoryModel.Insert link' category' db2
        = Returns (None, category2, db3) ->
        cat_ID category1 < cat_ID category2).
Proof.
  split.
  - intros link task db task1 db1 db2 link' task' task2 db3 H1 Hcalls H2.
    apply task_Insert_seq in H1 as [Hid1 Hseq1].
    apply task_Insert_seq in H2 as [Hid2 _].
    apply store_calls_continues in Hcalls as (Hmono & _). lia.
  - intros link category db category1 db1 db2 link' category' category2 db3
      H1 Hcalls H2.
    apply category_Insert_seq in H1 as [Hid1 Hseq1].
    apply category_Insert_seq in H2 as [Hid2 _].
    apply store_calls_continues in Hcalls as (_ & Hmono & _). lia.
Qed.

(** X25.  Along any sequence of store calls a row keeps its identity: a
    task found afterwards under an id that had been given out before is a
    task that was there before, with the same creation time and a version
    that is not smaller; a category found afterwards under such an id was
    there before with the same creation time.  No call rewrites an id or a
    creation time or lowers a version, and none brings back a deleted row
    under its old id. *)
Theorem X25_rows_keep_their_identity :
  forall db db',
    store_calls db db' ->
    (forall r', r' ∈ tasks db' -> task_ID r' < tasks_id_seq db ->
       exists r, r ∈ tasks db /\ task_ID r = task_ID r'
                 /\ task_CreatedAt r = task_CreatedAt r'
                 /\ task_Version r <= task_Version r')
    /\ (forall c', c' ∈ categories db' -> cat_ID c' < categories_id_seq db ->
          exists c, c ∈ categories db /\ cat_ID c = cat_ID c'
                    /\ cat_CreatedAt c = cat_CreatedAt c').
Proof.
  intros db db' Hcalls.
  by apply store_calls_continues in Hcalls as (_ & _ & Hrows & Hcats).
Qed.
End traces.


(** ** Instances of the theorems and inputs on which the spec's wording
    fails, on [sampleEngine] *)

Local Existing Instance sampleEngine.

Ltac by_decide := apply (bool_decide_unpack _); vm_compute; exact I.

Lemma C1_update_is_compare_and_swap_witness :
  TaskModel.Update (Responds 0) (set_Version rowA 7) two_tasks
  = Returns (Some ErrEditConflict, set_Version rowA 7,
             record_statement (update_statement (set_Version rowA 7)) two_tasks)
  /\ TaskModel.Update (Responds 0) editedA two_tasks
     = Returns (None, set_Version editedA (task_Version editedA + 1),
                with_tasks (record_statement (update_statement editedA) two_tasks)
                  ((fun r =>
                      if decide (task_ID r = task_ID editedA
                                 /\ task_Version r = task_Version editedA)
                      then mkTask (task_ID r) (task_CreatedAt r)
                             (task_Title editedA) (task_Description editedA)
                             (timestamp0 (task_DueDate editedA))
                             (task_Priority editedA) (task_Status editedA)
                             (task_Category editedA) (task_UserID editedA)
                             (task_Version editedA + 1)
                      else r) <$> tasks two_tasks))
  /\ task_Version (set_Version (set_Version rowA 2) 3)
     = task_Version rowA + Z.of_nat 2.
Proof.
  split; [|split].
  - apply (proj1 (proj2 C1_update_is_compare_and_swap)).
    + exists 0. split; [reflexivity | vm_compute; reflexivity].
    + vm_compute. reflexivity.
  - apply (proj1 (proj2 (proj2 C1_update_is_compare_and_swap))
             (Responds 0) editedA two_tasks rowA).
    + exists 0. split; [reflexivity | vm_compute; reflexivity].
    + by_decide.
    + reflexivity.
    + reflexivity.
    + vm_compute. reflexivity.
  - apply (proj2 (proj2 (proj2 (proj2 C1_update_is_compare_and_swap)))).
    eapply (Updated_more 1 rowA (set_Version rowA 2) (set_Version rowA 2) _
              (Responds 0) (with_tasks two_tasks [set_Version rowA 2; rowB])).
    + eapply (Updated_more 0 rowA rowA rowA _ (Responds 0) two_tasks).
      * apply Updated_none.
      * reflexivity.
      * vm_compute. reflexivity.
    + reflexivity.
    + vm_compute. reflexivity.
Defined.

Lemma C10_update_changes_the_version_only_witness :
  (set_Version rowA 7 = set_Version (set_Version rowA 7)
                          (task_Version (set_Version rowA 7))
   /\ (task_Version (set_Version rowA 7) = task_Version (set_Version rowA 7)
       \/ task_Version (set_Version rowA 7)
          = task_Version (set_Version rowA 7) + 1)
   /\ (Some ErrEditConflict = None ->
       task_Version (set_Version rowA 7)
       = task_Version (set_Version rowA 7) + 1)
   /\ (forall e, Some ErrEditConflict = Some e ->
         e = ErrEditConflict \/ is_backend_error e = true)
   /\ (Some ErrEditConflict = Some ErrEditConflict ->
       set_Version rowA 7 = set_Version rowA 7)
   /\ ((forall after msg committed,
          Responds 0 <> Aborts after msg committed) ->
       Some ErrEditConflict <> None ->
       set_Version rowA 7 = set_Version rowA 7))
  /\ exists db',
       TaskModel.Update (Aborts 0 "connection reset" true) editedA two_tasks
       = Returns (Some (DriverError "connection reset"),
                  set_Version editedA (task_Version editedA + 1), db')
       /\ (true = false ->
           db' = record_statement (update_statement editedA) two_tasks).
Proof.
  split.
  - apply (proj1 C10_update_changes_the_version_only (Responds 0)
             (set_Version rowA 7) two_tasks (Some ErrEditConflict)
             (set_Version rowA 7)
             (record_statement (update_statement (set_Version rowA 7))
                two_tasks)).
    vm_compute. reflexivity.
  - apply (proj2 C10_update_changes_the_version_only 0 "connection reset"
             true editedA two_tasks rowA).
    + vm_compute. reflexivity.
    + by_decide.
    + reflexivity.
    + reflexivity.
    + vm_compute. reflexivity.
Defined.

(** C10 as stated fails when the backend breaks off after the returned row
    has been scanned: [Update] reports the backend error, and the entity
    holds version 2 although the stored row, the statement having been
    undone, is still at version 1. *)
Lemma C10_failed_update_changes_the_entity :
  TaskModel.Update (Aborts 0 "connection reset" false) editedA two_tasks
  = Returns (Some (DriverError "connection reset"), set_Version editedA 2,
             record_statement (update_statement editedA) two_tasks)
  /\ is_backend_error (DriverError "connection reset") = true
  /\ task_Version editedA = 1
  /\ set_Version editedA 2 <> editedA
  /\ tasks (record_statement (update_statement editedA) two_tasks)
     = tasks two_tasks.
Proof. repeat split; by vm_compute. Qed.

Lemma C2_insert_then_get_witness :
  rowB = mkTask (tasks_id_seq one_task) (timestamp0 (clock one_task))
           (task_Title taskB) (task_Description taskB) (task_DueDate taskB)
           (task_Priority taskB) (task_Status taskB) (task_Category taskB)
           (tasks_user_id_seq one_task) 1
  /\ TaskModel.Get (Responds 0) (task_ID rowB) one_task_and_B
     = Returns (inr rowB,
                record_statement (SelectTask (task_ID rowB)) one_task_and_B).
Proof.
  apply (proj1 C2_insert_then_get (Responds 5) 0 taskB one_task rowB
           one_task_and_B).
  - vm_compute. repeat split; done.
  - vm_compute. done.
  - vm_compute. reflexivity.
  - vm_compute. reflexivity.
Defined.

(** C2 as stated fails on [userId]: the task inserted with user id 42 comes
    back, from [Insert] and from [Get], with user id 1, the next value of the
    column's sequence. *)
Lemma C2_user_id_is_not_persisted :
  task_UserID taskA = 42
  /\ TaskModel.Insert (Responds 0) taskA emptyDB = Returns (None, rowA, only_A)
  /\ TaskModel.Get (Responds 0) 1 only_A
     = Returns (inr rowA, record_statement (SelectTask 1) only_A)
  /\ task_UserID rowA = 1
  /\ task_UserID rowA <> task_UserID taskA.
Proof. repeat split; by vm_compute. Qed.

Lemma C3_metadata_of_a_page_witness :
  exists page md db',
    TaskModel.GetAll (Responds 0) EmptyString
      (mkFilters 1 20 "-title" tasksSafelist) two_tasks
    = Returns (inr (page, md), db')
    /\ reports page md
         (Z.of_nat (length (filter
            (fun r => TaskModel.title_matches EmptyString r) (tasks two_tasks))))
         (mkFilters 1 20 "-title" tasksSafelist).
Proof.
  apply (proj1 C3_metadata_of_a_page (Responds 0) EmptyString
           (mkFilters 1 20 "-title" tasksSafelist) two_tasks "title"
           (fun r => KText (task_Title r))).
  - exists 0. split; [reflexivity | vm_compute; reflexivity].
  - vm_compute. reflexivity.
  - reflexivity.
  - vm_compute. discriminate.
  - vm_compute. discriminate.
Defined.

(** C3 as stated fails beyond the last page: two rows match, the query for
    page 2 of size 20 returns no row, the scan loop leaves totalRecords at
    0, and the metadata has totalRecords 0, firstPage 0 and lastPage 0
    instead of 2, 1 and 1. *)
Lemma C3_page_beyond_last_reports_zero :
  Z.of_nat (length (filter (fun r => TaskModel.title_matches EmptyString r)
                      (tasks two_tasks))) = 2
  /\ TaskModel.select_all_sql "id" "ASC" EmptyString 20 20 two_tasks
     = (inr [], two_tasks)
  /\ scan_rows (@nil (Z * Task)) = (0, [])
  /\ TaskModel.GetAll (Responds 0) EmptyString
       (mkFilters 2 20 "id" tasksSafelist) two_tasks
     = Returns (inr ([], noMetadata),
                record_statement (SelectTasks "id" "ASC" EmptyString 20 20)
                  two_tasks)
  /\ TotalRecords noMetadata <> 2
  /\ FirstPage noMetadata <> 1
  /\ LastPage noMetadata <> ceil_div 2 20.
Proof. repeat split; by vm_compute. Qed.

Lemma C4_listing_witness :
  exists md db',
    TaskModel.GetAll (Responds 0) EmptyString
      (mkFilters 1 20 "-due_date" ["due_date"; "-due_date"]) A_then_B
    = Returns (inr ([rowB; rowA], md), db')
    /\ TotalRecords md = 2.
Proof.
  apply (proj2 (proj2 C4_listing) ["due_date"; "-due_date"] rowA rowB only_A
           A_then_B).
  - by_decide.
  - vm_compute. reflexivity.
  - vm_compute. reflexivity.
Defined.

(** C4 as stated fails twice.  The category listing has no filter: with the
    one category "Work" stored, the listing the spec describes for the name
    filter "home" is empty, while [CategoryModel.GetAll], which cannot be
    given a filter, returns the row.  And the request of the scenario,
    sort = -due_date with the empty filter on the two tasks, is refused by
    the task list handler, whose safelist does not hold -due_date: no list
    comes back and no store call is made. *)
Lemma C4_no_category_filter_and_no_due_date_sort :
  category_listing_per_spec "home" (fun r => KInt (cat_ID r))
    (mkFilters 1 20 "id" categoriesSafelist) (categories one_category) = []
  /\ CategoryModel.GetAll (Responds 0)
       (mkFilters 1 20 "id" categoriesSafelist) one_category
     = Returns (inr ([work], mkMetadata 1 20 1 1 1),
                record_statement (SelectCategories "id" "ASC" 20 0)
                  one_category)
  /\ listTasksHandler (Responds 0)
       (mkQuery EmptyString Absent Absent "-due_date") two_tasks
     = Returns (failedValidationResponse {[ "sort" := "invalid sort value" ]},
                two_tasks).
Proof. repeat split; by vm_compute. Qed.

Lemma C6_sort_safelist_witness :
  "title" ∈ SortSafelist (mkFilters 1 20 "-title" tasksSafelist)
  /\ exists errors,
       listTasksHandler (Responds 0)
         (mkQuery EmptyString Absent Absent "due_date; DROP TABLE tasks")
         two_tasks
       = Returns (failedValidationResponse errors, two_tasks)
       /\ errors !! "sort" = Some "invalid sort value".
Proof.
  split.
  - apply (proj1 C6_sort_safelist (mkFilters 1 20 "-title" tasksSafelist)).
    + left. reflexivity.
    + vm_compute. reflexivity.
  - apply (proj1 (proj2 (proj2 (proj2 C6_sort_safelist)))).
    by_decide.
Defined.

Lemma C8_not_found_witness :
  (TaskModel.Get Hangs (-5) two_tasks = Returns (inl ErrRecordNotFound, two_tasks)
   /\ TaskModel.Delete Hangs (-5) two_tasks
      = Returns (Some ErrRecordNotFound, two_tasks)
   /\ CategoryModel.Get Hangs (-5) two_tasks
      = Returns (inl ErrRecordNotFound, two_tasks)
   /\ CategoryModel.Delete Hangs (-5) two_tasks
      = Returns (Some ErrRecordNotFound, two_tasks))
  /\ TaskModel.Delete (Responds 0) 9 two_tasks
     = Returns (Some ErrRecordNotFound, record_statement (DeleteTask 9) two_tasks)
  /\ TaskModel.Delete (Responds 0) 1 two_tasks
     = Returns (None,
                with_tasks (record_statement (DeleteTask 1) two_tasks)
                  (filter (fun r => task_ID r <> 1) (tasks two_tasks))).
Proof.
  split; [|split].
  - apply (proj1 C8_not_found Hangs (-5) two_tasks). reflexivity.
  - apply (proj1 (proj2 C8_not_found) (Responds 0) 9 two_tasks).
    + exists 0. split; [reflexivity | vm_compute; reflexivity].
    + vm_compute. discriminate.
    + repeat constructor; vm_compute; discriminate.
  - apply (proj2 (proj2 C8_not_found) (Responds 0) 1 two_tasks rowA).
    + exists 0. split; [reflexivity | vm_compute; reflexivity].
    + vm_compute. discriminate.
    + by_decide.
    + reflexivity.
Defined.

Lemma C9_category_update_unconditional_witness :
  exists db',
    CategoryModel.Update (Responds 0)
      (mkCategory 77 zeroTime "Ghost" "no such row") one_category
    = Returns (None, db')
    /\ (Forall (fun r => cat_ID r <> 77) (categories one_category) ->
        db' = record_statement (UpdateCategory "Ghost" "no such row" 77)
                one_category).
Proof.
  apply (proj2 C9_category_update_unconditional (Responds 0)
           (mkCategory 77 zeroTime "Ghost" "no such row") one_category).
  exists 0. split; [reflexivity | vm_compute; reflexivity].
Defined.

(** ** Instances of the theorems about the tables, the validators and the
    wire form *)

Ltac answers_in_time := eexists; split; [reflexivity | vm_compute; reflexivity].
Ltac tables_ok :=
  unfold store_ok, tasks_ok, categories_ok; by_decide.

Lemma X1_store_methods_keep_tables_ok_witness :
  store_ok (with_tasks (record_statement (DeleteTask 1) small_store) [rowB]).
Proof.
  apply (proj1 (proj2 (proj2 (proj2
           (X1_store_methods_keep_tables_ok (Responds 0) small_store
              ltac:(tables_ok))))) 1 None).
  vm_compute. reflexivity.
Defined.

Lemma X2_get_returns_the_stored_row_witness :
  TaskModel.Get (Responds 0) (task_ID rowB) small_store
  = Returns (inr rowB, record_statement (SelectTask (task_ID rowB)) small_store).
Proof.
  apply (proj1 (proj2 X2_get_returns_the_stored_row)).
  - answers_in_time.
  - by_decide.
  - by_decide.
  - vm_compute. discriminate.
Defined.

Lemma X3_insert_appends_a_row_with_a_fresh_id_witness :
  exists task' db' row,
    TaskModel.Insert (Responds (10 * Second)) taskB small_store
    = Returns (None, task', db')
    /\ task_ID task' = tasks_id_seq small_store /\ task_Version task' = 1
    /\ Forall (fun r => task_ID r < task_ID task') (tasks small_store)
    /\ tasks db' = tasks small_store ++ [row]
    /\ task_ID row = task_ID task' /\ task_Version row = 1
    /\ tasks_id_seq db' = tasks_id_seq small_store + 1.
Proof.
  apply (proj1 X3_insert_appends_a_row_with_a_fresh_id).
  - tables_ok.
  - vm_compute. discriminate.
  - vm_compute. discriminate.
Defined.

Lemma X4_deleted_rows_are_gone_witness :
  exists db',
    TaskModel.Delete (Responds 0) 1 small_store = Returns (None, db')
    /\ TaskModel.Get (Responds 0) 1 db'
       = Returns (inl ErrRecordNotFound, record_statement (SelectTask 1) db')
    /\ TaskModel.Delete (Responds 0) 1 db'
       = Returns (Some ErrRecordNotFound, record_statement (DeleteTask 1) db')
    /\ tasks db' = filter (fun r => task_ID r <> 1) (tasks small_store).
Proof.
  eexists. split; [vm_compute; reflexivity|].
  apply (proj1 X4_deleted_rows_are_gone (Responds 0) (Responds 0) 1 small_store).
  - vm_compute. reflexivity.
  - answers_in_time.
Defined.

Lemma X5_get_after_update_witness :
  exists task' db',
    TaskModel.Update (Responds 0) editedA small_store
    = Returns (None, task', db')
    /\ exists row,
         row ∈ tasks small_store /\ task_ID row = task_ID editedA
         /\ task_Version row = task_Version editedA
         /\ TaskModel.Get (Responds 0) (task_ID editedA) db'
            = Returns (inr (mkTask (task_ID editedA) (task_CreatedAt row)
                              (task_Title editedA) (task_Description editedA)
                              (task_DueDate editedA) (task_Priority editedA)
                              (task_Status editedA) (task_Category editedA)
                              (task_UserID editedA) (task_Version task')),
                       record_statement (SelectTask (task_ID editedA)) db')
         /\ (task_CreatedAt editedA = task_CreatedAt row ->
             TaskModel.Get (Responds 0) (task_ID editedA) db'
             = Returns (inr task',
                        record_statement (SelectTask (task_ID editedA)) db')).
Proof.
  eexists _, _. split; [vm_compute; reflexivity|].
  apply (X5_get_after_update (Responds 0) (Responds 0) editedA small_store).
  - unfold tasks_ok. by_decide.
  - by_decide.
  - answers_in_time.
  - vm_compute. reflexivity.
Defined.

Lemma X6_stale_update_conflicts_witness :
  exists task' db',
    TaskModel.Update (Responds 0) editedA small_store
    = Returns (None, task', db')
    /\ TaskModel.Update (Responds 0) rowA db'
       = Returns (Some ErrEditConflict, rowA,
                  record_statement (update_statement rowA) db').
Proof.
  eexists _, _. split; [vm_compute; reflexivity|].
  apply (X6_stale_update_conflicts (Responds 0) (Responds 0) editedA rowA
           small_store (set_Version editedA 2)).
  - vm_compute. reflexivity.
  - answers_in_time.
  - reflexivity.
  - reflexivity.
Defined.

Lemma X7_update_touches_only_its_row_witness :
  exists task' db',
    TaskModel.Update (Responds 0) editedA small_store
    = Returns (None, task', db')
    /\ Forall2 (fun old new =>
                  task_ID new = task_ID old
                  /\ task_CreatedAt new = task_CreatedAt old
                  /\ (task_ID old <> task_ID editedA -> new = old)
                  /\ (task_Version new = task_Version old
                      \/ task_Version new = task_Version old + 1))
         (tasks small_store) (tasks db')
    /\ categories db' = categories small_store.
Proof.
  eexists _, _. split; [vm_compute; reflexivity|].
  apply (X7_update_touches_only_its_row (Responds 0) editedA small_store None
           (set_Version editedA 2)).
  vm_compute. reflexivity.
Defined.

Lemma X8_category_update_overwrites_witness :
  exists db',
    CategoryModel.Update (Responds 0) renamed_work small_store
    = Returns (None, db')
    /\ Forall2 (fun old new =>
                  cat_ID new = cat_ID old
                  /\ cat_CreatedAt new = cat_CreatedAt old
                  /\ (cat_ID old <> cat_ID renamed_work -> new = old)
                  /\ (cat_ID old = cat_ID renamed_work ->
                      cat_Name new = cat_Name renamed_work
                      /\ cat_Description new = cat_Description renamed_work))
         (categories small_store) (categories db')
    /\ tasks db' = tasks small_store
    /\ (forall row, categories_ok small_store -> row ∈ categories small_store ->
          cat_ID row = cat_ID renamed_work ->
          CategoryModel.Get (Responds 0) (cat_ID renamed_work) db'
          = Returns (inr (mkCategory (cat_ID renamed_work) (cat_CreatedAt row)
                            (cat_Name renamed_work)
                            (cat_Description renamed_work)),
                     record_statement
                       (SelectCategory (cat_ID renamed_work)) db')).
Proof.
  apply (X8_category_update_overwrites (Responds 0) (Responds 0) renamed_work
           small_store); answers_in_time.
Defined.

Lemma X9_category_insert_then_get_witness :
  exists category' db',
    CategoryModel.Insert (Responds 0) renamed_work small_store
    = Returns (None, category', db')
    /\ category' = mkCategory (categories_id_seq small_store)
                     (timestamp0 (clock small_store))
                     (cat_Name renamed_work) (cat_Description renamed_work)
    /\ CategoryModel.Get (Responds 0) (cat_ID category') db'
       = Returns (inr category',
                  record_statement (SelectCategory (cat_ID category')) db').
Proof.
  eexists _, _. split; [vm_compute; reflexivity|].
  apply (X9_category_insert_then_get (Responds 0) (Responds 0) renamed_work
           small_store).
  - vm_compute. discriminate.
  - answers_in_time.
  - vm_compute. reflexivity.
Defined.

Lemma X11_entity_validation_messages_witness :
  ValidateTask ∅ taskA !! "due_date" = None
  /\ ValidateTask ∅ (mkTask 0 zeroTime "A" "first" zeroTime "high" "to-do"
                       "home" 0 0) !! "due_date"
     = Some "must be provided"
  /\ ValidateCategory ∅ (mkCategory 0 zeroTime EmptyString "desk") !! "name"
     = Some "must be provided".
Proof.
  split; [|split].
  - apply (proj1 (proj2 (proj2 (proj2 (proj2
             (proj1 X11_entity_validation_messages ∅ taskA)))))).
    reflexivity.
  - apply (proj1 (proj2 (proj2 (proj2 (proj2
             (proj1 X11_entity_validation_messages ∅
                (mkTask 0 zeroTime "A" "first" zeroTime "high" "to-do"
                   "home" 0 0))))))).
    reflexivity.
  - apply (proj1 (proj2 (proj2
             (proj2 X11_entity_validation_messages ∅
                (mkCategory 0 zeroTime EmptyString "desk"))))).
    reflexivity.
Defined.

Lemma X12_json_round_trip_drops_the_fraction_witness :
  canonical_layout (Format (mkTime 2024 2 29 23 59 59 500000000)) = true
  /\ MarshalJSON (mkTime 2024 2 29 23 59 59 500000000)
     = Quote (Format (drop_fraction (mkTime 2024 2 29 23 59 59 500000000)))
  /\ UnmarshalJSON (MarshalJSON (mkTime 2024 2 29 23 59 59 500000000))
     = Some (inr (drop_fraction (mkTime 2024 2 29 23 59 59 500000000))).
Proof.
  apply (X12_json_round_trip_drops_the_fraction
           (mkTime 2024 2 29 23 59 59 500000000)).
  by_decide.
Defined.

Lemma X13_unmarshal_yields_calendar_readings_witness :
  calendar (mkTime 2024 2 29 23 59 59 500000000)
  /\ 0 <= t_nsec (mkTime 2024 2 29 23 59 59 500000000) < 10 ^ 9
  /\ UnmarshalJSON (MarshalJSON (mkTime 2024 2 29 23 59 59 500000000))
     = Some (inr (drop_fraction (mkTime 2024 2 29 23 59 59 500000000))).
Proof.
  apply (proj1 (X13_unmarshal_yields_calendar_readings
                  (Quote "2024-02-29 23:59:59.5"))).
  vm_compute. reflexivity.
Defined.


Lemma X14_reads_and_refusals_change_no_data_witness :
  same_data small_store (record_statement (DeleteTask 7) small_store).
Proof.
  apply (proj1 (proj2 (proj2 (proj2 X14_reads_and_refusals_change_no_data)))
           (Responds 0) 7 small_store).
  vm_compute. reflexivity.
Defined.

Lemma X15_pages_cover_the_listing_witness :
  let matching :=
    filter (fun r => TaskModel.title_matches EmptyString r) (tasks small_store) in
  let pages :=
    concat ((fun k => listed (TaskModel.GetAll (Responds 0) EmptyString
                                (mkFilters (Z.of_nat k) 1 "-id" tasksSafelist)
                                small_store))
              <$> seq 1 2) in
  pages = take (2 * Z.to_nat 1)
            (merge_sort (row_le task_ID (fun r => KInt (task_ID r))
                           (HasDash "-id")) matching)
  /\ ((length matching <= 2 * Z.to_nat 1)%nat -> pages ≡ₚ matching).
Proof.
  apply (proj1 X15_pages_cover_the_listing (Responds 0) EmptyString
           tasksSafelist "-id" 1 small_store (fun r => KInt (task_ID r)) 2%nat).
  - answers_in_time.
  - by_decide.
  - reflexivity.
  - lia.
Defined.

Lemma X16_create_handlers_answer_witness :
  exists task db',
    createTaskHandler (Responds (10 * Second)) (inr third_task) small_store
    = Returns (writeJSON StatusCreated (taskEnvelope task)
                 (Some (String.append "/v1/tasks/" (Sprintf_d (task_ID task)))),
               db').
Proof.
  apply (proj1 (proj2 X16_create_handlers_answer)).
  - tables_ok.
  - vm_compute. discriminate.
  - vm_compute. discriminate.
  - vm_compute. reflexivity.
Defined.


Lemma X18_update_handler_patches_the_stored_row_witness :
  let entity := set_Version (patch_task rowA revise_title)
                  (task_Version rowA + 1) in
  exists db',
    updateTaskHandler (Responds 0) (Responds 0) (Some (task_ID rowA))
      (inr revise_title) (fun db0 => db0) small_store
    = Returns (writeJSON StatusOK (taskEnvelope entity) None, db')
    /\ tasks db'
       = (fun r => if decide (task_ID r = task_ID rowA)
                   then mkTask (task_ID rowA) (task_CreatedAt rowA)
                          (task_Title entity) (task_Description entity)
                          (timestamp0 (task_DueDate entity))
                          (task_Priority entity) (task_Status entity)
                          (task_Category entity) (task_UserID rowA)
                          (task_Version rowA + 1)
                   else r) <$> tasks small_store.
Proof.
  apply (X18_update_handler_patches_the_stored_row (Responds 0) (Responds 0)
           revise_title (fun db0 => db0) small_store rowA).
  - answers_in_time.
  - answers_in_time.
  - unfold tasks_ok. by_decide.
  - by_decide.
  - reflexivity.
  - vm_compute. reflexivity.
  - vm_compute. reflexivity.
Defined.

Lemma X19_update_handler_reports_the_conflict_witness :
  exists db',
    updateTaskHandler (Responds 0) (Responds 0) (Some (task_ID rowA))
      (inr revise_title) another_update small_store
    = Returns (editConflictResponse, db')
    /\ tasks db'
       = tasks (another_update
                  (record_statement (SelectTask (task_ID rowA)) small_store)).
Proof.
  apply (X19_update_handler_reports_the_conflict (Responds 0) (Responds 0)
           revise_title another_update small_store rowA).
  - answers_in_time.
  - answers_in_time.
  - unfold tasks_ok. by_decide.
  - by_decide.
  - vm_compute. reflexivity.
  - by_decide.
Defined.

Lemma X20_category_update_handler_answers_ok_witness :
  let entity := patch_category work rename_category in
  let db1 := another_delete
               (record_statement (SelectCategory (cat_ID work)) small_store) in
  exists db',
    updateCategoryHandler (Responds 0) (Responds 0) (Some (cat_ID work))
      (inr rename_category) another_delete small_store
    = Returns (writeJSON StatusOK (categoryEnvelope entity) None, db')
    /\ categories db'
       = (fun r => if decide (cat_ID r = cat_ID work)
                   then mkCategory (cat_ID r) (cat_CreatedAt r)
                          (cat_Name entity) (cat_Description entity)
                   else r) <$> categories db1
    /\ (Forall (fun r => cat_ID r <> cat_ID work) (categories db1) ->
        categories db' = categories db1).
Proof.
  apply (X20_category_update_handler_answers_ok (Responds 0) (Responds 0)
           rename_category another_delete small_store work).
  - answers_in_time.
  - answers_in_time.
  - unfold categories_ok. by_decide.
  - by_decide.
  - vm_compute. reflexivity.
Defined.

Lemma X21_update_handlers_refuse_before_writing_witness :
  updateTaskHandler (Responds 0) Hangs (Some (task_ID rowA))
    (inr empty_title) another_update small_store
  = Returns (errorResponse
               (failedValidationResponse
                  (ValidateTask ∅ (patch_task rowA empty_title))),
             record_statement (SelectTask (task_ID rowA)) small_store).
Proof.
  apply (proj1 (proj2 (proj2 (proj2 X21_update_handlers_refuse_before_writing)))
           (Responds 0) Hangs empty_title another_update small_store rowA).
  - answers_in_time.
  - unfold tasks_ok. by_decide.
  - by_decide.
  - vm_compute. reflexivity.
Defined.


Lemma X22_routes_of_the_created_entities_witness :
  Routes.handler (Routes.mkRoute "GET" "/v1/category/:id" None
                    Routes.showCategoryHandler)
  <> Routes.listCategoriesHandler.
Proof.
  apply (proj1 (proj2 (proj2 X22_routes_of_the_created_entities))
           "GET" "/v1/category/5").
  vm_compute. reflexivity.
Defined.

Lemma X23_list_request_defaults_witness :
  let matching :=
    filter (fun r => TaskModel.title_matches EmptyString r) (tasks small_store) in
  exists page md,
    listTasksHandler (Responds 0) (mkQuery EmptyString Absent Absent EmptyString)
      small_store
    = Returns (tasksResponse page md,
               record_statement (SelectTasks "id" "ASC" EmptyString 20 0)
                 small_store)
    /\ page = take 20 (merge_sort
                         (row_le task_ID (fun r => KInt (task_ID r)) false)
                         matching)
    /\ StronglySorted (fun a b => task_ID a <= task_ID b) page
    /\ (forall row, row ∈ page -> row ∈ matching)
    /\ (matching <> [] ->
        md = mkMetadata 1 20 1 (ceil_div (Z.of_nat (length matching)) 20)
               (Z.of_nat (length matching))).
Proof.
  apply (X23_list_request_defaults (Responds 0) EmptyString small_store).
  answers_in_time.
Defined.

Lemma X24_ids_are_never_reused_witness :
  exists task1 db1 db2 task2 db3,
    TaskModel.Insert (Responds 0) taskB small_store
    = Returns (None, task1, db1)
    /\ TaskModel.Delete (Responds 0) 3 db1 = Returns (None, db2)
    /\ TaskModel.Insert (Responds 0) taskB db2 = Returns (None, task2, db3)
    /\ task_ID task1 = 3
    /\ task_ID task1 < task_ID task2.
Proof.
  eexists _, _, _, _, _.
  split; [vm_compute; reflexivity|].
  split; [vm_compute; reflexivity|].
  split; [vm_compute; reflexivity|].
  split; [reflexivity|].
  eapply (proj1 X24_ids_are_never_reused (Responds 0) taskB small_store
            _ _ _ (Responds 0) taskB).
  - vm_compute. reflexivity.
  - eapply rtc_l; [|apply rtc_refl].
    eapply (call_task_Delete _ _ (Responds 0) 3 None).
    vm_compute. reflexivity.
  - vm_compute. reflexivity.
Defined.

Lemma X25_rows_keep_their_identity_witness :
  (forall r', r' ∈ tasks (another_update small_store) ->
     task_ID r' < tasks_id_seq small_store ->
     exists r, r ∈ tasks small_store /\ task_ID r = task_ID r'
               /\ task_CreatedAt r = task_CreatedAt r'
               /\ task_Version r <= task_Version r')
  /\ (forall c', c' ∈ categories (another_update small_store) ->
        cat_ID c' < categories_id_seq small_store ->
        exists c, c ∈ categories small_store /\ cat_ID c = cat_ID c'
                  /\ cat_CreatedAt c = cat_CreatedAt c').
Proof.
  apply (X25_rows_keep_their_identity small_store (another_update small_store)).
  eapply rtc_l; [|apply rtc_refl].
  eapply (call_task_Update _ _ (Responds 0) editedA).
  vm_compute. reflexivity.
Defined.
